(** * Dynamic output file lists of parsl: a shallow embedding

    The development follows [parsl/data_provider/dynamic_files.py]
    (classes [DynamicFileList], its nested class [DynamicFile] and
    [DynamicFileSubList]) and [parsl/app/futures.py] (class [DataFuture]).

    Python objects live in a store and are named by references, so that
    aliasing (one wrapper reachable from a list, from a view over it and
    from the completion-predicate map) is modelled as in the program.
    Methods are computations in a state monad over the store; a raised
    Python exception keeps the store as it was when it was raised. *)

From stdpp Require Import base list strings.
From Stdlib Require Import ZArith Lia.

Local Open Scope Z_scope.

(** ** Data model *)

(** Object identity: the position of the object in the store. *)
Abbreviation ref := nat (only parsing).

(** Python exceptions met in the two modules. [TaskError n] stands for
    the failure of a producing task. *)
Inductive exn :=
| TypeError | ValueError | IndexError | KeyError | AttributeError
| InvalidStateError | NotImplementedError | RecursionError | Exception
| TaskError (code : nat).

(** [concurrent.futures.Future] states; cancellation is not reachable
    since every [cancel] of these classes raises. *)
Inductive fstate := PENDING | RUNNING | FINISHED.

(** Bound methods registered with [add_done_callback]. *)
Inductive callback :=
| CbDataFuture (self : ref)       (* DataFuture.parent_callback *)
| CbDynamicFile (self : ref)      (* DynamicFileList.DynamicFile.parent_callback *)
| CbDynamicFileList (self : ref). (* DynamicFileList.parent_callback *)

(** Modelled from the spec: class [File] of [parsl.data_provider.files] is
    not part of the sources at hand. An artifact has a location and mutable
    optional metadata, and an independent-copy operation ([cleancopy]).
    [filepath] and [filename] are both kept since the code reads both. *)
Record File := mkFile {
  filepath : string;
  filename : string;
  timestamp : option nat }.

(** Modelled from the spec: the staging collaborator and provenance
    registrar ([DataFlowKernel]) is external. All that matters here is
    whether [stage_out] hands back a follow-on future. File provenance
    capture (which reads the file system) is taken to be switched off. *)
Record DataFlowKernel := mkDfk {
  dfk_id : nat;
  stage_out_follow_on : bool }.

(** Attributes of [concurrent.futures.Future], shared by every future. *)
Record Future_attrs := mkFuture {
  _state : fstate;
  _result : option ref;
  _exception : option exn;
  _done_callbacks : list callback;
  _outputs : option ref }.

(** Modelled from the spec: [AppFuture], the future of the producing task
    supplied by the execution engine. *)
Record AppFuture_attrs := mkAppFuture {
  app_tid : Z;
  app_task_record : nat }.

Record DataFuture_attrs := mkDataFuture {
  df_tid : option Z;
  df_file_obj : ref;
  df_parent : ref;
  df_app_fut : ref;
  df_data_flow_kernel : DataFlowKernel }.

Record DynamicFile_attrs := mkDynamicFile {
  _is_df : bool;
  dyn_parent : ref;
  dyn_file_obj : option ref;
  _empty : bool;
  _staged_out : bool }.

(** A Python [slice] object with integer or absent bounds. *)
Record pyslice := mkSlice {
  sl_start : option Z;
  sl_stop : option Z;
  sl_step : option Z }.

(** Keys of the completion-predicate map: file names, or [None] for the
    name of an empty wrapper. *)
Definition key := option string.

(** [DynamicFileList]; a [DynamicFileSubList] is one whose [slice] is set.
    [files_done] is a Python dict (insertion ordered) whose values are the
    bound [done] methods of wrappers, kept as the wrapper's reference. *)
Record DynamicFileList_attrs := mkList {
  items : list ref;
  files_done : list (key * ref);
  _last_idx : Z;
  executor : string;
  parent : option ref;
  dataflow : option DataFlowKernel;
  _sub_callbacks : list ref;
  _in_callback : bool;
  _staging_inhibited : bool;
  _output_task_id : option Z;
  task_record : option nat;
  slice : option pyslice;
  fixed_size : bool }.

Inductive instance :=
| IFuture
| IAppFuture (a : AppFuture_attrs)
| IDataFuture (a : DataFuture_attrs)
| IDynamicFile (a : DynamicFile_attrs)
| IDynamicFileList (a : DynamicFileList_attrs).

Inductive obj :=
| OFile (f : File)
| OFuture (base : Future_attrs) (inst : instance).

(** Calls to the external collaborators, in the order they are made.
    [EvStageOut] also records the list, index and wrapper being staged. *)
Inductive event :=
| EvStageOut (lst : ref) (idx : Z) (slot : ref) (f_copy : ref)
             (exec : string) (app_fu : ref)
| EvReplaceTaskStageOut (lst : ref) (f_copy : ref) (task_id : option Z)
| EvRegisterAsOutput (file_obj : option ref) (record : option nat).

Record world := mkWorld {
  heap : list obj;
  log : list event;
  clock : nat }.

(** Record updates. *)
Definition with_state s (b : Future_attrs) :=
  mkFuture s (_result b) (_exception b) (_done_callbacks b) (_outputs b).
Definition with_result r (b : Future_attrs) :=
  mkFuture (_state b) r (_exception b) (_done_callbacks b) (_outputs b).
Definition with_exception e (b : Future_attrs) :=
  mkFuture (_state b) (_result b) e (_done_callbacks b) (_outputs b).
Definition with_done_callbacks c (b : Future_attrs) :=
  mkFuture (_state b) (_result b) (_exception b) c (_outputs b).
Definition with_outputs o (b : Future_attrs) :=
  mkFuture (_state b) (_result b) (_exception b) (_done_callbacks b) o.

Definition with_df_file_obj f (a : DataFuture_attrs) :=
  mkDataFuture (df_tid a) f (df_parent a) (df_app_fut a) (df_data_flow_kernel a).
Definition with_df_parent p (a : DataFuture_attrs) :=
  mkDataFuture (df_tid a) (df_file_obj a) p (df_app_fut a) (df_data_flow_kernel a).
Definition with_df_tid t (a : DataFuture_attrs) :=
  mkDataFuture t (df_file_obj a) (df_parent a) (df_app_fut a) (df_data_flow_kernel a).

Definition with_dyn_file_obj f (a : DynamicFile_attrs) :=
  mkDynamicFile (_is_df a) (dyn_parent a) f (_empty a) (_staged_out a).
Definition with_is_df b (a : DynamicFile_attrs) :=
  mkDynamicFile b (dyn_parent a) (dyn_file_obj a) (_empty a) (_staged_out a).
Definition with_empty b (a : DynamicFile_attrs) :=
  mkDynamicFile (_is_df a) (dyn_parent a) (dyn_file_obj a) b (_staged_out a).

Definition with_items x (a : DynamicFileList_attrs) :=
  mkList x (files_done a) (_last_idx a) (executor a) (parent a) (dataflow a)
    (_sub_callbacks a) (_in_callback a) (_staging_inhibited a)
    (_output_task_id a) (task_record a) (slice a) (fixed_size a).
Definition with_files_done x (a : DynamicFileList_attrs) :=
  mkList (items a) x (_last_idx a) (executor a) (parent a) (dataflow a)
    (_sub_callbacks a) (_in_callback a) (_staging_inhibited a)
    (_output_task_id a) (task_record a) (slice a) (fixed_size a).
Definition with_last_idx x (a : DynamicFileList_attrs) :=
  mkList (items a) (files_done a) x (executor a) (parent a) (dataflow a)
    (_sub_callbacks a) (_in_callback a) (_staging_inhibited a)
    (_output_task_id a) (task_record a) (slice a) (fixed_size a).
Definition with_parent x (a : DynamicFileList_attrs) :=
  mkList (items a) (files_done a) (_last_idx a) (executor a) x (dataflow a)
    (_sub_callbacks a) (_in_callback a) (_staging_inhibited a)
    (_output_task_id a) (task_record a) (slice a) (fixed_size a).
Definition with_sub_callbacks x (a : DynamicFileList_attrs) :=
  mkList (items a) (files_done a) (_last_idx a) (executor a) (parent a)
    (dataflow a) x (_in_callback a) (_staging_inhibited a)
    (_output_task_id a) (task_record a) (slice a) (fixed_size a).
Definition with_in_callback x (a : DynamicFileList_attrs) :=
  mkList (items a) (files_done a) (_last_idx a) (executor a) (parent a)
    (dataflow a) (_sub_callbacks a) x (_staging_inhibited a)
    (_output_task_id a) (task_record a) (slice a) (fixed_size a).
Definition with_dataflow ex dfk inh tid rec (a : DynamicFileList_attrs) :=
  mkList (items a) (files_done a) (_last_idx a) ex (parent a) dfk
    (_sub_callbacks a) (_in_callback a) inh tid rec (slice a) (fixed_size a).
Definition with_slice p s fx (a : DynamicFileList_attrs) :=
  mkList (items a) (files_done a) (_last_idx a) (executor a) p (dataflow a)
    (_sub_callbacks a) (_in_callback a) (_staging_inhibited a)
    (_output_task_id a) (task_record a) s fx.

Definition with_heap h (w : world) := mkWorld h (log w) (clock w).
Definition with_log l (w : world) := mkWorld (heap w) l (clock w).
Definition with_clock c (w : world) := mkWorld (heap w) (log w) c.

(** ** The monad of Python computations *)

(** Reasons for which the model itself stops: a reference outside the
    store, a wait on a future that is still pending, exhausted fuel of the
    callback dispatcher, or an object the program never builds. None of
    them is a Python exception, and no handler catches them. *)
Inductive stop := BadRef | WouldBlock | OutOfFuel | IllFormed.

Inductive outcome (A : Type) :=
| Ret (a : A)
| Raise (e : exn)
| Abort (s : stop).
Arguments Ret {A} a.
Arguments Raise {A} e.
Arguments Abort {A} s.

Definition M (A : Type) := world -> world * outcome A.

Definition ret {A} (a : A) : M A := fun w => (w, Ret a).
Definition raise {A} (e : exn) : M A := fun w => (w, Raise e).
Definition abort {A} (s : stop) : M A := fun w => (w, Abort s).
Definition bind {A B} (m : M A) (k : A -> M B) : M B :=
  fun w => match m w with
           | (w', Ret a) => k a w'
           | (w', Raise e) => (w', Raise e)
           | (w', Abort s) => (w', Abort s)
           end.

Notation "'do' x <- m ; k" := (bind m (fun x => k))
  (at level 10, x name, m at level 100, k at level 200).
Notation "'do' ' p <- m ; k" := (bind m (fun x => match x with p => k end))
  (at level 10, p pattern, m at level 100, k at level 200).

(** [try: m except Exception: LOGGER.exception(...)] *)
Definition try_log (m : M unit) : M unit :=
  fun w => match m w with
           | (w', Raise _) => (w', Ret tt)
           | r => r
           end.

(** [for x in xs: body x] over a list fixed before the loop starts. *)
Fixpoint for_each {A} (xs : list A) (body : A -> M unit) : M unit :=
  match xs with
  | [] => ret tt
  | x :: xs' => do _ <- body x; for_each xs' body
  end.

(** ** The store *)

Definition lookup_obj (r : ref) : M obj :=
  fun w => match heap w !! r with
           | Some o => (w, Ret o)
           | None => (w, Abort BadRef)
           end.

Definition store_obj (r : ref) (o : obj) : M unit :=
  fun w => (with_heap (<[r := o]> (heap w)) w, Ret tt).

Definition alloc (o : obj) : M ref :=
  fun w => (with_heap (heap w ++ [o]) w, Ret (length (heap w))).

Definition emit (e : event) : M unit :=
  fun w => (with_log (log w ++ [e]) w, Ret tt).

(** [datetime.now(timezone.utc)] *)
Definition datetime_now : M nat :=
  fun w => (with_clock (S (clock w)) w, Ret (clock w)).

(** Attribute access by class; a missing attribute is an [AttributeError]. *)
Definition get_base (r : ref) : M Future_attrs :=
  do o <- lookup_obj r;
  match o with
  | OFuture b _ => ret b
  | OFile _ => raise AttributeError
  end.

Definition upd_base (r : ref) (f : Future_attrs -> Future_attrs) : M unit :=
  do o <- lookup_obj r;
  match o with
  | OFuture b i => store_obj r (OFuture (f b) i)
  | OFile _ => raise AttributeError
  end.

Definition get_file (r : ref) : M File :=
  do o <- lookup_obj r;
  match o with
  | OFile f => ret f
  | _ => raise AttributeError
  end.

Definition get_data (r : ref) : M DataFuture_attrs :=
  do o <- lookup_obj r;
  match o with
  | OFuture _ (IDataFuture a) => ret a
  | _ => raise AttributeError
  end.

Definition upd_data (r : ref) (f : DataFuture_attrs -> DataFuture_attrs) : M unit :=
  do o <- lookup_obj r;
  match o with
  | OFuture b (IDataFuture a) => store_obj r (OFuture b (IDataFuture (f a)))
  | _ => raise AttributeError
  end.

Definition get_dyn (r : ref) : M DynamicFile_attrs :=
  do o <- lookup_obj r;
  match o with
  | OFuture _ (IDynamicFile a) => ret a
  | _ => raise AttributeError
  end.

Definition upd_dyn (r : ref) (f : DynamicFile_attrs -> DynamicFile_attrs) : M unit :=
  do o <- lookup_obj r;
  match o with
  | OFuture b (IDynamicFile a) => store_obj r (OFuture b (IDynamicFile (f a)))
  | _ => raise AttributeError
  end.

Definition get_list (r : ref) : M DynamicFileList_attrs :=
  do o <- lookup_obj r;
  match o with
  | OFuture _ (IDynamicFileList a) => ret a
  | _ => raise AttributeError
  end.

Definition upd_list (r : ref) (f : DynamicFileList_attrs -> DynamicFileList_attrs)
  : M unit :=
  do o <- lookup_obj r;
  match o with
  | OFuture b (IDynamicFileList a) => store_obj r (OFuture b (IDynamicFileList (f a)))
  | _ => raise AttributeError
  end.

(** [x is None] *)
Definition is_none {A} (x : option A) : bool :=
  match x with None => true | Some _ => false end.

(** [isinstance] tests used by the program. *)
Definition is_File (o : obj) : bool :=
  match o with OFile _ => true | _ => false end.
Definition is_DataFuture (o : obj) : bool :=
  match o with OFuture _ (IDataFuture _) => true | _ => false end.
Definition is_DynamicFile (o : obj) : bool :=
  match o with OFuture _ (IDynamicFile _) => true | _ => false end.
Definition is_DynamicFileList (o : obj) : bool :=
  match o with OFuture _ (IDynamicFileList _) => true | _ => false end.
Definition is_Future (o : obj) : bool :=
  match o with OFuture _ _ => true | _ => false end.

Definition isinstance (p : obj -> bool) (r : ref) : M bool :=
  do o <- lookup_obj r; ret (p o).

(** ** Python built-ins: lists, ranges, slices, dicts *)

(** Position designated by index [k] in a list of length [n]. *)
Definition norm_index (n : nat) (k : Z) : option nat :=
  if 0 <=? k then (if k <? Z.of_nat n then Some (Z.to_nat k) else None)
  else (if - Z.of_nat n <=? k then Some (Z.to_nat (Z.of_nat n + k)) else None).

(** [list.__getitem__(k)] for an integer [k]. *)
Definition list_getitem (l : list ref) (k : Z) : M ref :=
  match norm_index (length l) k with
  | Some i => match l !! i with Some r => ret r | None => raise IndexError end
  | None => raise IndexError
  end.

(** [list.insert(k, x)]: the index is clamped. *)
Definition list_insert_at (l : list ref) (k : Z) (x : ref) : list ref :=
  let n := Z.of_nat (length l) in
  let k' := if k <? 0 then Z.max 0 (k + n) else Z.min k n in
  take (Z.to_nat k') l ++ x :: drop (Z.to_nat k') l.

(** [list.remove(x)]: objects of these classes compare by identity. *)
Fixpoint list_remove (x : ref) (l : list ref) : option (list ref) :=
  match l with
  | [] => None
  | y :: l' => if Nat.eqb y x then Some l'
               else option_map (cons y) (list_remove x l')
  end.

(** [range(lo, hi)] *)
Definition py_range (lo hi : Z) : list Z :=
  map (fun i => lo + Z.of_nat i) (seq 0 (Z.to_nat (hi - lo))).

(** [slice.indices(n)] followed by the enumeration of the selected
    positions; [None] when the step is zero ([ValueError]). *)
Definition slice_positions (s : pyslice) (n : nat) : option (list nat) :=
  let len := Z.of_nat n in
  let step := default 1 (sl_step s) in
  if step =? 0 then None else
  let lower := if step <? 0 then -1 else 0 in
  let upper := if step <? 0 then len - 1 else len in
  let clamp (v : Z) := if v <? 0 then Z.max (v + len) lower else Z.min v upper in
  let start := match sl_start s with
               | None => if step <? 0 then upper else lower
               | Some v => clamp v
               end in
  let stop := match sl_stop s with
              | None => if step <? 0 then lower else upper
              | Some v => clamp v
              end in
  let count := if step <? 0
               then (if stop <? start then (start - stop - 1) / (- step) + 1 else 0)
               else (if start <? stop then (stop - start - 1) / step + 1 else 0) in
  Some (map (fun i => Z.to_nat (start + Z.of_nat i * step)) (seq 0 (Z.to_nat count))).

(** [list.__getitem__(s)] for a slice [s]. *)
Definition list_getslice (l : list ref) (s : pyslice) : M (list ref) :=
  match slice_positions s (length l) with
  | None => raise ValueError
  | Some ps => ret (omap (fun i => l !! i) ps)
  end.

Definition key_eqb (a b : key) : bool :=
  match a, b with
  | None, None => true
  | Some x, Some y => String.eqb x y
  | _, _ => false
  end.

(** [k in d] *)
Fixpoint dict_mem (k : key) (d : list (key * ref)) : bool :=
  match d with
  | [] => false
  | (k', _) :: d' => key_eqb k' k || dict_mem k d'
  end.

(** [d[k] = v]: an existing key keeps its place. *)
Fixpoint dict_set (k : key) (v : ref) (d : list (key * ref)) : list (key * ref) :=
  match d with
  | [] => [(k, v)]
  | (k', v') :: d' => if key_eqb k' k then (k', v) :: d'
                      else (k', v') :: dict_set k v d'
  end.

(** [del d[k]] for a key that is there. *)
Fixpoint dict_del (k : key) (d : list (key * ref)) : list (key * ref) :=
  match d with
  | [] => []
  | (k', v') :: d' => if key_eqb k' k then d' else (k', v') :: dict_del k d'
  end.

(** [del d[k]]: [KeyError] when the key is absent. *)
Definition dict_delitem (k : key) (d : list (key * ref)) : M (list (key * ref)) :=
  if dict_mem k d then ret (dict_del k d) else raise KeyError.

(** ** Attribute and method resolution by class *)

(** [x.filepath]: a [File] has it, a [DataFuture] and a [DynamicFile] hand
    on to their [file_obj]. The chain of wrappers is followed for as many
    objects as the store holds; a longer chain is a cycle, on which Python
    raises [RecursionError]. *)
Fixpoint filepath_chain (fuel : nat) (r : ref) : M string :=
  match fuel with
  | O => raise RecursionError
  | S n =>
      do o <- lookup_obj r;
      match o with
      | OFile f => ret (filepath f)
      | OFuture _ (IDataFuture a) => filepath_chain n (df_file_obj a)
      | OFuture _ (IDynamicFile a) =>
          match dyn_file_obj a with
          | Some f => filepath_chain n f
          | None => raise AttributeError
          end
      | _ => raise AttributeError
      end
  end.

Definition getattr_filepath (r : ref) : M string :=
  fun w => filepath_chain (length (heap w)) r w.

(** [x.filename] *)
Definition getattr_filename (r : ref) : M key :=
  do o <- lookup_obj r;
  match o with
  | OFile f => ret (Some (filename f))
  | OFuture _ (IDataFuture a) =>
      do p <- getattr_filepath (df_file_obj a); ret (Some p)
  | OFuture _ (IDynamicFile a) =>
      match dyn_file_obj a with
      | None => ret None
      | Some f => do p <- getattr_filepath f; ret (Some p)
      end
  | _ => raise AttributeError
  end.

(** [x.task_record] *)
Definition getattr_task_record (r : ref) : M (option nat) :=
  do o <- lookup_obj r;
  match o with
  | OFuture _ (IAppFuture a) => ret (Some (app_task_record a))
  | OFuture _ (IDynamicFileList a) => ret (task_record a)
  | _ => raise AttributeError
  end.

(** [x.tid] *)
Definition getattr_tid (r : ref) : M (option Z) :=
  do o <- lookup_obj r;
  match o with
  | OFuture _ (IAppFuture a) => ret (Some (app_tid a))
  | OFuture _ (IDataFuture a) => ret (df_tid a)
  | OFuture _ (IDynamicFile a) =>
      if _is_df a then
        match dyn_file_obj a with
        | Some f => do d <- get_data f; ret (df_tid d)
        | None => raise AttributeError
        end
      else ret None
  | _ => raise AttributeError
  end.

(** [x._outputs = v]: any of these objects takes a new attribute; only
    futures keep track of it here. *)
Definition setattr_outputs (r : ref) (v : ref) : M unit :=
  do o <- lookup_obj r;
  match o with
  | OFuture _ _ => upd_base r (with_outputs (Some v))
  | OFile _ => ret tt
  end.

(** [bool(x)] of an optional object: a list is false when it has no
    element, every other object is true. *)
Definition truthy (r : ref) : M bool :=
  do o <- lookup_obj r;
  match o with
  | OFuture _ (IDynamicFileList a) => ret (negb (Nat.eqb (length (items a)) 0))
  | _ => ret true
  end.

(** Callbacks are run through a dispatcher, so that the methods can be
    written before the classes they call back into. [fire cb fu] is the
    call [cb(fu)] of a done-callback, [refresh v] the call of the bound
    method [v.callback] of a view. *)
Record dispatcher := mkDispatcher {
  fire : callback -> ref -> M unit;
  refresh : ref -> M unit }.

(** ** concurrent.futures.Future *)

Module Future.
Section Methods.
Variable D : dispatcher.

Definition __init__ : Future_attrs := mkFuture PENDING None None [] None.

Definition done (self : ref) : M bool :=
  do b <- get_base self;
  ret (match _state b with FINISHED => true | _ => false end).

Definition add_done_callback (self : ref) (fn : callback) : M unit :=
  do b <- get_base self;
  match _state b with
  | FINISHED => try_log (fire D fn self)
  | _ => upd_base self (with_done_callbacks (_done_callbacks b ++ [fn]))
  end.

Definition _invoke_callbacks (self : ref) : M unit :=
  do b <- get_base self;
  for_each (_done_callbacks b) (fun cb => try_log (fire D cb self)).

Definition set_result (self : ref) (result : option ref) : M unit :=
  do b <- get_base self;
  match _state b with
  | FINISHED => raise InvalidStateError
  | _ =>
      do _ <- upd_base self (fun b => with_state FINISHED (with_result result b));
      _invoke_callbacks self
  end.

Definition set_exception (self : ref) (e : exn) : M unit :=
  do b <- get_base self;
  match _state b with
  | FINISHED => raise InvalidStateError
  | _ =>
      do _ <- upd_base self (fun b => with_state FINISHED (with_exception (Some e) b));
      _invoke_callbacks self
  end.

(** The accessors wait for completion; on a pending future the model
    stops with [WouldBlock]. *)
Definition exception (self : ref) (timeout : option nat) : M (option exn) :=
  do b <- get_base self;
  match _state b with
  | FINISHED => ret (_exception b)
  | _ => abort WouldBlock
  end.

Definition result (self : ref) (timeout : option nat) : M (option ref) :=
  do b <- get_base self;
  match _state b with
  | FINISHED =>
      match _exception b with
      | Some e => raise e
      | None => ret (_result b)
      end
  | _ => abort WouldBlock
  end.
End Methods.
End Future.

(** ** parsl.app.futures.DataFuture *)

Module DataFuture.
Section Methods.
Variable D : dispatcher.

Definition parent_callback (self parent_fu : ref) : M unit :=
  do pb <- get_base parent_fu;
  match _exception pb with
  | Some e => Future.set_exception D self e
  | None =>
      do a <- get_data self;
      do _ <- Future.set_result D self (Some (df_file_obj a));
      do rec <- getattr_task_record (df_app_fut a);
      emit (EvRegisterAsOutput (Some (df_file_obj a)) rec)
  end.

(** [DataFuture(fut, file_obj, dfk, tid=None, app_fut=None)]. [dfk] has
    no default: a call that leaves it out ([None] here) is a
    [TypeError], as is a [fut] that is no future or a [file_obj] that is
    no [File]. *)
Definition __init__ (fut : ref) (file_obj : option ref)
    (dfk : option DataFlowKernel) (tid : option Z) (app_fut : option ref)
  : M ref :=
  match dfk, file_obj with
  | Some k, Some f =>
      do fo <- lookup_obj fut;
      do o <- lookup_obj f;
      if negb (is_Future fo && is_File o) then raise TypeError else
      do af <- match app_fut with
               | Some x => do t <- truthy x; ret (if t then x else fut)
               | None => ret fut
               end;
      do self <- alloc (OFuture Future.__init__
                          (IDataFuture (mkDataFuture tid f fut af k)));
      do _ <- Future.add_done_callback D fut (CbDataFuture self);
      ret self
  | _, _ => raise TypeError
  end.

Definition tid (self : ref) : M (option Z) :=
  do a <- get_data self; ret (df_tid a).

Definition filepath (self : ref) : M string :=
  do a <- get_data self; getattr_filepath (df_file_obj a).

Definition filename (self : ref) : M string := filepath self.

Definition cancel (self : ref) : M bool := raise NotImplementedError.

Definition cancelled (self : ref) : M bool := ret false.
End Methods.
End DataFuture.

(** [list.pop(k)] *)
Definition list_pop (l : list ref) (k : Z) : M (ref * list ref) :=
  match norm_index (length l) k with
  | Some i => match l !! i with
              | Some r => ret (r, delete i l)
              | None => raise IndexError
              end
  | None => raise IndexError
  end.

(** Modelled from the spec: [File.cleancopy], the independent copy of an
    artifact taken before staging. *)
Definition cleancopy (f : ref) : M ref :=
  do o <- get_file f; alloc (OFile o).

(** Modelled from the spec: [data_manager.stage_out], which returns an
    optional follow-on future. The call is recorded. *)
Definition stage_out (dfk : DataFlowKernel) (lst : ref) (idx : Z) (slot f_copy : ref)
    (exec : string) (app_fu : ref) : M (option ref) :=
  do _ <- emit (EvStageOut lst idx slot f_copy exec app_fu);
  if stage_out_follow_on dfk then
    do r <- alloc (OFuture Future.__init__ IFuture); ret (Some r)
  else ret None.

(** [x.timestamp = v] for the [file_obj] of a wrapper. [DataFuture] has a
    setter that writes through to its [File]; [DynamicFile] has a
    read-only property. *)
Definition setattr_timestamp (x : option ref) (v : nat) : M unit :=
  match x with
  | None => raise AttributeError
  | Some r =>
      do o <- lookup_obj r;
      match o with
      | OFile f => store_obj r (OFile (mkFile (filepath f) (filename f) (Some v)))
      | OFuture _ (IDataFuture a) =>
          do o' <- lookup_obj (df_file_obj a);
          match o' with
          | OFile f => store_obj (df_file_obj a)
                         (OFile (mkFile (filepath f) (filename f) (Some v)))
          | _ => abort IllFormed
          end
      | OFuture _ (IDynamicFile _) => raise AttributeError
      | OFuture _ _ => ret tt
      end
  end.

(** ** parsl.data_provider.dynamic_files.DynamicFileList *)

Module DynamicFileList.

Definition exception (self : ref) (timeout : option nat) : M (option exn) :=
  ret None.

Definition add_done_func (self : ref) (name : key) (func : ref) : M unit :=
  upd_list self (fun a => with_files_done (dict_set name func (files_done a)) a).

(** *** The nested class DynamicFile *)
Module DynamicFile.
Section Methods.
Variable D : dispatcher.

Definition exception (self : ref) (timeout : option nat) : M (option exn) :=
  ret None.

(** [parent_fu.exception()], resolved by the class of [parent_fu]. *)
Definition exception_of (parent_fu : ref) : M (option exn) :=
  do o <- lookup_obj parent_fu;
  match o with
  | OFuture _ (IDynamicFile _) => exception parent_fu None
  | OFuture _ (IDynamicFileList _) => DynamicFileList.exception parent_fu None
  | OFuture _ _ => Future.exception parent_fu None
  | OFile _ => raise AttributeError
  end.

Definition parent_callback (self parent_fu : ref) : M unit :=
  do e <- exception_of parent_fu;
  match e with
  | Some e => Future.set_exception D self e
  | None =>
      do now <- datetime_now;
      do a <- get_dyn self;
      do _ <- setattr_timestamp (dyn_file_obj a) now;
      do pa <- get_list (dyn_parent a);
      match dataflow pa with
      | None => raise AttributeError
      | Some _ =>
          do _ <- emit (EvRegisterAsOutput (dyn_file_obj a) (task_record pa));
          Future.set_result D self (dyn_file_obj a)
      end
  end.

Definition __init__ (fut : ref) (file_obj : option ref) : M ref :=
  do is_df <- match file_obj with
              | Some f => isinstance is_DataFuture f
              | None => ret false
              end;
  do self <- alloc (OFuture Future.__init__
                      (IDynamicFile (mkDynamicFile is_df fut file_obj
                         (is_none file_obj) false)));
  do _ <- Future.add_done_callback D fut (CbDynamicFile self);
  ret self.

Definition staged (self : ref) : M bool :=
  do a <- get_dyn self; ret (_staged_out a).

Definition empty (self : ref) : M bool :=
  do a <- get_dyn self; ret (_empty a).

Definition is_df (self : ref) : M bool :=
  do a <- get_dyn self; ret (_is_df a).

Definition filename (self : ref) : M key :=
  do a <- get_dyn self;
  match dyn_file_obj a with
  | None => ret None
  | Some f => do p <- getattr_filepath f; ret (Some p)
  end.

Definition done (self : ref) : M bool :=
  do a <- get_dyn self;
  if _is_df a then
    match dyn_file_obj a with
    | None => raise AttributeError
    | Some f =>
        do o <- lookup_obj f;
        match o with
        | OFile _ => raise AttributeError
        | OFuture _ (IDynamicFile _) | OFuture _ (IDynamicFileList _) =>
            abort IllFormed   (* [_is_df] is only set for a DataFuture *)
        | OFuture _ _ => Future.done f
        end
    end
  else ret true.

(** The first assignment is overwritten by the second, as in the
    source. *)
Definition set (self : ref) (file_obj : ref) : M unit :=
  do o <- lookup_obj file_obj;
  if negb (is_File o || is_DataFuture o || is_DynamicFile o) then raise TypeError
  else
    do _ <- (if is_DynamicFile o then
               do fa <- get_dyn file_obj;
               upd_dyn self (with_dyn_file_obj (dyn_file_obj fa))
             else ret tt);
    do _ <- upd_dyn self (with_dyn_file_obj (Some file_obj));
    do _ <- upd_dyn self (with_empty false);
    do _ <- upd_dyn self (with_is_df (is_DataFuture o));
    do a <- get_dyn self;
    do pa <- get_list (dyn_parent a);
    do name <- getattr_filename file_obj;
    add_done_func (dyn_parent a) name self.

(** The call of [DataFuture] passes no [dfk]. *)
Definition convert_to_df (self : ref) : M unit :=
  do a <- get_dyn self;
  if _is_df a then ret tt
  else
    do pa <- get_list (dyn_parent a);
    do d <- DataFuture.__init__ D (dyn_parent a) (dyn_file_obj a) None
              (_output_task_id pa) None;
    do _ <- upd_dyn self (with_dyn_file_obj (Some d));
    upd_dyn self (with_is_df true).

Definition cancel (self : ref) : M bool := raise NotImplementedError.

Definition cancelled (self : ref) : M bool := ret false.
End Methods.
End DynamicFile.

Section Methods.
Variable D : dispatcher.

Definition parent_callback (self parent_fu : ref) : M unit :=
  do e <- DynamicFile.exception_of parent_fu;
  match e with
  | Some e => Future.set_exception D self e
  | None =>
      do a <- get_list self;
      match parent a with
      | None => raise AttributeError
      | Some p =>
          do _ <- setattr_outputs p self;
          Future.set_result D self (Some self)
      end
  end.

Definition wrap (self : ref) (file_obj : option ref) : M ref :=
  DynamicFile.__init__ D self file_obj.

(** The live iteration [for cb in self._sub_callbacks: cb()]. *)
Fixpoint _call_callbacks_from (n : nat) (self : ref) (i : nat) : M unit :=
  do a <- get_list self;
  match _sub_callbacks a !! i with
  | None => ret tt
  | Some cb =>
      match n with
      | O => abort OutOfFuel
      | S n' => do _ <- refresh D cb; _call_callbacks_from n' self (S i)
      end
  end.

Definition _call_callbacks (self : ref) : M unit :=
  do a <- get_list self;
  if _in_callback a then ret tt
  else
    do _ <- upd_list self (with_in_callback true);
    do _ <- _call_callbacks_from (length (_sub_callbacks a)) self 0;
    upd_list self (with_in_callback false).

Definition _expand (self : ref) (idx : Z) : M unit :=
  do a <- get_list self;
  for_each (py_range 0 (idx - Z.of_nat (length (items a)) + 1))
    (fun _ => do w <- wrap self None;
              upd_list self (fun a => with_items (items a ++ [w]) a)).

(** [self[key]] for an integer [key]: the [else] branch of
    [__getitem__], which is the one the methods of the class reach. *)
Definition _getitem_int (self : ref) (key : Z) : M ref :=
  do a <- get_list self;
  do _ <- (if Z.of_nat (length (items a)) <=? key then _expand self key else ret tt);
  do a <- get_list self;
  list_getitem (items a) key.

Definition stage_file (self : ref) (idx : Z) : M unit :=
  do a <- get_list self;
  match dataflow a with
  | None => ret tt
  | Some dfk =>
      do out_file <- _getitem_int self idx;
      do oa <- get_dyn out_file;
      if _empty oa || _staged_out oa then ret tt
      else
        do a <- get_list self;
        match parent a with
        | None => ret tt
        | Some p =>
            if negb (_is_df oa) then ret tt
            else
              do _ <-
                (if _staging_inhibited a then ret tt
                 else
                   do d <- match dyn_file_obj oa with
                           | Some d => ret d
                           | None => raise AttributeError
                           end;
                   do da <- get_data d;
                   do f_copy <- cleancopy (df_file_obj da);
                   do s <- _getitem_int self idx;
                   do sa <- get_dyn s;
                   do d1 <- match dyn_file_obj sa with
                            | Some d => ret d
                            | None => raise AttributeError
                            end;
                   do _ <- upd_data d1 (with_df_file_obj f_copy);
                   do stageout_fut <- stage_out dfk self idx s f_copy (executor a) p;
                   do _ <- match stageout_fut with
                           | Some sf =>
                               do _ <- upd_data d1 (with_df_parent sf);
                               do t <- getattr_tid p;
                               upd_data d1 (with_df_tid t)
                           | None => ret tt
                           end;
                   emit (EvReplaceTaskStageOut self f_copy (_output_task_id a)));
              do _ <- setattr_outputs p self;
              _call_callbacks self
        end
  end.

Definition set_dataflow (self : ref) (dfk : DataFlowKernel) (exec : string)
    (st_inhibited : bool) (task_id : Z) (rec : nat) : M unit :=
  do _ <- upd_list self
            (with_dataflow exec (Some dfk) st_inhibited (Some task_id) (Some rec));
  do a <- get_list self;
  for_each (py_range 0 (_last_idx a + 1)) (fun idx => stage_file self idx).

Definition set_parent (self : ref) (fut : ref) : M unit :=
  do a <- get_list self;
  match parent a with
  | Some _ => raise ValueError
  | None =>
      do _ <- upd_list self (with_parent (Some fut));
      do _ <- Future.add_done_callback D fut (CbDynamicFileList self);
      do a <- get_list self;
      do _ <- for_each (py_range 0 (_last_idx a + 1))
                (fun idx => do s <- _getitem_int self idx;
                            do _ <- DynamicFile.convert_to_df D s;
                            stage_file self idx);
      _call_callbacks self
  end.

Definition cancel (self : ref) : M bool := raise NotImplementedError.

Definition cancelled (self : ref) : M bool := ret false.

Definition result (self : ref) (timeout : option nat) : M ref := ret self.

(** [for element in self.files_done.values(): ...] *)
Fixpoint done_loop (elements : list ref) : M bool :=
  match elements with
  | [] => ret true
  | element :: rest =>
      do b <- DynamicFile.done element;
      if b then done_loop rest else ret false
  end.

Definition done (self : ref) : M bool :=
  do a <- get_list self; done_loop (map snd (files_done a)).

(** The normalisation shared by [append], [insert] and the loop of
    [extend]: a bare [File] becomes a [DataFuture] when a parent is
    attached, and what is no wrapper yet is wrapped. *)
Definition normalise (self : ref) (object : ref) : M ref :=
  do o <- lookup_obj object;
  if is_DynamicFile o then ret object
  else
    do a <- get_list self;
    do object <- match parent a with
                 | Some p =>
                     if is_File o then
                       DataFuture.__init__ D p (Some object) None
                         (_output_task_id a) None
                     else ret object
                 | None => ret object
                 end;
    wrap self (Some object).

Definition typecheck_value (object : ref) : M unit :=
  do o <- lookup_obj object;
  if is_File o || is_DataFuture o || is_DynamicFile o then ret tt
  else raise TypeError.

Definition append (self : ref) (object : ref) : M unit :=
  do _ <- typecheck_value object;
  do object <- normalise self object;
  do a <- get_list self;
  do _ <- (if _last_idx a =? Z.of_nat (length (items a)) - 1 then
             upd_list self (fun a => with_items (items a ++ [object]) a)
           else
             do s <- list_getitem (items a) (_last_idx a + 1);
             DynamicFile.set s object);
  do a <- get_list self;
  do s <- list_getitem (items a) (_last_idx a + 1);
  do name <- getattr_filename object;
  do _ <- add_done_func self name s;
  do _ <- upd_list self (fun a => with_last_idx (_last_idx a + 1) a);
  do a <- get_list self;
  do _ <- stage_file self (_last_idx a);
  _call_callbacks self.

(** The first loop of [extend]. *)
Fixpoint extend_collect (self : ref) (iterable : list ref) (acc : list ref)
  : M (list ref) :=
  match iterable with
  | [] => ret acc
  | f :: rest =>
      do o <- lookup_obj f;
      if negb (is_DynamicFile o || is_File o || is_DataFuture o) then raise ValueError
      else
        do f <- normalise self f;
        do name <- getattr_filename f;
        do _ <- add_done_func self name f;
        extend_collect self rest (acc ++ [f])
  end.

Definition extend (self : ref) (iterable : list ref) : M unit :=
  do new <- extend_collect self iterable [];
  do a <- get_list self;
  if _last_idx a =? Z.of_nat (length (items a)) - 1 then
    do _ <- upd_list self (fun a => with_items (items a ++ new) a);
    do _ <- for_each new
              (fun _ => do _ <- upd_list self (fun a => with_last_idx (_last_idx a + 1) a);
                        do a <- get_list self;
                        stage_file self (_last_idx a));
    _call_callbacks self
  else
    let diff := Z.of_nat (length (items a)) - 1 - _last_idx a - Z.of_nat (length new) in
    do _ <- (if diff <? 0 then
               do w <- wrap self None;
               upd_list self
                 (fun a => with_items (items a ++ replicate (Z.abs_nat diff) w) a)
             else ret tt);
    do _ <- for_each new
              (fun item =>
                 do _ <- upd_list self (fun a => with_last_idx (_last_idx a + 1) a);
                 do a <- get_list self;
                 do s <- _getitem_int self (_last_idx a);
                 do _ <- DynamicFile.set s item;
                 do a <- get_list self;
                 do s <- list_getitem (items a) (_last_idx a);
                 do name <- getattr_filename item;
                 do _ <- add_done_func self name s;
                 do a <- get_list self;
                 stage_file self (_last_idx a));
    _call_callbacks self.

Definition __init__ (files : option (list ref)) : M ref :=
  do _ <- match files with
          | Some fs => for_each fs typecheck_value
          | None => ret tt
          end;
  do self <- alloc (OFuture Future.__init__
                      (IDynamicFileList
                         (mkList [] [] (-1) EmptyString None None [] false false
                            None None None false)));
  do _ <- match files with
          | Some fs => extend self fs
          | None => ret tt
          end;
  ret self.

Definition insert (self : ref) (index : Z) (object : ref) : M unit :=
  do a <- get_list self;
  if _last_idx a <? index then raise ValueError
  else
    do object <- normalise self object;
    do name <- getattr_filename object;
    do _ <- add_done_func self name object;
    do _ <- upd_list self (fun a => with_items (list_insert_at (items a) index object) a);
    do _ <- stage_file self index;
    do _ <- upd_list self (fun a => with_last_idx (_last_idx a + 1) a);
    _call_callbacks self.

Definition remove (self : ref) (value : ref) : M unit :=
  do name <- getattr_filename value;
  do a <- get_list self;
  do fd <- dict_delitem name (files_done a);
  do _ <- upd_list self (with_files_done fd);
  do a <- get_list self;
  match list_remove value (items a) with
  | None => raise ValueError
  | Some l =>
      do _ <- upd_list self (with_items l);
      do _ <- upd_list self (fun a => with_last_idx (_last_idx a - 1) a);
      _call_callbacks self
  end.

Definition pop (self : ref) (index : Z) : M (option ref) :=
  do a <- get_list self;
  do value <-
    (if index =? -1 then
       do '(v, l) <- list_pop (items a) (_last_idx a);
       do _ <- upd_list self (with_items l); ret v
     else if index <=? _last_idx a then
       do '(v, l) <- list_pop (items a) index;
       do _ <- upd_list self (with_items l); ret v
     else raise IndexError);
  do name <- getattr_filename value;
  do a <- get_list self;
  do fd <- dict_delitem name (files_done a);
  do _ <- upd_list self (with_files_done fd);
  do _ <- upd_list self (fun a => with_last_idx (_last_idx a - 1) a);
  do _ <- _call_callbacks self;
  do va <- get_dyn value;
  ret (dyn_file_obj va).

Definition clear (self : ref) : M unit :=
  do _ <- upd_list self (with_files_done []);
  do _ <- upd_list self (with_last_idx (-1));
  do _ <- upd_list self (with_items []);
  upd_list self (with_sub_callbacks []).

Definition __setitem__ (self : ref) (key : Z) (value : ref) : M unit :=
  do _ <- typecheck_value value;
  do s <- _getitem_int self key;
  do name <- getattr_filename s;
  do a <- get_list self;
  do _ <- (if dict_mem name (files_done a) then
             do s <- _getitem_int self key;
             do name <- getattr_filename s;
             do a <- get_list self;
             do fd <- dict_delitem name (files_done a);
             upd_list self (with_files_done fd)
           else ret tt);
  do a <- get_list self;
  do s <- list_getitem (items a) key;
  do e <- DynamicFile.empty s;
  if e then
    do vo <- lookup_obj value;
    do value <- match parent a with
                | Some p =>
                    if is_File vo then
                      DataFuture.__init__ D p (Some value) None (_output_task_id a) None
                    else ret value
                | None => ret value
                end;
    do _ <- DynamicFile.set s value;
    do a <- get_list self;
    do s <- list_getitem (items a) key;
    do name <- getattr_filename s;
    do _ <- add_done_func self name s;
    do _ <- upd_list self (fun a => with_last_idx (Z.max (_last_idx a) key) a);
    do _ <- _call_callbacks self;
    stage_file self key
  else raise ValueError.

Definition get_update (self : ref) (key : pyslice) : M (list ref) :=
  do a <- get_list self; list_getslice (items a) key.

Definition __delitem__ (self : ref) (key : Z) : M unit := raise Exception.
End Methods.

(** *** DynamicFileSubList

    The subclass is placed here because [__getitem__] builds views. *)
Module DynamicFileSubList.
Section Methods.
Variable D : dispatcher.

Definition __init__ (key : pyslice) (files : option (list ref)) (parent : ref)
  : M ref :=
  do po <- lookup_obj parent;
  if negb (is_DynamicFileList po) then raise TypeError
  else
    do _ <- match files with
            | Some fs =>
                for_each fs
                  (fun f => do b <- isinstance is_DynamicFile f;
                            if b then ret tt else raise TypeError)
            | None => ret tt
            end;
    do self <- DynamicFileList.__init__ D files;
    do _ <- upd_list self
              (with_slice (Some parent) (Some key)
                 (negb (is_none (sl_stop key)) && negb (is_none (sl_start key))));
    ret self.

Definition callback (self : ref) : M unit :=
  do _ <- clear self;
  do a <- get_list self;
  match parent a, slice a with
  | Some p, Some s =>
      do fs <- get_update p s;
      extend D self fs
  | _, _ => raise AttributeError
  end.
End Methods.
End DynamicFileSubList.

Section Indexing.
Variable D : dispatcher.

(** [self[key]] for a slice [key]: the list is first grown with appended
    empty wrappers, then a view is built and registered. *)
Definition _getitem_slice (self : ref) (key : pyslice) : M ref :=
  do a <- get_list self;
  do _ <- match sl_start key with
          | None => ret tt
          | Some start =>
              if Z.of_nat (length (items a)) <=? start then
                for_each (py_range (Z.of_nat (length (items a))) (start + 1))
                  (fun _ => do w <- wrap D self None; append D self w)
              else ret tt
          end;
  do a <- get_list self;
  do _ <- match sl_stop key with
          | None => ret tt
          | Some stop =>
              if Z.of_nat (length (items a)) <? stop then
                for_each (py_range (Z.of_nat (length (items a))) stop)
                  (fun _ => do w <- wrap D self None; append D self w)
              else ret tt
          end;
  do a <- get_list self;
  do fs <- list_getslice (items a) key;
  do view <- DynamicFileSubList.__init__ D key (Some fs) self;
  do _ <- upd_list self (fun a => with_sub_callbacks (_sub_callbacks a ++ [view]) a);
  ret view.
End Indexing.
End DynamicFileList.

(** An index is an integer or a slice. *)
Inductive pykey := KInt (k : Z) | KSlice (s : pyslice).

(** ** Tying the callbacks to the methods

    [dispatch n] runs callbacks nested at most [n] deep. *)
Fixpoint dispatch (fuel : nat) : dispatcher :=
  match fuel with
  | O => mkDispatcher (fun _ _ => abort OutOfFuel) (fun _ => abort OutOfFuel)
  | S n =>
      mkDispatcher
        (fun cb parent_fu =>
           match cb with
           | CbDataFuture r => DataFuture.parent_callback (dispatch n) r parent_fu
           | CbDynamicFile r =>
               DynamicFileList.DynamicFile.parent_callback (dispatch n) r parent_fu
           | CbDynamicFileList r =>
               DynamicFileList.parent_callback (dispatch n) r parent_fu
           end)
        (fun view => DynamicFileList.DynamicFileSubList.callback (dispatch n) view)
  end.

Definition __getitem__ (D : dispatcher) (self : ref) (key : pykey) : M ref :=
  match key with
  | KSlice s => DynamicFileList._getitem_slice D self s
  | KInt k => DynamicFileList._getitem_int D self k
  end.

(** ** Worlds built by running the program

    Objects handed in from outside the two modules: artifacts and the
    future of a producing task. *)
Definition new_File (path name : string) : M ref :=
  alloc (OFile (mkFile path name None)).

Definition new_AppFuture (tid : Z) (record : nat) : M ref :=
  alloc (OFuture Future.__init__ (IAppFuture (mkAppFuture tid record))).

Definition empty_world : world := mkWorld [] [] 0.

Definition world_after {A} (m : M A) : world := fst (m empty_world).

Definition the_dfk : DataFlowKernel := mkDfk 1 false.

(** Callbacks nest three deep at most in the scenarios below. *)
Definition D3 : dispatcher := dispatch 3.

(** A list holding two outputs A and B that wrap futures of the task T:
    the list is 0, T is 1, the artifacts 2 and 3, their futures 4 and 5,
    their slots 6 and 7. *)
Definition scenario_AB : M unit :=
  do l <- DynamicFileList.__init__ D3 None;
  do T <- new_AppFuture 3 7;
  do fa <- new_File "a" "a";
  do fb <- new_File "b" "b";
  do A <- DataFuture.__init__ D3 T (Some fa) (Some the_dfk) (Some 3) None;
  do B <- DataFuture.__init__ D3 T (Some fb) (Some the_dfk) (Some 3) None;
  do _ <- DynamicFileList.set_parent D3 l T;
  do _ <- DynamicFileList.append D3 l A;
  DynamicFileList.append D3 l B.

Definition world_AB : world := Eval vm_compute in world_after scenario_AB.

(** The producing task then fails with [TaskError 1]. *)
Definition world_AB_failed : world :=
  Eval vm_compute in fst (Future.set_exception D3 1%nat (TaskError 1) world_AB).

(** The object that [wrap(None)] builds for the list [self]: an empty
    wrapper, pending, that wraps nothing. *)
Definition empty_wrapper (self : ref) : obj :=
  OFuture Future.__init__ (IDynamicFile (mkDynamicFile false self None true false)).

(** Attributes of the list, the wrapper or the future stored at [r]. *)
Definition list_at (w : world) (r : ref) : option DynamicFileList_attrs :=
  match heap w !! r with
  | Some (OFuture _ (IDynamicFileList a)) => Some a
  | _ => None
  end.

Definition wrapper_at (w : world) (r : ref) : option DynamicFile_attrs :=
  match heap w !! r with
  | Some (OFuture _ (IDynamicFile a)) => Some a
  | _ => None
  end.

Definition future_at (w : world) (r : ref) : option Future_attrs :=
  match heap w !! r with
  | Some (OFuture b _) => Some b
  | _ => None
  end.

(** Number of [stage_out] calls made for the wrapper [slot]. *)
Fixpoint stage_out_count (slot : ref) (l : list event) : nat :=
  match l with
  | [] => 0%nat
  | EvStageOut _ _ s _ _ _ :: l' =>
      ((if Nat.eqb s slot then 1 else 0) + stage_out_count slot l')%nat
  | _ :: l' => stage_out_count slot l'
  end.

(** A slot that wraps a future is appended after the task future has been
    attached; the staging context is then set twice. The list is 0, the
    task future 1, the artifact 2, its future 3 and its slot 4. *)
Definition scenario_restage : M unit :=
  do l <- DynamicFileList.__init__ D3 None;
  do T <- new_AppFuture 3 7;
  do f <- new_File "a" "a";
  do A <- DataFuture.__init__ D3 T (Some f) (Some the_dfk) (Some 3) None;
  do _ <- DynamicFileList.set_parent D3 l T;
  do _ <- DynamicFileList.append D3 l A;
  do _ <- DynamicFileList.set_dataflow D3 l the_dfk "exec" false 3 7;
  DynamicFileList.set_dataflow D3 l the_dfk "exec" false 3 7.

(** Task future and staging context are attached once each; A is
    appended (slot 6), then B is inserted at index -1 (slot 8). *)
Definition scenario_insert : M unit :=
  do l <- DynamicFileList.__init__ D3 None;
  do T <- new_AppFuture 3 7;
  do fa <- new_File "a" "a";
  do fb <- new_File "b" "b";
  do A <- DataFuture.__init__ D3 T (Some fa) (Some the_dfk) (Some 3) None;
  do B <- DataFuture.__init__ D3 T (Some fb) (Some the_dfk) (Some 3) None;
  do _ <- DynamicFileList.set_parent D3 l T;
  do _ <- DynamicFileList.set_dataflow D3 l the_dfk "exec" false 3 7;
  do _ <- DynamicFileList.append D3 l A;
  DynamicFileList.insert D3 l (-1) B.

(** [append(File)] on a list without task future, then [set_parent(T)]:
    the list is 0, the artifact 1, the task future 2, the slot 3. *)
Definition scenario_promote : M unit :=
  do l <- DynamicFileList.__init__ D3 None;
  do f <- new_File "a" "a";
  do T <- new_AppFuture 3 7;
  do _ <- DynamicFileList.append D3 l f;
  DynamicFileList.set_parent D3 l T.

(** [l[0] = File] on a list with the task future attached: the list is 0,
    the task future 1, the artifact 2, the slot created by the read 3. *)
Definition scenario_write : M unit :=
  do l <- DynamicFileList.__init__ D3 None;
  do T <- new_AppFuture 3 7;
  do f <- new_File "a" "a";
  do _ <- DynamicFileList.set_parent D3 l T;
  DynamicFileList.__setitem__ D3 l 0 f.

(** A view over [l[0:-1]] of a list with one element: the list is 0, the
    artifacts 1 and 2, the slot of the first 3, the view 4. *)
Definition scenario_view : M unit :=
  do l <- DynamicFileList.__init__ D3 None;
  do fa <- new_File "a" "a";
  do fb <- new_File "b" "b";
  do _ <- DynamicFileList.append D3 l fa;
  do _ <- __getitem__ D3 l (KSlice (mkSlice (Some 0) (Some (-1)) None));
  ret tt.

(** A view over [l[1:]] of a list whose three slots were created by the
    read [l[2]]: the list is 0, the artifact 1, the slots 2, 3 and 4, the
    view 5. *)
Definition scenario_open_view : M unit :=
  do l <- DynamicFileList.__init__ D3 None;
  do fa <- new_File "a" "a";
  do _ <- __getitem__ D3 l (KInt 2);
  do _ <- __getitem__ D3 l (KSlice (mkSlice (Some 1) None None));
  ret tt.

Definition world_fresh_list : world :=
  Eval vm_compute in world_after (DynamicFileList.__init__ D3 None).

Definition world_view : world := Eval vm_compute in world_after scenario_view.

Definition world_open_view : world := Eval vm_compute in world_after scenario_open_view.

(** A view over [l[0:]] of a list with one element: the list is 0, the
    artifacts 1 and 2, the slot of the first 3, the view 4. *)
Definition scenario_tracking_view : M unit :=
  do l <- DynamicFileList.__init__ D3 None;
  do fa <- new_File "a" "a";
  do fb <- new_File "b" "b";
  do _ <- DynamicFileList.append D3 l fa;
  do _ <- __getitem__ D3 l (KSlice (mkSlice (Some 0) None None));
  ret tt.

Definition world_tracking_view : world :=
  Eval vm_compute in world_after scenario_tracking_view.

(** The world in which [append] of the second artifact to that list calls
    the refresh of the view: the list holds the new slot 5, the view does
    not yet. *)
Definition world_stale_view : world :=
  Eval vm_compute in
    fst (DynamicFileList.append (dispatch 0) 0%nat 2%nat world_tracking_view).

(** The read [l[0]] on an empty list creates the placeholder 1, and
    [l[0:]] the view 2 over it. *)
Definition scenario_placeholder_view : M unit :=
  do l <- DynamicFileList.__init__ D3 None;
  do _ <- __getitem__ D3 l (KInt 0);
  do _ <- __getitem__ D3 l (KSlice (mkSlice (Some 0) None None));
  ret tt.

Definition world_placeholder_view : world :=
  Eval vm_compute in world_after scenario_placeholder_view.

(** The world in which the read [l[1:2]] then calls the refresh of the
    view: the read has appended the empty wrapper 3, which has gone into
    the placeholder 1. *)
Definition world_unnamed_slot : world :=
  Eval vm_compute in
    fst (__getitem__ (dispatch 0) 0%nat (KSlice (mkSlice (Some 1) (Some 2) None))
           world_placeholder_view).

(** ** Predicates used in the proofs *)

(** Reading never changes the world. *)
Definition read_only {A} (m : M A) : Prop := forall w w' o, m w = (w', o) -> w' = w.

(** [pres R m]: every run of [m] relates the world before to the world
    after by [R], whatever the outcome. *)
Definition pres (R : relation world) {A} (m : M A) : Prop :=
  forall w w' o, m w = (w', o) -> R w w'.

(** A step of the store that leaves the attributes of every list as they
    are; those of the base class [Future] may change. *)
Definition lists_kept : relation world := fun w w' =>
  forall y b a, heap w !! y = Some (OFuture b (IDynamicFileList a)) ->
                exists b', heap w' !! y = Some (OFuture b' (IDynamicFileList a)).

(** The list [v] has no view registered on it. *)
Definition no_views (w : world) (v : ref) : Prop :=
  exists b a, heap w !! v = Some (OFuture b (IDynamicFileList a))
              /\ _sub_callbacks a = [].

(** [a'] is [a] up to the completion-predicate map. *)
Definition same_core (a a' : DynamicFileList_attrs) : Prop :=
  a' = with_files_done (files_done a') a.

(** As long as [v] has no views, it keeps having none, and every other
    list keeps its attributes up to its completion-predicate map. *)
Definition others_kept (v : ref) : relation world := fun w w' =>
  no_views w v ->
  no_views w' v
  /\ forall y b a, y <> v ->
       heap w !! y = Some (OFuture b (IDynamicFileList a)) ->
       exists b' a', heap w' !! y = Some (OFuture b' (IDynamicFileList a'))
                     /\ same_core a a'.

(** [a'] is [a] up to the completion-predicate map and the dispatch guard. *)
Definition same_shape (a a' : DynamicFileList_attrs) : Prop :=
  a' = with_in_callback (_in_callback a') (with_files_done (files_done a') a).

(** A wrapper that has a name: [x.filename] returns. *)
Definition named_wrapper (w : world) (f : ref) : Prop :=
  (is_DynamicFile <$> heap w !! f) = Some true
  /\ exists k, snd (getattr_filename f w) = Ret k.

(** ** Shapes of the store while a failure propagates *)


(** The future at [r] is pending, or has failed with [e]. *)
Definition pending (w : world) (r : ref) : Prop :=
  exists b, future_at w r = Some b /\ _state b <> FINISHED.

Definition failed (w : world) (r : ref) (e : exn) : Prop :=
  exists b, future_at w r = Some b /\ _state b = FINISHED /\ _exception b = Some e.

(** The outcome is a return or a Python exception: the model did not stop. *)
Definition completes {A} (o : outcome A) : Prop :=
  match o with Abort _ => False | _ => True end.

Definition no_callbacks (b : Future_attrs) : bool :=
  match _done_callbacks b with [] => true | _ :: _ => false end.

(** What the callback of the wrapper [s] reads is in the store: the list
    of the wrapper and what it wraps, down to the artifact of a wrapped
    future; nothing is registered on the wrapper itself. *)
Definition wrapper_ready (w : world) (s : ref) : bool :=
  match heap w !! s with
  | Some (OFuture b (IDynamicFile a)) =>
      no_callbacks b
      && match heap w !! dyn_parent a with Some _ => true | None => false end
      && match dyn_file_obj a with
         | None => true
         | Some r =>
             match heap w !! r with
             | None => false
             | Some (OFuture _ (IDataFuture d)) =>
                 match heap w !! df_file_obj d with
                 | Some (OFile _) => true
                 | _ => false
                 end
             | Some _ => true
             end
         end
  | _ => false
  end.

(** The callbacks registered on a task future, as the program registers
    them: futures of artifacts, on which nothing is registered, and lists,
    on which their wrappers are registered. *)
Definition callback_ready (w : world) (cb : callback) : bool :=
  match cb with
  | CbDataFuture d =>
      match heap w !! d with
      | Some (OFuture b (IDataFuture _)) => no_callbacks b
      | _ => false
      end
  | CbDynamicFileList l =>
      match heap w !! l with
      | Some (OFuture b (IDynamicFileList _)) =>
          forallb (fun cb => match cb with
                             | CbDynamicFile s => wrapper_ready w s
                             | _ => false
                             end) (_done_callbacks b)
      | _ => false
      end
  | CbDynamicFile _ => false
  end.

(** A step of the store while the failure [E] propagates: no object is
    added or changes its class or attributes, no callback is registered;
    a future other than a wrapper keeps its state, or was pending and has
    now failed with [E]. *)
Definition settles (E : exn) : relation world := fun w w' =>
  length (heap w') = length (heap w)
  /\ forall r o, heap w !! r = Some o ->
       match o with
       | OFile _ => exists f', heap w' !! r = Some (OFile f')
       | OFuture b i =>
           exists b', heap w' !! r = Some (OFuture b' i)
                      /\ _done_callbacks b' = _done_callbacks b
                      /\ (is_DynamicFile o = true
                          \/ (_state b' = _state b /\ _exception b' = _exception b)
                          \/ (_state b <> FINISHED /\ _state b' = FINISHED
                              /\ _exception b' = Some E))
       end.

(** What [x.timestamp = v] needs to find. *)
Definition file_ready (w : world) (x : option ref) : bool :=
  match x with
  | None => true
  | Some r =>
      match heap w !! r with
      | None => false
      | Some (OFuture _ (IDataFuture d)) =>
          match heap w !! df_file_obj d with
          | Some (OFile _) => true
          | _ => false
          end
      | Some _ => true
      end
  end.

(** The object a callback resolves. *)
Definition target (cb : callback) : ref :=
  match cb with CbDataFuture r | CbDynamicFile r | CbDynamicFileList r => r end.

(** ** Staging: what it reads and what it submits *)

(** The future wrapped by a slot with attributes [sa] is in the store
    together with its artifact; nothing is asked of a slot that wraps no
    future. *)
Definition future_readable (w : world) (sa : DynamicFile_attrs) : bool :=
  if _is_df sa then
    match dyn_file_obj sa with
    | Some d =>
        match heap w !! d with
        | Some (OFuture _ (IDataFuture da)) =>
            match heap w !! df_file_obj da with
            | Some (OFile _) => true
            | _ => false
            end
        | _ => false
        end
    | None => false
    end
  else true.

(** What [stage_file] reads for a slot of the list with attributes [a] is
    in the store: the task future, when one is attached, and the wrapped
    future. *)
Definition stageable (w : world) (a : DynamicFileList_attrs) (sa : DynamicFile_attrs)
  : bool :=
  match parent a with
  | None => true
  | Some p =>
      match heap w !! p with
      | Some (OFuture _ (IAppFuture _)) => true
      | _ => false
      end
  end
  && future_readable w sa.

(** The conditions under which [stage_file] goes on to the data manager. *)
Definition staging_due (a : DynamicFileList_attrs) (sa : DynamicFile_attrs) : bool :=
  negb (is_none (dataflow a)) && negb (_empty sa) && negb (_staged_out sa)
  && negb (is_none (parent a)) && _is_df sa && negb (_staging_inhibited a).

(** No slot of the list is due: the staging context or the producing
    task is missing. *)
Definition staging_due_never (a : DynamicFileList_attrs) : bool :=
  is_none (dataflow a) || is_none (parent a).

(** The two calls that [stage_file] makes to the data manager for the
    slot [s] at index [idx], with [copy] the clean copy of the artifact. *)
Definition staging_events (self : ref) (idx : Z) (s copy : ref)
    (a : DynamicFileList_attrs) : list event :=
  match parent a with
  | Some p => [EvStageOut self idx s copy (executor a) p;
               EvReplaceTaskStageOut self copy (_output_task_id a)]
  | None => []
  end.

(** Index and slot of the stage-outs submitted so far, oldest first. *)
Definition stage_out_slots (lg : list event) : list (Z * ref) :=
  omap (fun e => match e with
                 | EvStageOut _ idx s _ _ _ => Some (idx, s)
                 | _ => None
                 end) lg.

(** The slot at index [idx >= 0] of a list with attributes [a], with its
    attributes as a wrapper. *)
Definition slot_at (w : world) (a : DynamicFileList_attrs) (idx : Z)
  : option (ref * DynamicFile_attrs) :=
  if idx <? 0 then None else
  match items a !! Z.to_nat idx with
  | Some s => match wrapper_at w s with
              | Some sa => Some (s, sa)
              | None => None
              end
  | None => None
  end.

(** The slots among the indices [idxs] that are due for staging. *)
Definition due_slots (w : world) (a : DynamicFileList_attrs) (idxs : list Z)
  : list (Z * ref) :=
  omap (fun idx => match slot_at w a idx with
                   | Some (s, sa) => if staging_due a sa then Some (idx, s) else None
                   | None => None
                   end) idxs.

(** Every slot at the indices [idxs] is in the store with what staging
    reads. *)
Definition slots_stageable (w : world) (a : DynamicFileList_attrs) (idxs : list Z)
  : bool :=
  forallb (fun idx => match slot_at w a idx with
                      | Some (_, sa) => stageable w a sa
                      | None => false
                      end) idxs.

(** Every slot at the indices [idxs] wraps a future. *)
Definition future_slots (w : world) (a : DynamicFileList_attrs) (idxs : list Z)
  : bool :=
  forallb (fun idx => match slot_at w a idx with
                      | Some (_, sa) => _is_df sa
                      | None => false
                      end) idxs.

(** What a run of [stage_file] leaves alone: every wrapper, the
    readability of wrapped futures, and every task future up to its
    [_outputs]. *)
Definition staging_frame (w w' : world) : Prop :=
  (forall s bs sa,
     heap w !! s = Some (OFuture bs (IDynamicFile sa)) ->
     heap w' !! s = Some (OFuture bs (IDynamicFile sa)))
  /\ (forall sa, future_readable w sa = true -> future_readable w' sa = true)
  /\ (forall T bT aT,
        heap w !! T = Some (OFuture bT (IAppFuture aT)) ->
        exists bT', heap w' !! T = Some (OFuture bT' (IAppFuture aT))
                    /\ _done_callbacks bT' = _done_callbacks bT
                    /\ _state bT' = _state bT).

(** ** Views *)

(** The attributes of a view built by [self[key]] over the slots [fs] of
    the list [l]: a list of its own with these slots, all of them below
    its high-water mark, that remembers the list, the slice and whether
    both bounds of the slice are given. *)
Definition view_attrs (l : ref) (s : pyslice) (fs : list ref)
    (fd : list (key * ref)) : DynamicFileList_attrs :=
  mkList fs fd (Z.of_nat (length fs) - 1) EmptyString (Some l) None [] false false
    None None (Some s)
    (negb (is_none (sl_stop s)) && negb (is_none (sl_start s))).

(** The bounds of the slice lie inside a list of [n] elements, so that
    [self[key]] does not grow the list. *)
Definition slice_within (s : pyslice) (n : nat) : bool :=
  match sl_start s with Some st => st <? Z.of_nat n | None => true end
  && match sl_stop s with Some sp => sp <=? Z.of_nat n | None => true end.

(** ** Further worlds built by running the program *)

(** The world of [scenario_restage]: the slot 4 of the list 0 has been
    staged twice, the clean copies of the artifact are 5 and 6. *)
Definition world_restaged : world := Eval vm_compute in world_after scenario_restage.

(** The staging context is set before the slot is appended and no task
    future is attached: the list is 0, the task future 1, the artifact 2,
    its future 3 and its slot 4. *)
Definition scenario_context_first : M unit :=
  do l <- DynamicFileList.__init__ D3 None;
  do T <- new_AppFuture 3 7;
  do f <- new_File "a" "a";
  do A <- DataFuture.__init__ D3 T (Some f) (Some the_dfk) (Some 3) None;
  do _ <- DynamicFileList.set_dataflow D3 l the_dfk "exec" false 3 7;
  DynamicFileList.append D3 l A.

Definition world_context_first : world :=
  Eval vm_compute in world_after scenario_context_first.

(** A list with neither task future nor staging context that holds one
    future: the list is 0, the task future 1, the artifact 2, its future 3
    and its slot 4. *)
Definition scenario_unattached : M unit :=
  do l <- DynamicFileList.__init__ D3 None;
  do T <- new_AppFuture 3 7;
  do f <- new_File "a" "a";
  do A <- DataFuture.__init__ D3 T (Some f) (Some the_dfk) (Some 3) None;
  DynamicFileList.append D3 l A.

Definition world_unattached : world := Eval vm_compute in world_after scenario_unattached.

(** An empty list 0 and an artifact 1. *)
Definition scenario_list_file : M unit :=
  do l <- DynamicFileList.__init__ D3 None;
  do f <- new_File "a" "a";
  ret tt.

Definition world_list_file : world := Eval vm_compute in world_after scenario_list_file.

(** The read [l[1]] on the empty list 0 creates the placeholders 2 and 3;
    the artifact is 1. *)
Definition scenario_placeholders : M unit :=
  do l <- DynamicFileList.__init__ D3 None;
  do f <- new_File "a" "a";
  do _ <- __getitem__ D3 l (KInt 1);
  ret tt.

Definition world_placeholders : world :=
  Eval vm_compute in world_after scenario_placeholders.

(** The read [l[0]] on the empty list 0 creates the placeholder 4; the
    task future is 1, the artifact 2 and its future 3. *)
Definition scenario_placeholder_future : M unit :=
  do l <- DynamicFileList.__init__ D3 None;
  do T <- new_AppFuture 3 7;
  do f <- new_File "a" "a";
  do A <- DataFuture.__init__ D3 T (Some f) (Some the_dfk) (Some 3) None;
  do _ <- __getitem__ D3 l (KInt 0);
  ret tt.

Definition world_placeholder_future : world :=
  Eval vm_compute in world_after scenario_placeholder_future.


(** The task future of [world_restaged] has failed; the failure has
    reached the future 3 and the list 0, and the callbacks of the list
    have not run yet. *)
Definition world_restaged_failing : world :=
  Eval vm_compute in
    fst (Future.set_exception (dispatch 1) 1%nat (TaskError 1) world_restaged).

(** * Properties *)

(** ** Running computations *)

Lemma bind_Ret {A B} (m : M A) (k : A -> M B) w w' a :
  m w = (w', Ret a) -> bind m k w = k a w'.
Proof. intros H. unfold bind. rewrite H. reflexivity. Qed.

Lemma bind_Raise {A B} (m : M A) (k : A -> M B) w w' e :
  m w = (w', Raise e) -> bind m k w = (w', Raise e).
Proof. intros H. unfold bind. rewrite H. reflexivity. Qed.

Lemma bind_Abort {A B} (m : M A) (k : A -> M B) w w' s :
  m w = (w', Abort s) -> bind m k w = (w', Abort s).
Proof. intros H. unfold bind. rewrite H. reflexivity. Qed.

Lemma lookup_obj_Some w r o :
  heap w !! r = Some o -> lookup_obj r w = (w, Ret o).
Proof. intros H. unfold lookup_obj. rewrite H. reflexivity. Qed.

Lemma get_base_Some w r b i :
  heap w !! r = Some (OFuture b i) -> get_base r w = (w, Ret b).
Proof. intros H. unfold get_base. rewrite (bind_Ret _ _ _ _ _ (lookup_obj_Some _ _ _ H)). reflexivity. Qed.

Lemma get_list_Some w r b a :
  heap w !! r = Some (OFuture b (IDynamicFileList a)) -> get_list r w = (w, Ret a).
Proof. intros H. unfold get_list. rewrite (bind_Ret _ _ _ _ _ (lookup_obj_Some _ _ _ H)). reflexivity. Qed.

Lemma get_dyn_Some w r b a :
  heap w !! r = Some (OFuture b (IDynamicFile a)) -> get_dyn r w = (w, Ret a).
Proof. intros H. unfold get_dyn. rewrite (bind_Ret _ _ _ _ _ (lookup_obj_Some _ _ _ H)). reflexivity. Qed.

Lemma get_data_Some w r b a :
  heap w !! r = Some (OFuture b (IDataFuture a)) -> get_data r w = (w, Ret a).
Proof. intros H. unfold get_data. rewrite (bind_Ret _ _ _ _ _ (lookup_obj_Some _ _ _ H)). reflexivity. Qed.

Lemma upd_list_Some w r b a f :
  heap w !! r = Some (OFuture b (IDynamicFileList a)) ->
  upd_list r f w
  = (with_heap (<[r := OFuture b (IDynamicFileList (f a))]> (heap w)) w, Ret tt).
Proof. intros H. unfold upd_list. rewrite (bind_Ret _ _ _ _ _ (lookup_obj_Some _ _ _ H)). reflexivity. Qed.

Lemma upd_base_Some w r b i f :
  heap w !! r = Some (OFuture b i) ->
  upd_base r f w = (with_heap (<[r := OFuture (f b) i]> (heap w)) w, Ret tt).
Proof. intros H. unfold upd_base. rewrite (bind_Ret _ _ _ _ _ (lookup_obj_Some _ _ _ H)). reflexivity. Qed.

Lemma read_only_ret {A} (a : A) : read_only (ret a).
Proof. intros w w' o [= <- _]. reflexivity. Qed.

Lemma read_only_raise {A} e : read_only (@raise A e).
Proof. intros w w' o [= <- _]. reflexivity. Qed.

Lemma read_only_abort {A} s : read_only (@abort A s).
Proof. intros w w' o [= <- _]. reflexivity. Qed.

Lemma read_only_bind {A B} (m : M A) (k : A -> M B) :
  read_only m -> (forall a, read_only (k a)) -> read_only (bind m k).
Proof.
  intros Hm Hk w w' o. unfold bind.
  destruct (m w) as [w1 [a|e|s]] eqn:E; pose proof (Hm _ _ _ E) as ->.
  - apply Hk.
  - intros [= <- _]. reflexivity.
  - intros [= <- _]. reflexivity.
Qed.

Lemma read_only_lookup_obj r : read_only (lookup_obj r).
Proof. intros w w' o. unfold lookup_obj. destruct (heap w !! r); intros [= <- _]; reflexivity. Qed.

Ltac read_only_tac :=
  repeat first
    [ apply read_only_ret | apply read_only_raise | apply read_only_abort
    | apply read_only_lookup_obj
    | apply read_only_bind; [| intros ?]
    | match goal with
      | |- read_only (match ?x with _ => _ end) => destruct x
      end ].

Lemma read_only_get_base r : read_only (get_base r).
Proof. unfold get_base. read_only_tac. Qed.

Lemma read_only_get_dyn r : read_only (get_dyn r).
Proof. unfold get_dyn. read_only_tac. Qed.

Lemma read_only_get_list r : read_only (get_list r).
Proof. unfold get_list. read_only_tac. Qed.

Lemma read_only_Future_done r : read_only (Future.done r).
Proof. unfold Future.done. apply read_only_bind; [apply read_only_get_base | intros; apply read_only_ret]. Qed.

Lemma read_only_DynamicFile_done r : read_only (DynamicFileList.DynamicFile.done r).
Proof.
  unfold DynamicFileList.DynamicFile.done.
  apply read_only_bind; [apply read_only_get_dyn | intros a].
  destruct (_is_df a); [| apply read_only_ret].
  destruct (dyn_file_obj a); [| apply read_only_raise].
  apply read_only_bind; [apply read_only_lookup_obj | intros o].
  destruct o as [f | b []]; first [apply read_only_raise | apply read_only_abort | apply read_only_Future_done].
Qed.

Lemma read_only_filepath_chain n r : read_only (filepath_chain n r).
Proof.
  revert r. induction n as [| n IH]; intros r; simpl.
  - apply read_only_raise.
  - apply read_only_bind; [apply read_only_lookup_obj | intros o].
    destruct o as [f | b []]; try apply read_only_raise; try apply read_only_ret.
    + apply IH.
    + destruct (dyn_file_obj a); [apply IH | apply read_only_raise].
Qed.

Lemma read_only_getattr_filepath r : read_only (getattr_filepath r).
Proof. intros w w' o. unfold getattr_filepath. apply read_only_filepath_chain. Qed.

Lemma read_only_getattr_filename r : read_only (getattr_filename r).
Proof.
  unfold getattr_filename.
  apply read_only_bind; [apply read_only_lookup_obj | intros o].
  destruct o as [f | b []]; try apply read_only_raise; try apply read_only_ret.
  - apply read_only_bind; [apply read_only_getattr_filepath | intros; apply read_only_ret].
  - destruct (dyn_file_obj a); [| apply read_only_ret].
    apply read_only_bind; [apply read_only_getattr_filepath | intros; apply read_only_ret].
Qed.

(** ** The list as a future: [done] *)

Lemma done_loop_true w es :
  DynamicFileList.done_loop es w = (w, Ret true)
  <-> Forall (fun e => DynamicFileList.DynamicFile.done e w = (w, Ret true)) es.
Proof.
  induction es as [| e es IH]; simpl.
  - split; [constructor | reflexivity].
  - unfold bind.
    destruct (DynamicFileList.DynamicFile.done e w) as [w1 [[|]|x|s]] eqn:E;
      pose proof (read_only_DynamicFile_done _ _ _ _ E) as ->.
    + rewrite IH. split.
      * intros H. constructor; assumption.
      * intros H. inversion H; assumption.
    + split; [discriminate | intros H; inversion H; congruence].
    + split; [discriminate | intros H; inversion H; congruence].
    + split; [discriminate | intros H; inversion H; congruence].
Qed.

Lemma done_loop_false w es :
  DynamicFileList.done_loop es w = (w, Ret false)
  <-> exists pre e post,
        es = pre ++ e :: post
        /\ Forall (fun e => DynamicFileList.DynamicFile.done e w = (w, Ret true)) pre
        /\ DynamicFileList.DynamicFile.done e w = (w, Ret false).
Proof.
  induction es as [| e es IH]; simpl.
  - split; [discriminate |].
    intros (pre & e & post & H & _). destruct pre; discriminate.
  - unfold bind.
    destruct (DynamicFileList.DynamicFile.done e w) as [w1 [[|]|x|s]] eqn:E;
      pose proof (read_only_DynamicFile_done _ _ _ _ E) as ->.
    + rewrite IH. split.
      * intros (pre & e' & post & -> & Hpre & He').
        exists (e :: pre), e', post. repeat split; [constructor | ]; assumption.
      * intros (pre & e' & post & Heq & Hpre & He').
        destruct pre as [| p pre]; simpl in Heq; injection Heq as <- ->.
        -- congruence.
        -- exists pre, e', post. inversion Hpre; subst. repeat split; assumption.
    + split; [| reflexivity].
      intros _. exists [], e, es. repeat split; [constructor | assumption].
    + split; [discriminate |].
      intros (pre & e' & post & Heq & Hpre & He').
      destruct pre as [| p pre]; simpl in Heq; injection Heq as <- ->.
      * congruence.
      * inversion Hpre; congruence.
    + split; [discriminate |].
      intros (pre & e' & post & Heq & Hpre & He').
      destruct pre as [| p pre]; simpl in Heq; injection Heq as <- ->.
      * congruence.
      * inversion Hpre; congruence.
Qed.

Lemma done_loop_total w es :
  Forall (fun e => exists r, DynamicFileList.DynamicFile.done e w = (w, Ret r)) es ->
  exists r, DynamicFileList.done_loop es w = (w, Ret r).
Proof.
  induction 1 as [| e es [r He] _ IH]; simpl.
  - exists true. reflexivity.
  - rewrite (bind_Ret _ _ _ _ _ He). destruct r; [exact IH | exists false; reflexivity].
Qed.

(** C7. [list.done()] is true exactly when every entry of [files_done]
    evaluates to true; it is false exactly when some entry evaluates to
    false and all entries before it evaluate to true, whatever the entries
    after it are (they are not evaluated); and it returns a boolean
    whenever every entry does. *)
Theorem done_iff_all_files_done w self b a :
  heap w !! self = Some (OFuture b (IDynamicFileList a)) ->
  (DynamicFileList.done self w = (w, Ret true)
   <-> Forall (fun e => DynamicFileList.DynamicFile.done e w = (w, Ret true))
         (map snd (files_done a)))
  /\ (DynamicFileList.done self w = (w, Ret false)
      <-> exists pre e post,
            map snd (files_done a) = pre ++ e :: post
            /\ Forall (fun e => DynamicFileList.DynamicFile.done e w = (w, Ret true)) pre
            /\ DynamicFileList.DynamicFile.done e w = (w, Ret false))
  /\ (Forall (fun e => exists r, DynamicFileList.DynamicFile.done e w = (w, Ret r))
        (map snd (files_done a))
      -> exists r, DynamicFileList.done self w = (w, Ret r)).
Proof.
  intros H. unfold DynamicFileList.done.
  rewrite (bind_Ret _ _ _ _ _ (get_list_Some _ _ _ _ H)).
  split; [apply done_loop_true | split; [apply done_loop_false | apply done_loop_total]].
Qed.

Lemma done_iff_all_files_done_witness :
  is_DynamicFileList <$> heap world_AB !! 0%nat = Some true
  /\ DynamicFileList.done 0%nat world_AB = (world_AB, Ret false).
Proof.
  split; [reflexivity |].
  eapply (done_iff_all_files_done world_AB 0%nat); [reflexivity |].
  exists [], 6%nat, [7%nat]. repeat split; constructor.
Defined.

(** ** The [exception] accessors *)

(** C9. The [exception] accessor of a wrapper and that of a list return
    [None] in every world, whatever [self] and the timeout are: they read
    nothing, change nothing and do not wait. On an object of either class
    the call [x.exception()], resolved by the class of [x], therefore
    returns [None] in every state of the internal future, where the
    accessor of the base class would wait on a pending future and return
    the stored exception (a failure [e], or [None] after a success) on a
    finished one. *)
Theorem exception_accessor_returns_None w self timeout :
  DynamicFileList.DynamicFile.exception self timeout w = (w, Ret None)
  /\ DynamicFileList.exception self timeout w = (w, Ret None)
  /\ forall b i,
       heap w !! self = Some (OFuture b i) ->
       is_DynamicFile (OFuture b i) || is_DynamicFileList (OFuture b i) = true ->
       DynamicFileList.DynamicFile.exception_of self w = (w, Ret None)
       /\ Future.exception self timeout w
          = (w, match _state b with
                | FINISHED => Ret (_exception b)
                | _ => Abort WouldBlock
                end).
Proof.
  split; [reflexivity |]. split; [reflexivity |].
  intros b i H Hk. split.
  - unfold DynamicFileList.DynamicFile.exception_of.
    rewrite (bind_Ret _ _ _ _ _ (lookup_obj_Some _ _ _ H)).
    destruct i; try discriminate; reflexivity.
  - unfold Future.exception.
    rewrite (bind_Ret _ _ _ _ _ (get_base_Some _ _ _ _ H)).
    destruct (_state b); reflexivity.
Qed.

Lemma exception_accessor_returns_None_witness :
  (DynamicFileList.exception 0%nat None world_AB_failed = (world_AB_failed, Ret None)
   /\ DynamicFileList.DynamicFile.exception_of 0%nat world_AB_failed
      = (world_AB_failed, Ret None)
   /\ Future.exception 0%nat None world_AB_failed
      = (world_AB_failed, Ret (Some (TaskError 1))))
  /\ (DynamicFileList.DynamicFile.exception 6%nat None world_AB = (world_AB, Ret None)
      /\ DynamicFileList.DynamicFile.exception_of 6%nat world_AB = (world_AB, Ret None)
      /\ Future.exception 6%nat None world_AB = (world_AB, Abort WouldBlock)).
Proof.
  split.
  - destruct (exception_accessor_returns_None world_AB_failed 0%nat None)
      as (_ & Hl & Hx).
    destruct (Hx _ _ eq_refl eq_refl) as [Ho Hb].
    split; [exact Hl |]. split; [exact Ho | exact Hb].
  - destruct (exception_accessor_returns_None world_AB 6%nat None)
      as (Hw & _ & Hx).
    destruct (Hx _ _ eq_refl eq_refl) as [Ho Hb].
    split; [exact Hw |]. split; [exact Ho | exact Hb].
Defined.

(** ** Indexed reads beyond the length *)

Lemma wrap_None_spec n w self b a :
  heap w !! self = Some (OFuture b (IDynamicFileList a)) ->
  exists w' b',
    DynamicFileList.wrap (dispatch (S n)) self None w = (w', Ret (length (heap w)))
    /\ heap w' = <[self := OFuture b' (IDynamicFileList a)]> (heap w) ++ [empty_wrapper self]
    /\ log w' = log w.
Proof.
  intros H.
  assert (Hlt : (self < length (heap w))%nat) by (eapply lookup_lt_Some; eassumption).
  unfold DynamicFileList.wrap, DynamicFileList.DynamicFile.__init__.
  rewrite (bind_Ret _ _ w w false) by reflexivity.
  unfold alloc at 1. unfold bind at 1. cbn [is_none].
  fold (empty_wrapper self).
  set (w1 := with_heap (heap w ++ [empty_wrapper self]) w).
  assert (H1 : heap w1 !! self = Some (OFuture b (IDynamicFileList a))).
  { subst w1. simpl. rewrite lookup_app_l by assumption. assumption. }
  unfold Future.add_done_callback.
  unfold bind at 1. rewrite (bind_Ret _ _ _ _ _ (get_base_Some _ _ _ _ H1)).
  destruct (_state b) eqn:Hs.
  - rewrite (upd_base_Some _ _ _ _ _ H1). eexists _, _. split; [reflexivity |].
    split; [| reflexivity]. simpl.
    rewrite insert_app_l by assumption. reflexivity.
  - rewrite (upd_base_Some _ _ _ _ _ H1). eexists _, _. split; [reflexivity |].
    split; [| reflexivity]. simpl.
    rewrite insert_app_l by assumption. reflexivity.
  - unfold try_log. cbn [fire dispatch].
    unfold DynamicFileList.DynamicFile.parent_callback.
    unfold DynamicFileList.DynamicFile.exception_of.
    unfold bind at 1. rewrite (bind_Ret _ _ _ _ _ (lookup_obj_Some _ _ _ H1)).
    cbn [DynamicFileList.exception ret].
    unfold datetime_now at 1. unfold bind at 1.
    set (w2 := with_clock _ w1).
    assert (H2 : heap w2 !! length (heap w) = Some (empty_wrapper self)).
    { subst w2 w1. simpl. rewrite lookup_app_r by lia. rewrite Nat.sub_diag. reflexivity. }
    rewrite (bind_Ret _ _ _ _ _ (get_dyn_Some _ _ _ _ H2)).
    cbn. exists w2, b. split; [reflexivity |]. split; [| reflexivity].
    subst w2 w1. simpl. rewrite list_insert_id by assumption. reflexivity.
Qed.

Lemma with_items_with_items x y a : with_items x (with_items y a) = with_items x a.
Proof. reflexivity. Qed.

Lemma expand_loop n self (xs : list Z) : forall w b a,
  heap w !! self = Some (OFuture b (IDynamicFileList a)) ->
  exists w' b',
    for_each xs
      (fun _ => do x <- DynamicFileList.wrap (dispatch (S n)) self None;
                upd_list self (fun a => with_items (items a ++ [x]) a)) w
    = (w', Ret tt)
    /\ heap w'
       = <[self := OFuture b' (IDynamicFileList
                    (with_items (items a ++ seq (length (heap w)) (length xs)) a))]>
           (heap w)
         ++ replicate (length xs) (empty_wrapper self)
    /\ log w' = log w.
Proof.
  induction xs as [| x xs IH]; intros w b a H.
  - exists w, b. split; [reflexivity |]. split; [| reflexivity].
    simpl. rewrite app_nil_r, app_nil_r.
    destruct a; simpl. rewrite list_insert_id by assumption. reflexivity.
  - assert (Hlt : (self < length (heap w))%nat) by (eapply lookup_lt_Some; eassumption).
    destruct (wrap_None_spec n w self b a H) as (w1 & b1 & Hw & Hh1 & Hl1).
    cbn [for_each]. unfold bind at 1. unfold bind at 1. rewrite Hw.
    assert (H1 : heap w1 !! self = Some (OFuture b1 (IDynamicFileList a))).
    { rewrite Hh1. rewrite lookup_app_l by (rewrite length_insert; assumption).
      apply list_lookup_insert_eq. assumption. }
    rewrite (upd_list_Some _ _ _ _ _ H1).
    set (w2 := with_heap _ w1).
    assert (H2 : heap w2 !! self
                 = Some (OFuture b1 (IDynamicFileList
                           (with_items (items a ++ [length (heap w)]) a)))).
    { subst w2. simpl. apply list_lookup_insert_eq. eapply lookup_lt_Some; eassumption. }
    destruct (IH w2 _ _ H2) as (w' & b' & Hrun & Hh & Hl).
    exists w', b'. split; [exact Hrun |]. split.
    + rewrite Hh. subst w2. simpl. rewrite Hh1.
      rewrite length_insert, length_app, length_insert. simpl.
      rewrite insert_app_l by (rewrite length_insert; assumption).
      rewrite !list_insert_insert_eq.
      rewrite insert_app_l by (rewrite length_insert; assumption).
      rewrite list_insert_insert_eq.
      rewrite <- app_assoc. simpl.
      rewrite Nat.add_1_r. rewrite <- app_assoc. reflexivity.
    + rewrite Hl. subst w2. simpl. assumption.
Qed.

Lemma length_py_range lo hi : length (py_range lo hi) = Z.to_nat (hi - lo).
Proof. unfold py_range. rewrite length_map, length_seq. reflexivity. Qed.

(** C4. An indexed read at [i >= len] returns the slot at index [i] after
    growing the list by exactly [i - len + 1] fresh empty wrappers; the
    high-water mark [_last_idx], the completion-predicate map and every
    other attribute of the list are as before, and no other object of the
    store changes. *)
Theorem getitem_beyond_length_creates_empty_slots n w self b a i :
  heap w !! self = Some (OFuture b (IDynamicFileList a)) ->
  Z.of_nat (length (items a)) <= i ->
  exists w' b' a' r new,
    __getitem__ (dispatch (S n)) self (KInt i) w = (w', Ret r)
    /\ heap w' = <[self := OFuture b' (IDynamicFileList a')]> (heap w)
                 ++ replicate (length new) (empty_wrapper self)
    /\ a' = with_items (items a ++ new) a
    /\ new = seq (length (heap w)) (Z.to_nat (i - Z.of_nat (length (items a)) + 1))
    /\ Z.of_nat (length (items a')) = i + 1
    /\ items a' !! Z.to_nat i = Some r
    /\ _last_idx a' = _last_idx a
    /\ files_done a' = files_done a.
Proof.
  intros H Hi.
  unfold __getitem__, DynamicFileList._getitem_int.
  rewrite (bind_Ret _ _ _ _ _ (get_list_Some _ _ _ _ H)).
  replace (Z.of_nat (length (items a)) <=? i) with true by (symmetry; apply Z.leb_le; assumption).
  unfold DynamicFileList._expand.
  unfold bind at 1. rewrite (bind_Ret _ _ _ _ _ (get_list_Some _ _ _ _ H)).
  destruct (expand_loop n self (py_range 0 (i - Z.of_nat (length (items a)) + 1)) w b a H)
    as (w' & b' & Hrun & Hh & Hl).
  rewrite Hrun.
  rewrite length_py_range, Z.sub_0_r in Hh.
  remember (Z.to_nat (i - Z.of_nat (length (items a)) + 1)) as k eqn:Hk.
  assert (Hlt : (self < length (heap w))%nat) by (eapply lookup_lt_Some; eassumption).
  assert (H' : heap w' !! self
               = Some (OFuture b' (IDynamicFileList
                         (with_items (items a ++ seq (length (heap w)) k) a)))).
  { rewrite Hh. rewrite lookup_app_l by (rewrite length_insert; assumption).
    apply list_lookup_insert_eq. assumption. }
  rewrite (bind_Ret _ _ _ _ _ (get_list_Some _ _ _ _ H')).
  assert (Hnth : (items a ++ seq (length (heap w)) k) !! Z.to_nat i
                 = Some (length (heap w) + (k - 1))%nat).
  { clear Hrun.
    rewrite lookup_app_r by lia. apply lookup_seq. split; lia. }
  exists w', b', (with_items (items a ++ seq (length (heap w)) k) a),
    (length (heap w) + (k - 1))%nat, (seq (length (heap w)) k).
  split.
  { unfold list_getitem, norm_index. cbn [items with_items].
    rewrite length_app, length_seq.
    replace (0 <=? i) with true by (symmetry; apply Z.leb_le; lia).
    replace (i <? Z.of_nat (length (items a) + k)) with true
      by (symmetry; apply Z.ltb_lt; lia).
    rewrite Hnth. reflexivity. }
  split.
  { rewrite Hh, length_seq. reflexivity. }
  repeat split; try assumption.
  cbn [items with_items]. rewrite length_app, length_seq. lia.
Qed.

Lemma getitem_beyond_length_creates_empty_slots_witness :
  (items <$> list_at world_fresh_list 0) = Some []
  /\ exists w' a' r,
       __getitem__ (dispatch 1) 0%nat (KInt 2) world_fresh_list = (w', Ret r)
       /\ list_at w' 0 = Some a'
       /\ Z.of_nat (length (items a')) = 3
       /\ _last_idx a' = -1.
Proof.
  split; [reflexivity |].
  destruct (getitem_beyond_length_creates_empty_slots 0 world_fresh_list 0%nat _ _ 2
              eq_refl ltac:(simpl; lia))
    as (w' & b' & a' & r & new & Hrun & Hh & Ha & Hnew & Hlen & Hr & Hl & Hf).
  exists w', a', r. split; [exact Hrun |]. split; [| split; [exact Hlen | exact Hl]].
  unfold list_at. rewrite Hh. reflexivity.
Defined.


(** ** Removing an element *)

Lemma list_remove_None x l : list_remove x l = None <-> x ∉ l.
Proof.
  induction l as [| y l IH]; simpl.
  - split; [intros _; apply not_elem_of_nil | reflexivity].
  - destruct (Nat.eqb_spec y x) as [-> | Hne].
    + split; [discriminate | intros H; exfalso; apply H; constructor].
    + destruct (list_remove x l) eqn:E; simpl.
      * split; [discriminate |]. intros H. exfalso.
        assert (x ∉ l) as Hl by (intros ?; apply H; constructor; assumption).
        apply IH in Hl. discriminate.
      * split; [| reflexivity]. intros _ Hin.
        apply elem_of_cons in Hin as [-> | Hin]; [congruence |].
        apply (proj1 IH); [reflexivity | assumption].
Qed.

Lemma length_dict_del k d :
  dict_mem k d = true -> S (length (dict_del k d)) = length d.
Proof.
  induction d as [| [k' v] d IH]; simpl; [discriminate |].
  destruct (key_eqb k' k); simpl; [reflexivity |].
  intros H. rewrite IH by assumption. reflexivity.
Qed.

Lemma remove_absent D w self b a value name :
  heap w !! self = Some (OFuture b (IDynamicFileList a)) ->
  getattr_filename value w = (w, Ret name) ->
  dict_mem name (files_done a) = true ->
  value ∉ items a ->
  DynamicFileList.remove D self value w
  = (with_heap (<[self := OFuture b (IDynamicFileList
                   (with_files_done (dict_del name (files_done a)) a))]> (heap w)) w,
     Raise ValueError).
Proof.
  intros H Hn Hm Hv.
  unfold DynamicFileList.remove.
  rewrite (bind_Ret _ _ _ _ _ Hn).
  rewrite (bind_Ret _ _ _ _ _ (get_list_Some _ _ _ _ H)).
  unfold dict_delitem. rewrite Hm.
  rewrite (bind_Ret _ _ w w (dict_del name (files_done a))) by reflexivity.
  unfold bind at 1. rewrite (upd_list_Some _ _ _ _ _ H).
  set (w1 := with_heap _ w).
  assert (H1 : heap w1 !! self
               = Some (OFuture b (IDynamicFileList
                         (with_files_done (dict_del name (files_done a)) a)))).
  { subst w1. simpl. apply list_lookup_insert_eq. eapply lookup_lt_Some; eassumption. }
  rewrite (bind_Ret _ _ _ _ _ (get_list_Some _ _ _ _ H1)).
  cbn [items with_files_done].
  apply list_remove_None in Hv. rewrite Hv. reflexivity.
Qed.

(** * Frames *)

Global Instance lists_kept_preorder : PreOrder lists_kept.
Proof.
  split.
  - intros w y b a H. exists b. exact H.
  - intros w1 w2 w3 H12 H23 y b a H.
    destruct (H12 _ _ _ H) as [b' H']. exact (H23 _ _ _ H').
Qed.

Lemma lists_kept_alloc w o : lists_kept w (with_heap (heap w ++ [o]) w).
Proof.
  intros y b a H. exists b. simpl.
  rewrite lookup_app_l by (eapply lookup_lt_Some; eassumption). exact H.
Qed.

Lemma lists_kept_store w r o o' :
  heap w !! r = Some o ->
  (forall b a, o = OFuture b (IDynamicFileList a) ->
               exists b', o' = OFuture b' (IDynamicFileList a)) ->
  lists_kept w (with_heap (<[r := o']> (heap w)) w).
Proof.
  intros Hr Ho y b a H. simpl.
  destruct (decide (r = y)) as [-> | Hne].
  - rewrite Hr in H. injection H as ->.
    destruct (Ho _ _ eq_refl) as [b' ->]. exists b'.
    apply list_lookup_insert_eq. eapply lookup_lt_Some; eassumption.
  - exists b. rewrite list_lookup_insert_ne by assumption. exact H.
Qed.

Section Frames.
Context (R : relation world) `{!PreOrder R}.

Lemma pres_ret {A} (a : A) : pres R (ret a).
Proof. intros w w' o [= <- _]. reflexivity. Qed.

Lemma pres_raise {A} e : pres R (@raise A e).
Proof. intros w w' o [= <- _]. reflexivity. Qed.

Lemma pres_abort {A} s : pres R (@abort A s).
Proof. intros w w' o [= <- _]. reflexivity. Qed.

Lemma pres_read_only {A} (m : M A) : read_only m -> pres R m.
Proof. intros H w w' o E. rewrite (H _ _ _ E). reflexivity. Qed.

Lemma pres_bind {A B} (m : M A) (k : A -> M B) :
  pres R m -> (forall a, pres R (k a)) -> pres R (bind m k).
Proof.
  intros Hm Hk w w' o. unfold bind.
  destruct (m w) as [w1 [a|e|s]] eqn:E; pose proof (Hm _ _ _ E) as H1.
  - intros E2. etransitivity; [exact H1 | eapply Hk; exact E2].
  - intros [= <- _]. exact H1.
  - intros [= <- _]. exact H1.
Qed.

Lemma pres_try_log (m : M unit) : pres R m -> pres R (try_log m).
Proof.
  intros Hm w w' o. unfold try_log.
  destruct (m w) as [w1 [a|e|s]] eqn:E; pose proof (Hm _ _ _ E) as H1;
    intros [= <- _]; exact H1.
Qed.

Lemma pres_for_each {A} (xs : list A) (body : A -> M unit) :
  (forall x, pres R (body x)) -> pres R (for_each xs body).
Proof.
  intros Hb. induction xs as [| x xs IH]; simpl.
  - apply pres_ret.
  - apply pres_bind; [apply Hb | intros _; exact IH].
Qed.

Lemma pres_lookup_obj r : pres R (lookup_obj r).
Proof. apply pres_read_only, read_only_lookup_obj. Qed.

Lemma pres_get_base r : pres R (get_base r).
Proof. apply pres_read_only, read_only_get_base. Qed.

Lemma pres_get_dyn r : pres R (get_dyn r).
Proof. apply pres_read_only, read_only_get_dyn. Qed.

Lemma pres_get_list r : pres R (get_list r).
Proof. apply pres_read_only, read_only_get_list. Qed.

Lemma pres_getattr_filename r : pres R (getattr_filename r).
Proof. apply pres_read_only, read_only_getattr_filename. Qed.

(** Steps that keep the lists. *)
Hypothesis R_kept : forall w w', lists_kept w w' -> R w w'.

Lemma pres_alloc o : pres R (alloc o).
Proof. intros w w' x [= <- _]. apply R_kept, lists_kept_alloc. Qed.

Lemma pres_emit e : pres R (emit e).
Proof. intros w w' x [= <- _]. apply R_kept. intros y b a H. exists b. exact H. Qed.

Lemma pres_datetime_now : pres R datetime_now.
Proof. intros w w' x [= <- _]. apply R_kept. intros y b a H. exists b. exact H. Qed.

Lemma pres_upd_base r f : pres R (upd_base r f).
Proof.
  intros w w' x. unfold upd_base, bind, lookup_obj.
  destruct (heap w !! r) as [[fl | b i] |] eqn:E; intros [= <- _]; try reflexivity.
  apply R_kept. eapply lists_kept_store; [exact E |].
  intros b0 a0 [= -> ->]. eexists. reflexivity.
Qed.

Lemma pres_upd_data r f : pres R (upd_data r f).
Proof.
  intros w w' x. unfold upd_data, bind, lookup_obj.
  destruct (heap w !! r) as [[fl | b []] |] eqn:E; intros [= <- _]; try reflexivity.
  apply R_kept. eapply lists_kept_store; [exact E |]. intros b0 a0 [=].
Qed.

Lemma pres_upd_dyn r f : pres R (upd_dyn r f).
Proof.
  intros w w' x. unfold upd_dyn, bind, lookup_obj.
  destruct (heap w !! r) as [[fl | b []] |] eqn:E; intros [= <- _]; try reflexivity.
  apply R_kept. eapply lists_kept_store; [exact E |]. intros b0 a0 [=].
Qed.

Lemma pres_setattr_timestamp x v : pres R (setattr_timestamp x v).
Proof.
  intros w w' o. unfold setattr_timestamp.
  destruct x as [r |]; [| intros [= <- _]; reflexivity].
  unfold bind, lookup_obj.
  destruct (heap w !! r) as [[fl | b []] |] eqn:E; try (intros [= <- _]; reflexivity).
  - intros [= <- _]. apply R_kept. eapply lists_kept_store; [exact E |]. intros b0 a0 [=].
  - destruct (heap w !! df_file_obj a) as [[fl | b' i'] |] eqn:E';
      intros [= <- _]; try reflexivity.
    apply R_kept. eapply lists_kept_store; [exact E' |]. intros b0 a0 [=].
Qed.

Lemma pres_setattr_outputs r v : pres R (setattr_outputs r v).
Proof.
  unfold setattr_outputs. apply pres_bind; [apply pres_lookup_obj |].
  intros [fl | b i]; [apply pres_ret | apply pres_upd_base].
Qed.

End Frames.

Create HintDb frame.

Lemma lists_kept_id w w' : lists_kept w w' -> lists_kept w w'.
Proof. exact id. Qed.

#[global] Hint Resolve lists_kept_id : frame.

Ltac side :=
  match goal with
  | |- PreOrder _ => apply _
  | |- forall w w', lists_kept w w' -> _ => solve [auto with frame]
  end.

Create HintDb pres.
Create HintDb read_only.

Lemma read_only_list_getitem l k : read_only (list_getitem l k).
Proof. unfold list_getitem. read_only_tac. Qed.

Lemma read_only_list_getslice l s : read_only (list_getslice l s).
Proof. unfold list_getslice. read_only_tac. Qed.

Lemma read_only_list_pop l k : read_only (list_pop l k).
Proof. unfold list_pop. read_only_tac. Qed.

Lemma read_only_dict_delitem k d : read_only (dict_delitem k d).
Proof. unfold dict_delitem. read_only_tac. Qed.

Lemma read_only_get_data r : read_only (get_data r).
Proof. unfold get_data. read_only_tac. Qed.

Lemma read_only_get_file r : read_only (get_file r).
Proof. unfold get_file. read_only_tac. Qed.

Lemma read_only_getattr_tid r : read_only (getattr_tid r).
Proof.
  unfold getattr_tid. read_only_tac.
Qed.

Lemma read_only_getattr_task_record r : read_only (getattr_task_record r).
Proof. unfold getattr_task_record. read_only_tac. Qed.

Lemma read_only_truthy r : read_only (truthy r).
Proof. unfold truthy. read_only_tac. Qed.

Lemma read_only_isinstance p r : read_only (isinstance p r).
Proof. unfold isinstance. read_only_tac. Qed.

Lemma read_only_typecheck_value r : read_only (DynamicFileList.typecheck_value r).
Proof. unfold DynamicFileList.typecheck_value. read_only_tac. Qed.

Lemma read_only_exception_of fu : read_only (DynamicFileList.DynamicFile.exception_of fu).
Proof.
  unfold DynamicFileList.DynamicFile.exception_of, DynamicFileList.exception,
    DynamicFileList.DynamicFile.exception, Future.exception.
  read_only_tac.
Qed.

#[global] Hint Resolve read_only_lookup_obj read_only_get_base read_only_get_dyn
  read_only_get_list read_only_get_data read_only_get_file
  read_only_getattr_filepath read_only_getattr_filename read_only_getattr_tid
  read_only_getattr_task_record read_only_truthy read_only_isinstance
  read_only_list_getitem read_only_list_getslice read_only_list_pop
  read_only_dict_delitem read_only_typecheck_value read_only_exception_of
  read_only_Future_done read_only_DynamicFile_done : read_only.

Ltac pres_tac :=
  repeat first
    [ assumption
    | solve [auto 2 with nocore pres]
    | apply pres_ret; try side | apply pres_raise; try side | apply pres_abort; try side
    | apply pres_read_only; [try side .. | solve [auto 1 with nocore read_only]]
    | apply pres_alloc; try side
    | apply pres_emit; try side
    | apply pres_datetime_now; try side
    | apply pres_upd_base; try side
    | apply pres_upd_data; try side
    | apply pres_upd_dyn; try side
    | apply pres_setattr_timestamp; try side
    | apply pres_setattr_outputs; try side
    | apply pres_try_log; try side
    | apply pres_for_each; [try side .. | intros ?]
    | apply pres_bind; [try side .. | | intros ?]
    | match goal with
      | H : forall cb fu, pres _ (fire _ cb fu) |- pres _ (fire _ _ _) => apply H
      | |- pres _ (match ?x with _ => _ end) => destruct x
      end ].

Section Fire.
Context (R : relation world) `{!PreOrder R}.
Hypothesis R_kept : forall w w', lists_kept w w' -> R w w'.
Variable D : dispatcher.
Hypothesis R_fire : forall cb fu, pres R (fire D cb fu).


Lemma pres_add_done_callback self fn : pres R (Future.add_done_callback D self fn).
Proof. unfold Future.add_done_callback. pres_tac. Qed.

Lemma pres_invoke_callbacks self : pres R (Future._invoke_callbacks D self).
Proof. unfold Future._invoke_callbacks. pres_tac. Qed.

Lemma pres_set_result self r : pres R (Future.set_result D self r).
Proof. unfold Future.set_result. pres_tac; apply pres_invoke_callbacks. Qed.

Lemma pres_set_exception self e : pres R (Future.set_exception D self e).
Proof. unfold Future.set_exception. pres_tac; apply pres_invoke_callbacks. Qed.

Lemma pres_exception_of fu : pres R (DynamicFileList.DynamicFile.exception_of fu).
Proof.
  unfold DynamicFileList.DynamicFile.exception_of, DynamicFileList.exception,
    DynamicFileList.DynamicFile.exception, Future.exception.
  pres_tac.
Qed.

Lemma pres_getattr_task_record r : pres R (getattr_task_record r).
Proof. unfold getattr_task_record. pres_tac. Qed.

Lemma pres_DataFuture_parent_callback self fu :
  pres R (DataFuture.parent_callback D self fu).
Proof.
  unfold DataFuture.parent_callback, get_data.
  pres_tac; first [apply pres_set_exception | apply pres_set_result
                  | apply pres_getattr_task_record].
Qed.

Lemma pres_DynamicFile_parent_callback self fu :
  pres R (DynamicFileList.DynamicFile.parent_callback D self fu).
Proof.
  unfold DynamicFileList.DynamicFile.parent_callback.
  apply pres_bind; [side | apply pres_exception_of | intros e].
  pres_tac; first [apply pres_set_exception | apply pres_set_result].
Qed.

Lemma pres_DynamicFileList_parent_callback self fu :
  pres R (DynamicFileList.parent_callback D self fu).
Proof.
  unfold DynamicFileList.parent_callback.
  apply pres_bind; [side | apply pres_exception_of | intros e].
  pres_tac; first [apply pres_set_exception | apply pres_set_result].
Qed.
End Fire.

(** Done-callbacks never touch the attributes of a list. *)
Lemma fire_lists_kept n : forall cb fu, pres lists_kept (fire (dispatch n) cb fu).
Proof.
  induction n as [| n IH]; intros cb fu; simpl.
  - apply pres_abort; side.
  - destruct cb.
    + apply pres_DataFuture_parent_callback; try side; auto.
    + apply pres_DynamicFile_parent_callback; try side; auto.
    + apply pres_DynamicFileList_parent_callback; try side; auto.
Qed.

(** ** What the refresh of a view leaves alone *)

Lemma same_core_refl a : same_core a a.
Proof. destruct a; reflexivity. Qed.

Lemma same_core_trans a1 a2 a3 : same_core a1 a2 -> same_core a2 a3 -> same_core a1 a3.
Proof. unfold same_core. intros H12 H23. rewrite H23, H12. reflexivity. Qed.

Global Instance others_kept_preorder v : PreOrder (others_kept v).
Proof.
  split.
  - intros w Hn. split; [exact Hn |].
    intros y b a _ H. exists b, a. split; [exact H | apply same_core_refl].
  - intros w1 w2 w3 H12 H23 Hn.
    destruct (H12 Hn) as [Hn2 K12]. destruct (H23 Hn2) as [Hn3 K23].
    split; [exact Hn3 |].
    intros y b a Hy H. destruct (K12 _ _ _ Hy H) as (b2 & a2 & H2 & S2).
    destruct (K23 _ _ _ Hy H2) as (b3 & a3 & H3 & S3).
    exists b3, a3. split; [exact H3 | eapply same_core_trans; eassumption].
Qed.

Lemma lists_kept_others_kept v w w' : lists_kept w w' -> others_kept v w w'.
Proof.
  intros K (b & a & H & Hs). split.
  - destruct (K _ _ _ H) as [b' H']. exists b', a. split; assumption.
  - intros y b0 a0 _ H0. destruct (K _ _ _ H0) as [b' H']. exists b', a0.
    split; [exact H' | apply same_core_refl].
Qed.

Lemma pres_upd_list_self v f :
  (forall a, _sub_callbacks (f a) = _sub_callbacks a) ->
  pres (others_kept v) (upd_list v f).
Proof.
  intros Hf w w' o. unfold upd_list, bind, lookup_obj.
  destruct (heap w !! v) as [[fl | b []] |] eqn:E; intros [= <- _]; try reflexivity.
  intros (b0 & a0 & H0 & Hs). rewrite E in H0. injection H0 as <- <-.
  assert (Hlt : (v < length (heap w))%nat) by (eapply lookup_lt_Some; eassumption).
  split.
  - exists b, (f a). simpl. split; [apply list_lookup_insert_eq; assumption |].
    rewrite Hf. exact Hs.
  - intros y b1 a1 Hy H1. exists b1, a1. simpl.
    rewrite list_lookup_insert_ne by congruence.
    split; [exact H1 | apply same_core_refl].
Qed.

Lemma pres_add_done_func v r name func :
  pres (others_kept v) (DynamicFileList.add_done_func r name func).
Proof.
  intros w w' o. unfold DynamicFileList.add_done_func, upd_list, bind, lookup_obj.
  destruct (heap w !! r) as [[fl | b []] |] eqn:E; intros [= <- _]; try reflexivity.
  assert (Hlt : (r < length (heap w))%nat) by (eapply lookup_lt_Some; eassumption).
  intros (b0 & a0 & H0 & Hs). split.
  - destruct (decide (r = v)) as [-> | Hne].
    + rewrite E in H0. injection H0 as <- <-. eexists _, _. simpl.
      split; [apply list_lookup_insert_eq; assumption | exact Hs].
    + exists b0, a0. simpl. rewrite list_lookup_insert_ne by assumption.
      split; assumption.
  - intros y b1 a1 Hy H1. simpl. destruct (decide (r = y)) as [-> | Hne].
    + rewrite E in H1. injection H1 as <- <-. eexists _, _.
      split; [apply list_lookup_insert_eq; assumption |]. reflexivity.
    + exists b1, a1. rewrite list_lookup_insert_ne by assumption.
      split; [exact H1 | apply same_core_refl].
Qed.

Lemma pres_call_callbacks D v :
  pres (others_kept v) (DynamicFileList._call_callbacks D v).
Proof.
  intros w w' o Hrun Hn. revert Hrun.
  destruct Hn as (b & a & H & Hs).
  unfold DynamicFileList._call_callbacks.
  rewrite (bind_Ret _ _ _ _ _ (get_list_Some _ _ _ _ H)).
  assert (Hlt : (v < length (heap w))%nat) by (eapply lookup_lt_Some; eassumption).
  destruct (_in_callback a).
  - intros [= <- _]. split; [exists b, a; split; assumption |].
    intros y b1 a1 _ H1. exists b1, a1. split; [exact H1 | apply same_core_refl].
  - unfold bind at 1. rewrite (upd_list_Some _ _ _ _ _ H).
    set (w1 := with_heap _ w).
    assert (H1 : heap w1 !! v = Some (OFuture b (IDynamicFileList (with_in_callback true a)))).
    { subst w1. simpl. apply list_lookup_insert_eq. assumption. }
    rewrite Hs. cbn [length DynamicFileList._call_callbacks_from].
    unfold bind at 1. rewrite (bind_Ret _ _ _ _ _ (get_list_Some _ _ _ _ H1)).
    cbn [_sub_callbacks with_in_callback]. rewrite Hs. cbn [lookup list_lookup ret].
    rewrite (upd_list_Some _ _ _ _ _ H1).
    intros [= <- _]. simpl. rewrite list_insert_insert_eq. split.
    + eexists _, _. split; [apply list_lookup_insert_eq; assumption | exact Hs].
    + intros y b1 a1 Hy Hy1. exists b1, a1.
      rewrite list_lookup_insert_ne by congruence.
      split; [exact Hy1 | apply same_core_refl].
Qed.

#[global] Hint Resolve lists_kept_others_kept : frame.

#[global] Hint Resolve pres_call_callbacks pres_add_done_func : pres.
#[global] Hint Extern 1 (pres (others_kept ?v) (upd_list ?v _)) =>
  apply pres_upd_list_self; reflexivity : pres.

Section Refresh.
Variable v : ref.
Variable D : dispatcher.
Hypothesis R_fire : forall cb fu, pres (others_kept v) (fire D cb fu).

Lemma pres_stage_file idx : pres (others_kept v) (DynamicFileList.stage_file D v idx).
Proof. unfold DynamicFileList.stage_file. pres_tac. Qed.

Lemma pres_normalise object : pres (others_kept v) (DynamicFileList.normalise D v object).
Proof. unfold DynamicFileList.normalise. pres_tac. Qed.

Lemma pres_extend_collect iterable : forall acc,
  pres (others_kept v) (DynamicFileList.extend_collect D v iterable acc).
Proof.
  induction iterable as [| f rest IH]; intros acc; simpl.
  - pres_tac.
  - pres_tac.
Qed.

Lemma pres_extend iterable : pres (others_kept v) (DynamicFileList.extend D v iterable).
Proof.
  unfold DynamicFileList.extend.
  apply pres_bind; [side | apply pres_extend_collect | intros new].
  pres_tac.
Qed.
End Refresh.

#[global] Hint Resolve pres_extend_collect pres_extend pres_stage_file pres_normalise : pres.

(** The refresh of a view [v] leaves every other list as it is, up to its
    completion-predicate map. *)
Lemma callback_keeps_others n v w w' o :
  DynamicFileList.DynamicFileSubList.callback (dispatch n) v w = (w', o) ->
  forall y b a, y <> v ->
    heap w !! y = Some (OFuture b (IDynamicFileList a)) ->
    exists b' a', heap w' !! y = Some (OFuture b' (IDynamicFileList a'))
                  /\ same_core a a'.
Proof.
  intros Hrun y b a Hy H.
  unfold DynamicFileList.DynamicFileSubList.callback in Hrun.
  destruct (heap w !! v) as [[fl | bv []] |] eqn:E;
    try (unfold DynamicFileList.clear, upd_list, bind, lookup_obj in Hrun;
         rewrite E in Hrun; injection Hrun as <- _;
         exists b, a; split; [exact H | apply same_core_refl]).
  assert (Hlt : (v < length (heap w))%nat) by (eapply lookup_lt_Some; eassumption).
  unfold DynamicFileList.clear in Hrun.
  unfold bind at 1 in Hrun. unfold bind at 1 in Hrun.
  rewrite (upd_list_Some _ _ _ _ _ E) in Hrun.
  set (w1 := with_heap _ w) in Hrun.
  assert (H1 : heap w1 !! v = Some (OFuture bv (IDynamicFileList (with_files_done [] a0))))
    by (subst w1; simpl; apply list_lookup_insert_eq; assumption).
  unfold bind at 1 in Hrun. rewrite (upd_list_Some _ _ _ _ _ H1) in Hrun.
  set (w2 := with_heap _ w1) in Hrun.
  assert (H2 : heap w2 !! v
               = Some (OFuture bv (IDynamicFileList
                         (with_last_idx (-1) (with_files_done [] a0)))))
    by (subst w2; simpl; apply list_lookup_insert_eq; rewrite length_insert; assumption).
  unfold bind at 1 in Hrun. rewrite (upd_list_Some _ _ _ _ _ H2) in Hrun.
  set (w3 := with_heap _ w2) in Hrun.
  assert (H3 : heap w3 !! v
               = Some (OFuture bv (IDynamicFileList
                         (with_items [] (with_last_idx (-1) (with_files_done [] a0))))))
    by (subst w3; simpl; apply list_lookup_insert_eq; rewrite !length_insert; assumption).
  rewrite (upd_list_Some _ _ _ _ _ H3) in Hrun.
  set (w4 := with_heap _ w3) in Hrun.
  assert (H4 : heap w4 !! y = Some (OFuture b (IDynamicFileList a))).
  { subst w4 w3 w2 w1. simpl. rewrite !list_lookup_insert_ne by congruence. exact H. }
  assert (Hn : no_views w4 v).
  { eexists _, _. split.
    - subst w4. simpl. apply list_lookup_insert_eq. rewrite !length_insert. assumption.
    - reflexivity. }
  assert (P : pres (others_kept v)
                (do a <- get_list v;
                 match parent a, slice a with
                 | Some p, Some s =>
                     do fs <- DynamicFileList.get_update p s;
                     DynamicFileList.extend (dispatch n) v fs
                 | _, _ => raise AttributeError
                 end)).
  { assert (Hfire : forall cb fu, pres (others_kept v) (fire (dispatch n) cb fu)).
    { intros cb fu x x' ox Hx. apply lists_kept_others_kept.
      eapply fire_lists_kept. exact Hx. }
    pres_tac. }
  destruct (P _ _ _ Hrun Hn) as [_ K]. exact (K _ _ _ Hy H4).
Qed.

Lemma same_shape_refl a : same_shape a a.
Proof. destruct a; reflexivity. Qed.

Lemma same_core_shape a1 a2 a3 : same_shape a1 a2 -> same_core a2 a3 -> same_shape a1 a3.
Proof. unfold same_shape, same_core. intros H12 H23. rewrite H23, H12. reflexivity. Qed.

Lemma call_callbacks_from_keeps_self n self k : forall i w w' o b a0 a,
  heap w !! self = Some (OFuture b (IDynamicFileList a)) ->
  same_shape a0 a ->
  self ∉ _sub_callbacks a0 ->
  DynamicFileList._call_callbacks_from (dispatch n) k self i w = (w', o) ->
  exists b' a', heap w' !! self = Some (OFuture b' (IDynamicFileList a'))
                /\ same_shape a0 a'.
Proof.
  induction k as [| k IH]; intros i w w' o b a0 a H Hs Hn Hrun.
  - simpl in Hrun. rewrite (bind_Ret _ _ _ _ _ (get_list_Some _ _ _ _ H)) in Hrun.
    destruct (_sub_callbacks a !! i); injection Hrun as <- _; eauto.
  - simpl in Hrun. rewrite (bind_Ret _ _ _ _ _ (get_list_Some _ _ _ _ H)) in Hrun.
    destruct (_sub_callbacks a !! i) as [cb |] eqn:Ecb; [| injection Hrun as <- _; eauto].
    assert (Hcb : cb <> self).
    { intros ->. apply Hn. rewrite Hs in Ecb. simpl in Ecb.
      eapply list_elem_of_lookup_2. exact Ecb. }
    unfold bind in Hrun.
    destruct (refresh (dispatch n) cb w) as [w1 o1] eqn:E1.
    assert (K : exists b1 a1, heap w1 !! self = Some (OFuture b1 (IDynamicFileList a1))
                              /\ same_core a a1).
    { destruct n as [| n]; simpl in E1.
      - injection E1 as <- _. exists b, a. split; [exact H | apply same_core_refl].
      - eapply callback_keeps_others; eauto. }
    destruct K as (b1 & a1 & H1 & S1).
    destruct o1 as [[] | e | s]; try (injection Hrun as <- _; exists b1, a1;
      split; [exact H1 | eapply same_core_shape; eassumption]).
    eapply IH; [exact H1 | eapply same_core_shape; eassumption | exact Hn | exact Hrun].
Qed.

Lemma call_callbacks_keeps_self n self w w' o b a :
  heap w !! self = Some (OFuture b (IDynamicFileList a)) ->
  self ∉ _sub_callbacks a ->
  DynamicFileList._call_callbacks (dispatch n) self w = (w', o) ->
  exists b' a', heap w' !! self = Some (OFuture b' (IDynamicFileList a'))
                /\ same_shape a a'.
Proof.
  intros H Hn Hrun. unfold DynamicFileList._call_callbacks in Hrun.
  rewrite (bind_Ret _ _ _ _ _ (get_list_Some _ _ _ _ H)) in Hrun.
  destruct (_in_callback a) eqn:Ein.
  - injection Hrun as <- _. exists b, a. split; [exact H | apply same_shape_refl].
  - assert (Hlt : (self < length (heap w))%nat) by (eapply lookup_lt_Some; eassumption).
    unfold bind at 1 in Hrun. rewrite (upd_list_Some _ _ _ _ _ H) in Hrun.
    set (w1 := with_heap _ w) in Hrun.
    assert (H1 : heap w1 !! self
                 = Some (OFuture b (IDynamicFileList (with_in_callback true a))))
      by (subst w1; simpl; apply list_lookup_insert_eq; assumption).
    unfold bind in Hrun.
    destruct (DynamicFileList._call_callbacks_from (dispatch n)
                (length (_sub_callbacks a)) self 0 w1) as [w2 o2] eqn:E2.
    destruct (call_callbacks_from_keeps_self _ _ _ _ _ _ _ _ a _ H1 eq_refl Hn E2)
      as (b2 & a2 & H2 & S2).
    destruct o2 as [[] | e | s]; try (injection Hrun as <- _; eauto).
    rewrite (upd_list_Some _ _ _ _ _ H2) in Hrun. injection Hrun as <- _.
    eexists _, _. split.
    + simpl. apply list_lookup_insert_eq. eapply lookup_lt_Some; eassumption.
    + unfold same_shape in *. rewrite S2. reflexivity.
Qed.

Lemma call_callbacks_no_views D self w b a :
  heap w !! self = Some (OFuture b (IDynamicFileList a)) ->
  _sub_callbacks a = [] ->
  DynamicFileList._call_callbacks D self w = (w, Ret tt).
Proof.
  intros H Hs. unfold DynamicFileList._call_callbacks.
  rewrite (bind_Ret _ _ _ _ _ (get_list_Some _ _ _ _ H)).
  assert (Hlt : (self < length (heap w))%nat) by (eapply lookup_lt_Some; eassumption).
  destruct (_in_callback a) eqn:Ein; [reflexivity |].
  unfold bind at 1. rewrite (upd_list_Some _ _ _ _ _ H).
  set (w1 := with_heap _ w).
  assert (H1 : heap w1 !! self
               = Some (OFuture b (IDynamicFileList (with_in_callback true a))))
    by (subst w1; simpl; apply list_lookup_insert_eq; assumption).
  rewrite Hs. cbn [length DynamicFileList._call_callbacks_from].
  unfold bind at 1. rewrite (bind_Ret _ _ _ _ _ (get_list_Some _ _ _ _ H1)).
  cbn [_sub_callbacks with_in_callback]. rewrite Hs. cbn [lookup list_lookup ret].
  rewrite (upd_list_Some _ _ _ _ _ H1). subst w1. simpl.
  rewrite list_insert_insert_eq.
  replace (with_in_callback false (with_in_callback true a)) with a
    by (clear - Ein; destruct a; simpl in *; subst; reflexivity).
  rewrite list_insert_id by assumption. destruct w; reflexivity.
Qed.

(** C10. [remove] deletes the entry of [value]'s file name from the
    completion-predicate map before it looks for [value] in the list: when
    the name is registered and [value] is no element of the list, the call
    raises [ValueError] and leaves a world in which the entry is gone while
    the elements and the high-water mark are as before. When [value] is an
    element, the element is removed and the high-water mark is lower by
    one (the list is assumed not to be registered as a view of itself); it
    returns normally when no view is registered. *)
Theorem remove_not_atomic n w self b a value name :
  heap w !! self = Some (OFuture b (IDynamicFileList a)) ->
  getattr_filename value w = (w, Ret name) ->
  dict_mem name (files_done a) = true ->
  (value ∉ items a ->
   DynamicFileList.remove (dispatch n) self value w
   = (with_heap (<[self := OFuture b (IDynamicFileList
                    (with_files_done (dict_del name (files_done a)) a))]> (heap w)) w,
      Raise ValueError)
   /\ S (length (dict_del name (files_done a))) = length (files_done a))
  /\ (value ∈ items a -> self ∉ _sub_callbacks a ->
      exists w' o b' a',
        DynamicFileList.remove (dispatch n) self value w = (w', o)
        /\ heap w' !! self = Some (OFuture b' (IDynamicFileList a'))
        /\ _last_idx a' = _last_idx a - 1
        /\ list_remove value (items a) = Some (items a')
        /\ (_sub_callbacks a = [] -> o = Ret tt)).
Proof.
  intros H Hn Hm. split.
  - intros Hv. split; [apply remove_absent; assumption | apply length_dict_del; assumption].
  - intros Hv Hs.
    destruct (list_remove value (items a)) as [l |] eqn:El;
      [| apply list_remove_None in El; contradiction].
    assert (Hlt : (self < length (heap w))%nat) by (eapply lookup_lt_Some; eassumption).
    unfold DynamicFileList.remove.
    rewrite (bind_Ret _ _ _ _ _ Hn).
    rewrite (bind_Ret _ _ _ _ _ (get_list_Some _ _ _ _ H)).
    unfold dict_delitem. rewrite Hm.
    rewrite (bind_Ret _ _ w w (dict_del name (files_done a))) by reflexivity.
    unfold bind at 1. rewrite (upd_list_Some _ _ _ _ _ H).
    set (w1 := with_heap _ w).
    assert (H1 : heap w1 !! self
                 = Some (OFuture b (IDynamicFileList
                           (with_files_done (dict_del name (files_done a)) a))))
      by (subst w1; simpl; apply list_lookup_insert_eq; assumption).
    rewrite (bind_Ret _ _ _ _ _ (get_list_Some _ _ _ _ H1)).
    cbn [items with_files_done]. rewrite El.
    unfold bind at 1. rewrite (upd_list_Some _ _ _ _ _ H1).
    set (w2 := with_heap _ w1).
    assert (H2 : heap w2 !! self
                 = Some (OFuture b (IDynamicFileList
                           (with_items l
                              (with_files_done (dict_del name (files_done a)) a)))))
      by (subst w2; simpl; apply list_lookup_insert_eq; rewrite length_insert; assumption).
    unfold bind at 1. rewrite (upd_list_Some _ _ _ _ _ H2).
    set (w3 := with_heap _ w2).
    assert (H3 : exists a3, heap w3 !! self = Some (OFuture b (IDynamicFileList a3))
                            /\ _last_idx a3 = _last_idx a - 1 /\ items a3 = l
                            /\ _sub_callbacks a3 = _sub_callbacks a).
    { eexists. split.
      - subst w3; simpl; apply list_lookup_insert_eq; rewrite !length_insert; assumption.
      - repeat split. }
    destruct H3 as (a3 & H3 & L3 & I3 & C3).
    destruct (DynamicFileList._call_callbacks (dispatch n) self w3) as [w' o] eqn:Erun.
    rewrite <- C3 in Hs.
    destruct (call_callbacks_keeps_self _ _ _ _ _ _ _ H3 Hs Erun) as (b' & a' & H' & S').
    exists w', o, b', a'. split; [reflexivity |]. split; [exact H' |].
    rewrite S'. cbn. split; [exact L3 |]. split; [congruence |].
    rewrite <- C3.
    intros Hnv. rewrite (call_callbacks_no_views _ _ _ _ _ H3 Hnv) in Erun. congruence.
Qed.

Lemma remove_not_atomic_witness :
  getattr_filename 4%nat world_AB = (world_AB, Ret (Some "a"%string))
  /\ (files_done <$> list_at world_AB 0) = Some [(Some "a"%string, 6%nat); (Some "b"%string, 7%nat)]
  /\ snd (DynamicFileList.remove (dispatch 3) 0%nat 4%nat world_AB) = Raise ValueError
  /\ (files_done <$> list_at (fst (DynamicFileList.remove (dispatch 3) 0%nat 4%nat world_AB)) 0)
     = Some [(Some "b"%string, 7%nat)].
Proof.
  split; [reflexivity |]. split; [reflexivity |].
  destruct (remove_not_atomic 3 world_AB 0%nat _ _ 4%nat (Some "a"%string)
              eq_refl eq_refl eq_refl) as [HA _].
  assert (Hv : 4%nat ∉ [6%nat; 7%nat]).
  { intros H. apply elem_of_cons in H as [H | H]; [discriminate |].
    apply elem_of_cons in H as [H | H]; [discriminate |].
    apply elem_of_nil in H. exact H. }
  destruct (HA Hv) as [-> _]. split; reflexivity.
Defined.


(** ** The program at the inputs where it departs from the specification *)

(** C1, the code at the failing input. With the task future attached and
    a slot that wraps a future, setting the staging context twice makes
    [stage_out] run twice for that one slot, whose [staged] flag is false
    before and after. One context and one task future are enough: an
    insertion at index -1 stages the last slot again and leaves the
    inserted slot unstaged. *)
Theorem staging_runs_twice_for_one_slot :
  snd (scenario_restage empty_world) = Ret tt
  /\ stage_out_count 4 (log (world_after scenario_restage)) = 2%nat
  /\ DynamicFileList.DynamicFile.staged 4%nat (world_after scenario_restage)
     = (world_after scenario_restage, Ret false)
  /\ snd (scenario_insert empty_world) = Ret tt
  /\ (items <$> list_at (world_after scenario_insert) 0) = Some [8; 6]%nat
  /\ stage_out_count 6 (log (world_after scenario_insert)) = 2%nat
  /\ stage_out_count 8 (log (world_after scenario_insert)) = 0%nat.
Proof. vm_compute. repeat split. Qed.

(** C3, the code at the failing input. After [append] of a bare artifact
    and [set_parent(T)], the call has raised [TypeError] (the construction
    of the [DataFuture] lacks its [dfk] argument), the slot still holds the
    bare artifact, and its [done()] is true while [T] is pending. *)
Theorem set_parent_leaves_slot_concrete :
  snd (scenario_promote empty_world) = Raise TypeError
  /\ (parent <$> list_at (world_after scenario_promote) 0) = Some (Some 2%nat)
  /\ wrapper_at (world_after scenario_promote) 3
     = Some (mkDynamicFile false 0%nat (Some 1%nat) false false)
  /\ DynamicFileList.DynamicFile.done 3%nat (world_after scenario_promote)
     = (world_after scenario_promote, Ret true)
  /\ Future.done 2%nat (world_after scenario_promote)
     = (world_after scenario_promote, Ret false).
Proof. vm_compute. repeat split. Qed.

(** C5, the code at the failing input. With the task future attached, the
    first write of a bare artifact to the empty slot 0 raises [TypeError];
    the slot stays empty, nothing is registered and the high-water mark
    stays at -1; a further attempt fails in the same way. *)
Theorem first_write_fails_with_parent_attached :
  snd (scenario_write empty_world) = Raise TypeError
  /\ wrapper_at (world_after scenario_write) 3 = Some (mkDynamicFile false 0%nat None true false)
  /\ (files_done <$> list_at (world_after scenario_write) 0) = Some []
  /\ (_last_idx <$> list_at (world_after scenario_write) 0) = Some (-1)
  /\ snd (DynamicFileList.__setitem__ D3 0%nat 0 2%nat (world_after scenario_write))
     = Raise TypeError.
Proof. vm_compute. repeat split. Qed.

(** C6, the code at the failing input. On a list that holds a bare
    artifact the first [set_parent] raises [TypeError] after it has
    attached the future, and the second raises [ValueError]: no call
    succeeds, and no slot is promoted. *)
Theorem set_parent_succeeds_never :
  snd (scenario_promote empty_world) = Raise TypeError
  /\ snd (DynamicFileList.set_parent D3 0%nat 2%nat (world_after scenario_promote))
     = Raise ValueError
  /\ (_is_df <$> wrapper_at (world_after scenario_promote) 3) = Some false
  /\ (_done_callbacks <$> future_at (world_after scenario_promote) 2)
     = Some [CbDynamicFileList 0%nat].
Proof. vm_compute. repeat split. Qed.

(** ** Failure of the producing task *)

Global Instance settles_preorder E : PreOrder (settles E).
Proof.
  split.
  - intros w. split; [reflexivity |]. intros r [f | b i] H.
    + exists f. exact H.
    + exists b. split; [exact H |]. split; [reflexivity |]. right. left. split; reflexivity.
  - intros w1 w2 w3 [L12 H12] [L23 H23]. split; [congruence |].
    intros r [f | b i] H.
    + destruct (H12 _ _ H) as [f2 H2]. exact (H23 _ _ H2).
    + destruct (H12 _ _ H) as (b2 & H2 & C2 & S2).
      destruct (H23 _ _ H2) as (b3 & H3 & C3 & S3).
      exists b3. split; [exact H3 |]. split; [congruence |].
      destruct S2 as [S2 | [[S2 X2] | (P2 & F2 & X2)]]; [left; exact S2 | |].
      * destruct S3 as [S3 | [[S3 X3] | (P3 & F3 & X3)]]; [left; exact S3 | |].
        -- right. left. split; congruence.
        -- right. right. repeat split; congruence.
      * destruct S3 as [S3 | [[S3 X3] | (P3 & F3 & X3)]]; [left; exact S3 | |].
        -- right. right. repeat split; congruence.
        -- congruence.
Qed.

Lemma settles_trans E w1 w2 w3 : settles E w1 w2 -> settles E w2 w3 -> settles E w1 w3.
Proof. apply (@PreOrder_Transitive _ _ (settles_preorder E)). Qed.

Lemma settles_refl E w : settles E w w.
Proof. apply (@PreOrder_Reflexive _ _ (settles_preorder E)). Qed.

Lemma settles_log E w l : settles E w (with_log l w).
Proof. change (settles E w (mkWorld (heap w) l (clock w))). split; [reflexivity |].
  intros r [f | b i] H; simpl; eauto 10. Qed.

Lemma settles_clock E w c : settles E w (with_clock c w).
Proof. split; [reflexivity |]. intros r [f | b i] H; simpl; eauto 10. Qed.

Lemma settles_store_file E w r f f' :
  heap w !! r = Some (OFile f) ->
  settles E w (with_heap (<[r := OFile f']> (heap w)) w).
Proof.
  intros Hr. split; [simpl; apply length_insert |].
  intros r0 o H. simpl. destruct (decide (r = r0)) as [<- | Hne].
  - rewrite Hr in H. injection H as <-.
    exists f'. apply list_lookup_insert_eq. eapply lookup_lt_Some; eassumption.
  - rewrite list_lookup_insert_ne by assumption.
    destruct o as [f0 | b i]; eauto 10.
Qed.

Lemma settles_store_future E w r b i b' :
  heap w !! r = Some (OFuture b i) ->
  _done_callbacks b' = _done_callbacks b ->
  (is_DynamicFile (OFuture b i) = true
   \/ (_state b' = _state b /\ _exception b' = _exception b)
   \/ (_state b <> FINISHED /\ _state b' = FINISHED /\ _exception b' = Some E)) ->
  settles E w (with_heap (<[r := OFuture b' i]> (heap w)) w).
Proof.
  intros Hr Hc Hs. split; [simpl; apply length_insert |].
  intros r0 o H. simpl. destruct (decide (r = r0)) as [<- | Hne].
  - rewrite Hr in H. injection H as <-.
    exists b'. split; [apply list_lookup_insert_eq; eapply lookup_lt_Some; eassumption |].
    split; assumption.
  - rewrite list_lookup_insert_ne by assumption.
    destruct o as [f0 | b0 i0]; eauto 10.
Qed.

Lemma settles_future E w w' r b i :
  settles E w w' -> heap w !! r = Some (OFuture b i) ->
  exists b', heap w' !! r = Some (OFuture b' i) /\ _done_callbacks b' = _done_callbacks b.
Proof.
  intros [_ H] Hr. destruct (H _ _ Hr) as (b' & H' & C & _). eauto.
Qed.

Lemma settles_file E w w' r f :
  settles E w w' -> heap w !! r = Some (OFile f) -> exists f', heap w' !! r = Some (OFile f').
Proof. intros [_ H] Hr. exact (H _ _ Hr). Qed.

Lemma settles_is_Some E w w' r :
  settles E w w' -> is_Some (heap w !! r) -> is_Some (heap w' !! r).
Proof.
  intros [L _] H. apply lookup_lt_is_Some in H. apply lookup_lt_is_Some. lia.
Qed.

Lemma wrapper_ready_settles E w w' s :
  settles E w w' -> wrapper_ready w s = true -> wrapper_ready w' s = true.
Proof.
  intros S. unfold wrapper_ready.
  destruct (heap w !! s) as [[f | b []] |] eqn:Hs; try discriminate.
  destruct (settles_future _ _ _ _ _ _ S Hs) as (b' & -> & C).
  unfold no_callbacks. rewrite C. intros H.
  apply andb_prop in H as [H H3]. apply andb_prop in H as [H1 H2].
  rewrite H1. simpl.
  destruct (heap w !! dyn_parent a) as [op |] eqn:Hp; [| discriminate].
  destruct (settles_is_Some _ _ _ (dyn_parent a) S) as [op' ->]; [eauto |]. simpl.
  destruct (dyn_file_obj a) as [r |]; [| reflexivity].
  destruct (heap w !! r) as [[f | br ir] |] eqn:Hr; [| | discriminate].
  - destruct (settles_file _ _ _ _ _ S Hr) as [f' ->]. reflexivity.
  - destruct (settles_future _ _ _ _ _ _ S Hr) as (br' & -> & _).
    destruct ir; try reflexivity.
    destruct (heap w !! df_file_obj a0) as [[f | ? ?] |] eqn:Hf; try discriminate.
    destruct (settles_file _ _ _ _ _ S Hf) as [f' ->]. reflexivity.
Qed.

Lemma callback_ready_settles E w w' cb :
  settles E w w' -> callback_ready w cb = true -> callback_ready w' cb = true.
Proof.
  intros S. destruct cb as [d | s | l]; simpl; [| discriminate |].
  - destruct (heap w !! d) as [[f | b []] |] eqn:Hd; try discriminate.
    destruct (settles_future _ _ _ _ _ _ S Hd) as (b' & -> & C).
    unfold no_callbacks. rewrite C. trivial.
  - destruct (heap w !! l) as [[f | b []] |] eqn:Hl; try discriminate.
    destruct (settles_future _ _ _ _ _ _ S Hl) as (b' & -> & C).
    rewrite C. intros H. apply forallb_forall. intros cb Hin.
    rewrite forallb_forall in H. specialize (H _ Hin).
    destruct cb; try discriminate. eapply wrapper_ready_settles; eassumption.
Qed.

Lemma setattr_timestamp_settles E x v w :
  file_ready w x = true ->
  exists w' o, setattr_timestamp x v w = (w', o) /\ completes o /\ settles E w w'
               /\ forall r b i, heap w !! r = Some (OFuture b i) ->
                                heap w' !! r = Some (OFuture b i).
Proof.
  unfold file_ready, setattr_timestamp. destruct x as [r |].
  2:{ intros _. eexists _, _. split; [reflexivity |]. split; [exact I |].
      split; [apply settles_refl | auto]. }
  unfold bind, lookup_obj.
  destruct (heap w !! r) as [[f | b i] |] eqn:Hr; [| | discriminate].
  - intros _. eexists _, _. split; [reflexivity |]. split; [exact I |].
    split; [eapply settles_store_file; eassumption |].
    intros r0 b0 i0 H0. simpl. rewrite list_lookup_insert_ne by congruence. exact H0.
  - destruct i; try (intros _; eexists _, _; split; [reflexivity |]; split; [exact I |];
                     split; [apply settles_refl | auto]).
    destruct (heap w !! df_file_obj a) as [[f | ? ?] |] eqn:Hf; try discriminate.
    intros _. eexists _, _. split; [reflexivity |]. split; [exact I |].
    split; [eapply settles_store_file; eassumption |].
    intros r0 b0 i0 H0. simpl. rewrite list_lookup_insert_ne by congruence. exact H0.
Qed.

Lemma set_result_wrapper E D w s b a res :
  heap w !! s = Some (OFuture b (IDynamicFile a)) ->
  no_callbacks b = true ->
  exists w' o, Future.set_result D s res w = (w', o) /\ completes o /\ settles E w w'.
Proof.
  intros Hs Hc. unfold Future.set_result.
  rewrite (bind_Ret _ _ _ _ _ (get_base_Some _ _ _ _ Hs)).
  assert (Hlt : (s < length (heap w))%nat) by (eapply lookup_lt_Some; eassumption).
  assert (K : forall st, _state b = st -> st <> FINISHED ->
     exists w' o,
       (do _ <- upd_base s (fun b => with_state FINISHED (with_result res b));
        Future._invoke_callbacks D s) w = (w', o) /\ completes o /\ settles E w w').
  { intros st _ _. unfold bind at 1. rewrite (upd_base_Some _ _ _ _ _ Hs).
    set (w1 := with_heap _ w).
    assert (H1 : heap w1 !! s
                 = Some (OFuture (with_state FINISHED (with_result res b)) (IDynamicFile a)))
      by (subst w1; simpl; apply list_lookup_insert_eq; assumption).
    unfold Future._invoke_callbacks.
    rewrite (bind_Ret _ _ _ _ _ (get_base_Some _ _ _ _ H1)).
    cbn [_done_callbacks with_state with_result].
    unfold no_callbacks in Hc. destruct (_done_callbacks b); [| discriminate].
    eexists _, _. split; [reflexivity |]. split; [exact I |].
    subst w1. eapply settles_store_future; [eassumption | reflexivity | left; reflexivity]. }
  destruct (_state b) eqn:Est.
  - eapply K; [reflexivity | discriminate].
  - eapply K; [reflexivity | discriminate].
  - eexists _, _. split; [reflexivity |]. split; [exact I | apply settles_refl].
Qed.

Lemma wrapper_callback_settles E D w s l bl al :
  heap w !! l = Some (OFuture bl (IDynamicFileList al)) ->
  wrapper_ready w s = true ->
  exists w' o, DynamicFileList.DynamicFile.parent_callback D s l w = (w', o)
               /\ completes o /\ settles E w w'.
Proof.
  intros Hl Hr.
  unfold DynamicFileList.DynamicFile.parent_callback,
    DynamicFileList.DynamicFile.exception_of.
  unfold bind at 1. rewrite (bind_Ret _ _ _ _ _ (lookup_obj_Some _ _ _ Hl)).
  cbn [DynamicFileList.exception ret].
  unfold bind at 1. unfold datetime_now at 1.
  set (w1 := with_clock _ w).
  assert (S1 : settles E w w1) by apply settles_clock.
  unfold wrapper_ready in Hr.
  destruct (heap w !! s) as [[f | b []] |] eqn:Hs; try discriminate.
  apply andb_prop in Hr as [Hr H3]. apply andb_prop in Hr as [H1 H2].
  assert (Hs1 : heap w1 !! s = Some (OFuture b (IDynamicFile a))) by exact Hs.
  rewrite (bind_Ret _ _ _ _ _ (get_dyn_Some _ _ _ _ Hs1)).
  destruct (setattr_timestamp_settles E (dyn_file_obj a) (clock w) w1 H3)
    as (w2 & o2 & Hrun2 & C2 & S2 & F2).
  unfold bind at 1. rewrite Hrun2.
  destruct o2 as [[] | e | st]; [| | destruct C2].
  2:{ eexists _, _. split; [reflexivity |]. split; [exact I |].
      exact (settles_trans _ _ _ _ S1 S2). }
  assert (Hp : is_Some (heap w2 !! dyn_parent a)).
  { eapply settles_is_Some; [exact S2 |].
    destruct (heap w !! dyn_parent a) eqn:Hp; [| discriminate]. exists o. exact Hp. }
  destruct Hp as [op Hp].
  unfold get_list. unfold bind at 1. rewrite (bind_Ret _ _ _ _ _ (lookup_obj_Some _ _ _ Hp)).
  assert (Sraise : forall e, exists w' o, (w2, @Raise unit e) = (w', o) /\ completes o
                                          /\ settles E w w').
  { intros e. eexists _, _. split; [reflexivity |]. split; [exact I |].
    exact (settles_trans _ _ _ _ S1 S2). }
  destruct op as [f | bp []]; try apply Sraise.
  cbn [ret]. destruct (dataflow a0); [| apply Sraise].
  unfold bind at 1. unfold emit at 1.
  set (w3 := with_log _ w2).
  assert (S3 : settles E w2 w3) by apply settles_log.
  assert (Hs3 : heap w3 !! s = Some (OFuture b (IDynamicFile a))) by (apply F2; exact Hs1).
  destruct (set_result_wrapper E D w3 s b a (dyn_file_obj a) Hs3 H1)
    as (w4 & o4 & Hrun4 & C4 & S4).
  rewrite Hrun4. exists w4, o4. split; [reflexivity |]. split; [exact C4 |].
  exact (settles_trans _ _ _ _ S1 (settles_trans _ _ _ _ S2 (settles_trans _ _ _ _ S3 S4))).
Qed.

(** The callbacks of a list whose future has just failed. *)
Lemma list_callbacks_settle E k l cbs : forall w bl al,
  heap w !! l = Some (OFuture bl (IDynamicFileList al)) ->
  forallb (fun cb => match cb with
                     | CbDynamicFile s => wrapper_ready w s
                     | _ => false
                     end) cbs = true ->
  exists w', for_each cbs (fun cb => try_log (fire (dispatch (S k)) cb l)) w = (w', Ret tt)
             /\ settles E w w'.
Proof.
  induction cbs as [| cb cbs IH]; intros w bl al Hl Hall.
  - exists w. split; [reflexivity | apply settles_refl].
  - simpl in Hall. apply andb_prop in Hall as [Hcb Hall].
    destruct cb as [? | s | ?]; try discriminate.
    cbn [for_each].
    destruct (wrapper_callback_settles E (dispatch k) w s l bl al Hl Hcb)
      as (w1 & o1 & Hrun1 & C1 & S1).
    assert (Htry : try_log (fire (dispatch (S k)) (CbDynamicFile s) l) w = (w1, Ret tt)).
    { unfold try_log. cbn [fire dispatch]. rewrite Hrun1.
      destruct o1 as [[] | e | st]; [reflexivity | reflexivity | destruct C1]. }
    rewrite (bind_Ret _ _ _ _ _ Htry).
    destruct (settles_future _ _ _ _ _ _ S1 Hl) as (bl1 & Hl1 & _).
    assert (Hall1 : forallb (fun cb => match cb with
                                       | CbDynamicFile s => wrapper_ready w1 s
                                       | _ => false
                                       end) cbs = true).
    { apply forallb_forall. intros cb Hin. rewrite forallb_forall in Hall.
      specialize (Hall _ Hin). destruct cb; try discriminate.
      eapply wrapper_ready_settles; eassumption. }
    destruct (IH w1 _ _ Hl1 Hall1) as (w' & Hrun & S').
    exists w'. split; [exact Hrun | exact (settles_trans _ _ _ _ S1 S')].
Qed.

Lemma callback_ready_target w cb :
  callback_ready w cb = true ->
  exists b i, heap w !! target cb = Some (OFuture b i) /\ is_DynamicFile (OFuture b i) = false.
Proof.
  destruct cb as [d | s | l]; simpl; [| discriminate |].
  - destruct (heap w !! d) as [[f | b []] |]; try discriminate. eauto.
  - destruct (heap w !! l) as [[f | b []] |]; try discriminate. eauto.
Qed.

Lemma failed_stable E w w' r b i :
  settles E w w' ->
  heap w !! r = Some (OFuture b i) -> is_DynamicFile (OFuture b i) = false ->
  failed w r E -> failed w' r E.
Proof.
  intros [_ S] Hr Hk (b0 & Hb & Hs & He).
  unfold future_at in Hb. rewrite Hr in Hb. injection Hb as <-.
  destruct (S _ _ Hr) as (b' & Hr' & _ & [K | [[K1 K2] | [K _]]]); [congruence | | congruence].
  exists b'. unfold future_at. rewrite Hr'. repeat split; congruence.
Qed.

Lemma pending_settles E w w' r b i :
  settles E w w' ->
  heap w !! r = Some (OFuture b i) -> is_DynamicFile (OFuture b i) = false ->
  pending w r -> pending w' r \/ failed w' r E.
Proof.
  intros [_ S] Hr Hk (b0 & Hb & Hs).
  unfold future_at in Hb. rewrite Hr in Hb. injection Hb as <-.
  destruct (S _ _ Hr) as (b' & Hr' & _ & [K | [[K1 K2] | (_ & K1 & K2)]]); [congruence | |].
  - left. exists b'. unfold future_at. rewrite Hr'. split; congruence.
  - right. exists b'. unfold future_at. rewrite Hr'. repeat split; congruence.
Qed.

Lemma try_log_completes (m : M unit) w w' o :
  m w = (w', o) -> completes o -> try_log m w = (w', Ret tt).
Proof.
  intros H C. unfold try_log. rewrite H.
  destruct o as [[] | e | st]; [reflexivity | reflexivity | destruct C].
Qed.

Lemma task_callback_settles E k w T bT aT cb :
  heap w !! T = Some (OFuture bT (IAppFuture aT)) ->
  _state bT = FINISHED ->
  _exception bT = Some E ->
  callback_ready w cb = true ->
  exists w', try_log (fire (dispatch (S (S k))) cb T) w = (w', Ret tt)
             /\ settles E w w'
             /\ (pending w (target cb) -> failed w' (target cb) E).
Proof.
  intros HT Hst Hex Hcb.
  enough (exists w' o, fire (dispatch (S (S k))) cb T w = (w', o) /\ completes o
                       /\ settles E w w'
                       /\ (pending w (target cb) -> failed w' (target cb) E))
    as (w' & o & Hrun & C & S & P)
    by (exists w'; split; [eapply try_log_completes; eassumption | split; assumption]).
  destruct cb as [d | s | l]; simpl in Hcb; [| discriminate |].
  - destruct (heap w !! d) as [[f | b []] |] eqn:Hd; try discriminate.
    assert (Hlt : (d < length (heap w))%nat) by (eapply lookup_lt_Some; eassumption).
    change (fire (dispatch (S (S k))) (CbDataFuture d) T)
      with (DataFuture.parent_callback (dispatch (S k)) d T).
    cbn [target]. unfold DataFuture.parent_callback.
    rewrite (bind_Ret _ _ _ _ _ (get_base_Some _ _ _ _ HT)), Hex.
    unfold Future.set_exception.
    rewrite (bind_Ret _ _ _ _ _ (get_base_Some _ _ _ _ Hd)).
    assert (K : _state b <> FINISHED ->
      exists w' o,
        (do _ <- upd_base d (fun b => with_state FINISHED (with_exception (Some E) b));
         Future._invoke_callbacks (dispatch (S k)) d) w = (w', o)
        /\ completes o /\ settles E w w' /\ (pending w d -> failed w' d E)).
    { intros Hp. unfold bind at 1. rewrite (upd_base_Some _ _ _ _ _ Hd).
      set (w1 := with_heap _ w).
      assert (H1 : heap w1 !! d
                   = Some (OFuture (with_state FINISHED (with_exception (Some E) b))
                             (IDataFuture a)))
        by (subst w1; simpl; apply list_lookup_insert_eq; assumption).
      unfold Future._invoke_callbacks.
      rewrite (bind_Ret _ _ _ _ _ (get_base_Some _ _ _ _ H1)).
      cbn [_done_callbacks with_state with_exception].
      unfold no_callbacks in Hcb. destruct (_done_callbacks b) eqn:Ecb; [| discriminate].
      exists w1, (Ret tt). split; [reflexivity |]. split; [exact I |]. split.
      - subst w1. eapply settles_store_future; [eassumption | simpl; congruence |].
        right. right. repeat split. assumption.
      - intros _. eexists. unfold future_at. rewrite H1. repeat split. }
    destruct (_state b) eqn:Est.
    + apply K. discriminate.
    + apply K. discriminate.
    + exists w, (Raise InvalidStateError). split; [reflexivity |]. split; [exact I |].
      split; [apply settles_refl |].
      intros (b0 & Hb & Hs). unfold future_at in Hb. rewrite Hd in Hb. congruence.
  - destruct (heap w !! l) as [[f | b []] |] eqn:Hl; try discriminate.
    assert (Hlt : (l < length (heap w))%nat) by (eapply lookup_lt_Some; eassumption).
    change (fire (dispatch (S (S k))) (CbDynamicFileList l) T)
      with (DynamicFileList.parent_callback (dispatch (S k)) l T).
    cbn [target]. unfold DynamicFileList.parent_callback.
    unfold DynamicFileList.DynamicFile.exception_of.
    unfold bind at 1. rewrite (bind_Ret _ _ _ _ _ (lookup_obj_Some _ _ _ HT)).
    unfold Future.exception.
    rewrite (bind_Ret _ _ _ _ _ (get_base_Some _ _ _ _ HT)), Hst, Hex. cbn [ret].
    unfold Future.set_exception.
    rewrite (bind_Ret _ _ _ _ _ (get_base_Some _ _ _ _ Hl)).
    assert (K : _state b <> FINISHED ->
      exists w' o,
        (do _ <- upd_base l (fun b => with_state FINISHED (with_exception (Some E) b));
         Future._invoke_callbacks (dispatch (S k)) l) w = (w', o)
        /\ completes o /\ settles E w w' /\ (pending w l -> failed w' l E)).
    { intros Hp. unfold bind at 1. rewrite (upd_base_Some _ _ _ _ _ Hl).
      set (w1 := with_heap _ w).
      assert (H1 : heap w1 !! l
                   = Some (OFuture (with_state FINISHED (with_exception (Some E) b))
                             (IDynamicFileList a)))
        by (subst w1; simpl; apply list_lookup_insert_eq; assumption).
      assert (S1 : settles E w w1).
      { subst w1. eapply settles_store_future; [eassumption | reflexivity |].
        right. right. repeat split. assumption. }
      unfold Future._invoke_callbacks.
      rewrite (bind_Ret _ _ _ _ _ (get_base_Some _ _ _ _ H1)).
      cbn [_done_callbacks with_state with_exception].
      assert (Hall1 : forallb (fun cb => match cb with
                                         | CbDynamicFile s => wrapper_ready w1 s
                                         | _ => false
                                         end) (_done_callbacks b) = true).
      { apply forallb_forall. intros cb Hin. rewrite forallb_forall in Hcb.
        specialize (Hcb _ Hin). destruct cb; try discriminate.
        eapply wrapper_ready_settles; eassumption. }
      destruct (list_callbacks_settle E k l _ w1 _ _ H1 Hall1) as (w2 & Hrun & S2).
      rewrite Hrun. exists w2, (Ret tt). split; [reflexivity |]. split; [exact I |]. split.
      - exact (settles_trans _ _ _ _ S1 S2).
      - intros _. eapply failed_stable; [exact S2 | exact H1 | reflexivity |].
        eexists. unfold future_at. rewrite H1. repeat split. }
    destruct (_state b) eqn:Est.
    + apply K. discriminate.
    + apply K. discriminate.
    + exists w, (Raise InvalidStateError). split; [reflexivity |]. split; [exact I |].
      split; [apply settles_refl |].
      intros (b0 & Hb & Hs). unfold future_at in Hb. rewrite Hl in Hb. congruence.
Qed.

Lemma task_callbacks_settle E k T aT cbs : forall w bT,
  heap w !! T = Some (OFuture bT (IAppFuture aT)) ->
  _state bT = FINISHED ->
  _exception bT = Some E ->
  forallb (callback_ready w) cbs = true ->
  exists w',
    for_each cbs (fun cb => try_log (fire (dispatch (S (S k))) cb T)) w = (w', Ret tt)
    /\ settles E w w'
    /\ forall cb, In cb cbs -> pending w (target cb) -> failed w' (target cb) E.
Proof.
  induction cbs as [| cb cbs IH]; intros w bT HT Hst Hex Hall.
  - exists w. split; [reflexivity |]. split; [apply settles_refl |]. intros cb [].
  - simpl in Hall. apply andb_prop in Hall as [Hcb Hall].
    cbn [for_each].
    destruct (task_callback_settles E k w T bT aT cb HT Hst Hex Hcb) as (w1 & Hrun1 & S1 & P1).
    rewrite (bind_Ret _ _ _ _ _ Hrun1).
    destruct (proj2 S1 _ _ HT) as (bT1 & HT1 & _ & K).
    assert (Hk : _state bT1 = FINISHED /\ _exception bT1 = Some E).
    { destruct K as [K | [[K1 K2] | [K _]]]; [discriminate | split; congruence | congruence]. }
    destruct Hk as [Hst1 Hex1].
    assert (Hall1 : forallb (callback_ready w1) cbs = true).
    { apply forallb_forall. intros c Hin. rewrite forallb_forall in Hall.
      eapply callback_ready_settles; [exact S1 | auto]. }
    destruct (IH w1 bT1 HT1 Hst1 Hex1 Hall1) as (w' & Hrun & S' & P').
    exists w'. split; [exact Hrun |]. split; [exact (settles_trans _ _ _ _ S1 S') |].
    intros c [<- | Hin] Hp.
    + destruct (callback_ready_target _ _ (callback_ready_settles _ _ _ _ S1 Hcb))
        as (b & i & Hb & Hi).
      eapply failed_stable; [exact S' | exact Hb | exact Hi | auto].
    + rewrite forallb_forall in Hall.
      destruct (callback_ready_target _ _ (Hall _ Hin)) as (b & i & Hb & Hi).
      destruct (pending_settles _ _ _ _ _ _ S1 Hb Hi Hp) as [Hp1 | Hf1]; [auto |].
      destruct (callback_ready_target _ _ (callback_ready_settles _ _ _ _ S1 (Hall _ Hin)))
        as (b1 & i1 & Hb1 & Hi1).
      eapply failed_stable; [exact S' | exact Hb1 | exact Hi1 | exact Hf1].
Qed.

(** C2, amended. When the future [T] of the producing task is pending and
    fails with [E], and what is registered on it are futures of artifacts
    and lists with their wrappers, [set_exception] returns; [T] holds [E];
    the list [l] registered on [T] keeps its attributes, its slots among
    them, and its inherited future state now holds [E]; the future wrapped
    by a slot of [l] and registered on [T] holds [E]. Yet [result()] on
    the list returns the list and [exception()] on it returns [None]. *)
Theorem failure_propagates E n w T bT aT l bl al :
  heap w !! T = Some (OFuture bT (IAppFuture aT)) ->
  _state bT <> FINISHED ->
  forallb (callback_ready w) (_done_callbacks bT) = true ->
  heap w !! l = Some (OFuture bl (IDynamicFileList al)) ->
  In (CbDynamicFileList l) (_done_callbacks bT) ->
  _state bl <> FINISHED ->
  exists w' bl',
    Future.set_exception (dispatch (S (S n))) T E w = (w', Ret tt)
    /\ failed w' T E
    /\ heap w' !! l = Some (OFuture bl' (IDynamicFileList al))
    /\ _state bl' = FINISHED /\ _exception bl' = Some E
    /\ (forall s bs ws d,
          In s (items al) ->
          heap w !! s = Some (OFuture bs (IDynamicFile ws)) ->
          dyn_file_obj ws = Some d ->
          In (CbDataFuture d) (_done_callbacks bT) ->
          pending w d ->
          failed w' d E
          /\ exists bs', heap w' !! s = Some (OFuture bs' (IDynamicFile ws)))
    /\ DynamicFileList.result l None w' = (w', Ret l)
    /\ DynamicFileList.exception l None w' = (w', Ret None).
Proof.
  intros HT Hp Hall Hl Hin Hpl.
  assert (Hlt : (T < length (heap w))%nat) by (eapply lookup_lt_Some; eassumption).
  unfold Future.set_exception.
  rewrite (bind_Ret _ _ _ _ _ (get_base_Some _ _ _ _ HT)).
  assert (K : exists w' bl',
    (do _ <- upd_base T (fun b => with_state FINISHED (with_exception (Some E) b));
     Future._invoke_callbacks (dispatch (S (S n))) T) w = (w', Ret tt)
    /\ failed w' T E
    /\ heap w' !! l = Some (OFuture bl' (IDynamicFileList al))
    /\ _state bl' = FINISHED /\ _exception bl' = Some E
    /\ (forall s bs ws d,
          In s (items al) ->
          heap w !! s = Some (OFuture bs (IDynamicFile ws)) ->
          dyn_file_obj ws = Some d ->
          In (CbDataFuture d) (_done_callbacks bT) ->
          pending w d ->
          failed w' d E
          /\ exists bs', heap w' !! s = Some (OFuture bs' (IDynamicFile ws)))
    /\ DynamicFileList.result l None w' = (w', Ret l)
    /\ DynamicFileList.exception l None w' = (w', Ret None)).
  { unfold bind at 1. rewrite (upd_base_Some _ _ _ _ _ HT).
    set (w1 := with_heap _ w).
    assert (H1 : heap w1 !! T
                 = Some (OFuture (with_state FINISHED (with_exception (Some E) bT))
                           (IAppFuture aT)))
      by (subst w1; simpl; apply list_lookup_insert_eq; assumption).
    assert (S1 : settles E w w1).
    { subst w1. eapply settles_store_future; [eassumption | reflexivity |].
      right. right. repeat split. assumption. }
    unfold Future._invoke_callbacks.
    rewrite (bind_Ret _ _ _ _ _ (get_base_Some _ _ _ _ H1)).
    cbn [_done_callbacks with_state with_exception].
    assert (Hall1 : forallb (callback_ready w1) (_done_callbacks bT) = true).
    { apply forallb_forall. intros c Hc. rewrite forallb_forall in Hall.
      eapply callback_ready_settles; [exact S1 | auto]. }
    destruct (task_callbacks_settle E n T aT (_done_callbacks bT) w1 _ H1 eq_refl eq_refl Hall1)
      as (w' & Hrun & S' & P').
    assert (TNE : T <> l) by (intros ->; congruence).
    assert (Hl1 : heap w1 !! l = Some (OFuture bl (IDynamicFileList al))).
    { subst w1. simpl. rewrite list_lookup_insert_ne by exact TNE. exact Hl. }
    assert (Fl : failed w' l E).
    { apply (P' _ Hin). exists bl. unfold future_at. cbn [target]. rewrite Hl1. auto. }
    destruct (settles_future _ _ _ _ _ _ S' Hl1) as (bl' & Hl' & _).
    exists w', bl'. split; [exact Hrun |]. split.
    { eapply failed_stable; [exact S' | exact H1 | reflexivity |].
      eexists. unfold future_at. rewrite H1. repeat split. }
    split; [exact Hl' |].
    destruct Fl as (b0 & Hb0 & Hs0 & He0). unfold future_at in Hb0. rewrite Hl' in Hb0.
    injection Hb0 as <-.
    split; [exact Hs0 |]. split; [exact He0 |]. split; [| split; reflexivity].
    intros s bs ws d Hs Hws Hd Hcb Hpd. split.
    - apply (P' _ Hcb). cbn [target].
      destruct Hpd as (bd & Hbd & Hsd). unfold future_at in Hbd.
      destruct (heap w !! d) as [[f | bd0 id] |] eqn:Ed; try discriminate.
      injection Hbd as ->.
      destruct (decide (d = T)) as [-> | NE].
      + exfalso. rewrite forallb_forall in Hall. specialize (Hall _ Hcb).
        simpl in Hall. rewrite HT in Hall. discriminate.
      + exists bd. unfold future_at. subst w1. simpl.
        rewrite list_lookup_insert_ne by (intros ->; apply NE; reflexivity).
        rewrite Ed. auto.
    - destruct (settles_future _ _ _ _ _ _ (settles_trans _ _ _ _ S1 S') Hws) as (bs' & Hbs' & _).
      exists bs'. exact Hbs'. }
  destruct (_state bT) eqn:Est; [exact K | exact K | congruence].
Qed.

Lemma failure_propagates_witness :
  exists w' bl',
    Future.set_exception D3 1%nat (TaskError 1) world_AB = (w', Ret tt)
    /\ failed w' 1%nat (TaskError 1)
    /\ (items <$> list_at w' 0) = Some [6; 7]%nat
    /\ future_at w' 0 = Some bl'
    /\ _exception bl' = Some (TaskError 1)
    /\ failed w' 4%nat (TaskError 1)
    /\ failed w' 5%nat (TaskError 1)
    /\ DynamicFileList.result 0%nat None w' = (w', Ret 0%nat).
Proof.
  destruct (failure_propagates (TaskError 1) 1 world_AB 1%nat _ _ 0%nat _ _
              eq_refl ltac:(discriminate) eq_refl eq_refl
              ltac:(right; right; left; reflexivity) ltac:(discriminate))
    as (w' & bl' & Hrun & HT & Hl & Hs & He & Hslots & Hres & _).
  exists w', bl'. split; [exact Hrun |]. split; [exact HT |].
  split; [unfold list_at; rewrite Hl; reflexivity |].
  split; [unfold future_at; rewrite Hl; reflexivity |].
  split; [exact He |].
  split.
  - refine (proj1 (Hslots 6%nat _ _ 4%nat ltac:(left; reflexivity) eq_refl eq_refl
                     ltac:(left; reflexivity) _)).
    eexists. split; [reflexivity | discriminate].
  - split; [| exact Hres].
    refine (proj1 (Hslots 7%nat _ _ 5%nat ltac:(right; left; reflexivity) eq_refl eq_refl
                     ltac:(right; left; reflexivity) _)).
    eexists. split; [reflexivity | discriminate].
Defined.


(** C2 as stated fails: in the world where the list holds the outputs A
    and B and the producing task has failed with [TaskError 1], the wrapped
    futures of both slots hold that failure, yet [result()] on the list
    does not raise it: it returns the list. *)
Lemma result_does_not_surface_failure :
  (items <$> list_at world_AB_failed 0) = Some [6; 7]%nat
  /\ (_exception <$> future_at world_AB_failed 1) = Some (Some (TaskError 1))
  /\ (_exception <$> future_at world_AB_failed 4) = Some (Some (TaskError 1))
  /\ (_exception <$> future_at world_AB_failed 5) = Some (Some (TaskError 1))
  /\ DynamicFileList.result 0%nat None world_AB_failed = (world_AB_failed, Ret 0%nat)
  /\ DynamicFileList.result 0%nat None world_AB_failed
     <> (world_AB_failed, Raise (TaskError 1)).
Proof. repeat split; discriminate. Qed.

(** ** Views *)

(** Slices with non-negative bounds and unit step *)

Lemma omap_lookup_seq (l : list nat) c : forall s,
  (s + c <= length l)%nat -> omap (fun i => l !! i) (seq s c) = take c (drop s l).
Proof.
  induction c as [| c IH]; intros s Hs; simpl.
  - reflexivity.
  - destruct (l !! s) as [x |] eqn:E.
    + rewrite (drop_S _ _ _ E). simpl. f_equal. apply IH. lia.
    + apply lookup_ge_None in E. lia.
Qed.

Lemma positions_unit_step start c :
  0 <= start ->
  map (fun i => Z.to_nat (start + Z.of_nat i * 1)) (seq 0 c) = seq (Z.to_nat start) c.
Proof.
  intros Hs. replace (seq (Z.to_nat start) c) with (seq (Z.to_nat start + 0) c)
    by (f_equal; lia).
  rewrite <- fmap_add_seq. apply map_ext. intros i. lia.
Qed.

Lemma list_getslice_open l a step w :
  0 <= a -> default 1 step = 1 ->
  list_getslice l (mkSlice (Some a) None step) w = (w, Ret (drop (Z.to_nat a) l)).
Proof.
  intros Ha Hstep. unfold list_getslice, slice_positions. cbn [sl_start sl_stop sl_step].
  rewrite Hstep. cbn [Z.eqb Z.ltb Z.compare].
  replace (a <? 0) with false by (symmetry; apply Z.ltb_ge; lia).
  set (n := Z.of_nat (length l)).
  assert (Hmin : 0 <= Z.min a n) by lia.
  replace (Z.to_nat (if Z.min a n <? n then (n - Z.min a n - 1) / 1 + 1 else 0))
    with (Z.to_nat (n - Z.min a n)).
  2:{ destruct (Z.ltb_spec (Z.min a n) n); [rewrite Z.div_1_r |]; lia. }
  rewrite positions_unit_step by assumption.
  rewrite omap_lookup_seq by lia.
  unfold ret. do 2 f_equal.
  destruct (Z.le_gt_cases n a).
  - rewrite Z.min_r by lia. replace (Z.to_nat (n - n)) with 0%nat by lia.
    rewrite !drop_ge by lia. reflexivity.
  - rewrite Z.min_l by lia. rewrite take_ge; [reflexivity |]. rewrite length_drop. lia.
Qed.

Lemma list_getslice_fixed l a b step w :
  0 <= a -> 0 <= b -> default 1 step = 1 ->
  list_getslice l (mkSlice (Some a) (Some b) step) w
  = (w, Ret (take (Z.to_nat (b - a)) (drop (Z.to_nat a) l))).
Proof.
  intros Ha Hb Hstep. unfold list_getslice, slice_positions. cbn [sl_start sl_stop sl_step].
  rewrite Hstep. cbn [Z.eqb Z.ltb Z.compare].
  replace (a <? 0) with false by (symmetry; apply Z.ltb_ge; lia).
  replace (b <? 0) with false by (symmetry; apply Z.ltb_ge; lia).
  set (n := Z.of_nat (length l)).
  assert (Hmin : 0 <= Z.min a n) by lia.
  replace (Z.to_nat (if Z.min a n <? Z.min b n
                     then (Z.min b n - Z.min a n - 1) / 1 + 1 else 0))
    with (Z.to_nat (Z.min b n - Z.min a n)).
  2:{ destruct (Z.ltb_spec (Z.min a n) (Z.min b n)); [rewrite Z.div_1_r |]; lia. }
  rewrite positions_unit_step by assumption.
  rewrite omap_lookup_seq by lia.
  unfold ret. do 2 f_equal.
  destruct (Z.le_gt_cases n a).
  - rewrite (drop_ge l (Z.to_nat a)) by lia. rewrite take_nil.
    rewrite (Z.min_r a n) by lia. rewrite drop_ge by lia. apply take_nil.
  - rewrite (Z.min_l a n) by lia.
    destruct (Z.le_gt_cases b n).
    + rewrite Z.min_l by lia. reflexivity.
    + rewrite Z.min_r by lia.
      rewrite !take_ge; [reflexivity | |]; rewrite length_drop; lia.
Qed.

(** Names of wrappers do not depend on the attributes of lists *)

Lemma filepath_chain_list_update n v b a b' a' h lg ck : forall r,
  h !! v = Some (OFuture b (IDynamicFileList a)) ->
  snd (filepath_chain n r (mkWorld (<[v := OFuture b' (IDynamicFileList a')]> h) lg ck))
  = snd (filepath_chain n r (mkWorld h lg ck)).
Proof.
  induction n as [| n IH]; intros r H; simpl; [reflexivity |].
  unfold bind, lookup_obj. simpl.
  destruct (decide (v = r)) as [<- | Hne].
  - rewrite list_lookup_insert_eq by (eapply lookup_lt_Some; eassumption).
    rewrite H. reflexivity.
  - rewrite list_lookup_insert_ne by assumption.
    destruct (h !! r) as [[f | bb []] |]; try reflexivity.
    + apply IH. assumption.
    + destruct (dyn_file_obj a0); [apply IH; assumption | reflexivity].
Qed.

Lemma getattr_filename_list_update v b a b' a' w f :
  heap w !! v = Some (OFuture b (IDynamicFileList a)) ->
  snd (getattr_filename f (with_heap (<[v := OFuture b' (IDynamicFileList a')]> (heap w)) w))
  = snd (getattr_filename f w).
Proof.
  intros H. destruct w as [h lg ck]. simpl in H.
  unfold getattr_filename, with_heap, bind, lookup_obj, getattr_filepath. simpl.
  destruct (decide (v = f)) as [<- | Hne].
  - rewrite list_lookup_insert_eq by (eapply lookup_lt_Some; eassumption).
    rewrite H. reflexivity.
  - rewrite list_lookup_insert_ne by assumption.
    destruct (h !! f) as [[fl | bb []] |]; try reflexivity.
    + cbn [heap]. rewrite length_insert.
      pose proof (filepath_chain_list_update (length h) v b a b' a' h lg ck (df_file_obj a0) H) as E.
      destruct (filepath_chain _ _ (mkWorld (<[_ := _]> h) lg ck)) as [w1 o1].
      destruct (filepath_chain _ _ (mkWorld h lg ck)) as [w2 o2].
      simpl in E. subst o2. destruct o1; reflexivity.
    + destruct (dyn_file_obj a0) as [fo |]; [| reflexivity].
      cbn [heap]. rewrite length_insert.
      pose proof (filepath_chain_list_update (length h) v b a b' a' h lg ck fo H) as E.
      destruct (filepath_chain _ _ (mkWorld (<[_ := _]> h) lg ck)) as [w1 o1].
      destruct (filepath_chain _ _ (mkWorld h lg ck)) as [w2 o2].
      simpl in E. subst o2. destruct o1; reflexivity.
Qed.

Lemma named_wrapper_list_update v b a b' a' w f :
  heap w !! v = Some (OFuture b (IDynamicFileList a)) ->
  named_wrapper w f ->
  named_wrapper (with_heap (<[v := OFuture b' (IDynamicFileList a')]> (heap w)) w) f.
Proof.
  intros H [Hk [k Hn]]. split.
  - simpl. destruct (decide (v = f)) as [<- | Hne].
    + rewrite H in Hk. discriminate.
    + rewrite list_lookup_insert_ne by assumption. exact Hk.
  - exists k. rewrite (getattr_filename_list_update _ _ _ _ _ _ _ H). exact Hn.
Qed.

Lemma extend_collect_wrappers D v fs : forall acc w b a,
  heap w !! v = Some (OFuture b (IDynamicFileList a)) ->
  Forall (named_wrapper w) fs ->
  exists fd,
    DynamicFileList.extend_collect D v fs acc w
    = (with_heap (<[v := OFuture b (IDynamicFileList (with_files_done fd a))]> (heap w)) w,
       Ret (acc ++ fs)).
Proof.
  induction fs as [| f fs IH]; intros acc w b a H Hall; simpl.
  - exists (files_done a). rewrite app_nil_r. unfold ret. do 2 f_equal.
    destruct w; unfold with_heap; simpl in *. f_equal.
    rewrite list_insert_id; [reflexivity |]. rewrite H. destruct a; reflexivity.
  - inversion Hall as [| ? ? [Hk [k Hn]] Hrest]; subst.
    destruct (heap w !! f) as [o |] eqn:Ef; [| discriminate].
    simpl in Hk. injection Hk as Hk.
    rewrite (bind_Ret _ _ _ _ _ (lookup_obj_Some _ _ _ Ef)).
    rewrite Hk. cbn [orb negb].
    unfold DynamicFileList.normalise.
    unfold bind at 1. rewrite (bind_Ret _ _ _ _ _ (lookup_obj_Some _ _ _ Ef)).
    rewrite Hk. cbn [ret].
    destruct (getattr_filename f w) as [w1 o1] eqn:En.
    pose proof (read_only_getattr_filename _ _ _ _ En) as ->.
    simpl in Hn. subst o1.
    unfold bind at 1. rewrite En.
    unfold bind at 1. unfold DynamicFileList.add_done_func.
    rewrite (upd_list_Some _ _ _ _ _ H).
    set (w1 := with_heap _ w).
    assert (H1 : heap w1 !! v
                 = Some (OFuture b (IDynamicFileList
                           (with_files_done (dict_set k f (files_done a)) a))))
      by (subst w1; simpl; apply list_lookup_insert_eq; eapply lookup_lt_Some; eassumption).
    assert (Hall1 : Forall (named_wrapper w1) fs).
    { eapply Forall_impl; [exact Hrest |]. intros x Hx.
      subst w1. apply named_wrapper_list_update with (b := b) (a := a); assumption. }
    destruct (IH (acc ++ [f]) w1 _ _ H1 Hall1) as [fd Hrun].
    exists fd. rewrite Hrun. subst w1. unfold with_heap. simpl.
    rewrite list_insert_insert_eq. rewrite <- app_assoc. reflexivity.
Qed.

Lemma stage_file_no_dataflow D v idx w b a :
  heap w !! v = Some (OFuture b (IDynamicFileList a)) ->
  dataflow a = None ->
  DynamicFileList.stage_file D v idx w = (w, Ret tt).
Proof.
  intros H Hd. unfold DynamicFileList.stage_file.
  rewrite (bind_Ret _ _ _ _ _ (get_list_Some _ _ _ _ H)), Hd. reflexivity.
Qed.

Lemma extend_count_loop D v (xs : list nat) : forall w b a,
  heap w !! v = Some (OFuture b (IDynamicFileList a)) ->
  dataflow a = None ->
  for_each xs
    (fun _ => do _ <- upd_list v (fun a => with_last_idx (_last_idx a + 1) a);
              do a <- get_list v;
              DynamicFileList.stage_file D v (_last_idx a)) w
  = (with_heap (<[v := OFuture b (IDynamicFileList
                   (with_last_idx (_last_idx a + Z.of_nat (length xs)) a))]> (heap w)) w,
     Ret tt).
Proof.
  induction xs as [| x xs IH]; intros w b a H Hd.
  - simpl. unfold ret. do 2 f_equal. destruct w; unfold with_heap; simpl in *. f_equal.
    rewrite list_insert_id; [reflexivity |]. rewrite H, Z.add_0_r. destruct a; reflexivity.
  - cbn [for_each]. unfold bind at 1. unfold bind at 1.
    rewrite (upd_list_Some _ _ _ _ _ H).
    set (w1 := with_heap _ w).
    assert (H1 : heap w1 !! v
                 = Some (OFuture b (IDynamicFileList (with_last_idx (_last_idx a + 1) a))))
      by (subst w1; simpl; apply list_lookup_insert_eq; eapply lookup_lt_Some; eassumption).
    rewrite (bind_Ret _ _ _ _ _ (get_list_Some _ _ _ _ H1)).
    rewrite (stage_file_no_dataflow _ _ _ _ _ _ H1 Hd).
    rewrite (IH _ _ _ H1 Hd). subst w1. unfold with_heap. simpl.
    rewrite list_insert_insert_eq. do 5 f_equal.
    destruct a; unfold with_last_idx; simpl. f_equal. lia.
Qed.

(** The first loop of [extend] stops at the first element whose name
    cannot be read; the names of the elements before it are registered by
    then. *)
Lemma extend_collect_stops D v pre f post e : forall acc w b a,
  heap w !! v = Some (OFuture b (IDynamicFileList a)) ->
  Forall (named_wrapper w) pre ->
  (is_DynamicFile <$> heap w !! f) = Some true ->
  snd (getattr_filename f w) = Raise e ->
  exists fd,
    DynamicFileList.extend_collect D v (pre ++ f :: post) acc w
    = (with_heap (<[v := OFuture b (IDynamicFileList (with_files_done fd a))]> (heap w)) w,
       Raise e).
Proof.
  induction pre as [| x pre IH]; intros acc w b a H Hall Hk Hn; simpl.
  - exists (files_done a).
    destruct (heap w !! f) as [o |] eqn:Ef; [| discriminate].
    simpl in Hk. injection Hk as Hk.
    rewrite (bind_Ret _ _ _ _ _ (lookup_obj_Some _ _ _ Ef)).
    rewrite Hk. cbn [orb negb].
    unfold DynamicFileList.normalise.
    unfold bind at 1. rewrite (bind_Ret _ _ _ _ _ (lookup_obj_Some _ _ _ Ef)).
    rewrite Hk. cbn [ret].
    destruct (getattr_filename f w) as [w1 o1] eqn:En.
    pose proof (read_only_getattr_filename _ _ _ _ En) as ->.
    simpl in Hn. subst o1.
    unfold bind at 1. rewrite En. f_equal.
    destruct w; unfold with_heap; simpl in *. f_equal.
    rewrite list_insert_id; [reflexivity |]. rewrite H. destruct a; reflexivity.
  - inversion Hall as [| ? ? [Hkx [k Hnx]] Hrest]; subst.
    destruct (heap w !! x) as [o |] eqn:Ex; [| discriminate].
    simpl in Hkx. injection Hkx as Hkx.
    rewrite (bind_Ret _ _ _ _ _ (lookup_obj_Some _ _ _ Ex)).
    rewrite Hkx. cbn [orb negb].
    unfold DynamicFileList.normalise.
    unfold bind at 1. rewrite (bind_Ret _ _ _ _ _ (lookup_obj_Some _ _ _ Ex)).
    rewrite Hkx. cbn [ret].
    destruct (getattr_filename x w) as [w1 o1] eqn:En.
    pose proof (read_only_getattr_filename _ _ _ _ En) as ->.
    simpl in Hnx. subst o1.
    unfold bind at 1. rewrite En.
    unfold bind at 1. unfold DynamicFileList.add_done_func.
    rewrite (upd_list_Some _ _ _ _ _ H).
    set (w1 := with_heap _ w).
    assert (H1 : heap w1 !! v
                 = Some (OFuture b (IDynamicFileList
                           (with_files_done (dict_set k x (files_done a)) a))))
      by (subst w1; simpl; apply list_lookup_insert_eq; eapply lookup_lt_Some; eassumption).
    assert (Hall1 : Forall (named_wrapper w1) pre).
    { eapply Forall_impl; [exact Hrest |]. intros y Hy.
      subst w1. apply named_wrapper_list_update with (b := b) (a := a); assumption. }
    assert (Hk1 : (is_DynamicFile <$> heap w1 !! f) = Some true).
    { subst w1. simpl. destruct (decide (v = f)) as [<- | Hne].
      - rewrite H in Hk. discriminate.
      - rewrite list_lookup_insert_ne by assumption. exact Hk. }
    assert (Hn1 : snd (getattr_filename f w1) = Raise e).
    { subst w1. rewrite (getattr_filename_list_update _ _ _ _ _ _ _ H). exact Hn. }
    destruct (IH (acc ++ [x]) w1 _ _ H1 Hall1 Hk1 Hn1) as [fd Hrun].
    exists fd. rewrite Hrun. subst w1. unfold with_heap. simpl.
    rewrite list_insert_insert_eq. reflexivity.
Qed.

(** The refresh of a view empties the view, reads the slots [fs] that its
    slice selects in the parent and hands them to [extend]. *)
Lemma view_refresh_clears D w v bv av p bp ap s fs :
  heap w !! v = Some (OFuture bv (IDynamicFileList av)) ->
  parent av = Some p ->
  slice av = Some s ->
  p <> v ->
  heap w !! p = Some (OFuture bp (IDynamicFileList ap)) ->
  list_getslice (items ap) s w = (w, Ret fs) ->
  DynamicFileList.DynamicFileSubList.callback D v w
  = DynamicFileList.extend D v fs
      (with_heap
         (<[v := OFuture bv
                   (IDynamicFileList
                      (with_sub_callbacks []
                         (with_items []
                            (with_last_idx (-1) (with_files_done [] av)))))]>
            (heap w)) w).
Proof.
  intros Hv Hp Hs Hne Hpl Hsl.
  assert (Hlt : (v < length (heap w))%nat) by (eapply lookup_lt_Some; eassumption).
  unfold DynamicFileList.DynamicFileSubList.callback, DynamicFileList.clear.
  unfold bind at 1. unfold bind at 1.
  rewrite (upd_list_Some _ _ _ _ _ Hv).
  set (w1 := with_heap _ w).
  assert (H1 : heap w1 !! v = Some (OFuture bv (IDynamicFileList (with_files_done [] av))))
    by (subst w1; simpl; apply list_lookup_insert_eq; assumption).
  unfold bind at 1. rewrite (upd_list_Some _ _ _ _ _ H1).
  set (w2 := with_heap _ w1).
  assert (H2 : heap w2 !! v
               = Some (OFuture bv (IDynamicFileList
                         (with_last_idx (-1) (with_files_done [] av)))))
    by (subst w2; simpl; apply list_lookup_insert_eq; rewrite length_insert; assumption).
  unfold bind at 1. rewrite (upd_list_Some _ _ _ _ _ H2).
  set (w3 := with_heap _ w2).
  assert (H3 : heap w3 !! v
               = Some (OFuture bv (IDynamicFileList
                         (with_items [] (with_last_idx (-1) (with_files_done [] av))))))
    by (subst w3; simpl; apply list_lookup_insert_eq; rewrite !length_insert; assumption).
  rewrite (upd_list_Some _ _ _ _ _ H3).
  set (a4 := with_sub_callbacks [] _).
  set (w4 := with_heap _ w3).
  assert (H4 : heap w4 !! v = Some (OFuture bv (IDynamicFileList a4)))
    by (subst w4; simpl; apply list_lookup_insert_eq; rewrite !length_insert; assumption).
  assert (Hw4 : w4 = with_heap (<[v := OFuture bv (IDynamicFileList a4)]> (heap w)) w).
  { subst w4 w3 w2 w1. unfold with_heap. simpl. rewrite !list_insert_insert_eq. reflexivity. }
  clearbody w4. clear w1 w2 w3 H1 H2 H3. subst w4.
  set (w4 := with_heap _ w) in *.
  rewrite (bind_Ret _ _ _ _ _ (get_list_Some _ _ _ _ H4)).
  replace (parent a4) with (Some p) by (subst a4; simpl; congruence).
  replace (slice a4) with (Some s) by (subst a4; simpl; congruence).
  assert (Hp4 : heap w4 !! p = Some (OFuture bp (IDynamicFileList ap)))
    by (subst w4; simpl; rewrite list_lookup_insert_ne by congruence; assumption).
  unfold DynamicFileList.get_update.
  unfold bind at 1. rewrite (bind_Ret _ _ _ _ _ (get_list_Some _ _ _ _ Hp4)).
  assert (Hsl4 : list_getslice (items ap) s w4 = (w4, Ret fs)).
  { unfold list_getslice in *. destruct (slice_positions s (length (items ap)));
      [| discriminate]. injection Hsl as <-. reflexivity. }
  rewrite Hsl4.
  reflexivity.
Qed.

(** The refresh over slots that all have a name. *)
Lemma view_refresh_named D w v bv av p bp ap s fs :
  heap w !! v = Some (OFuture bv (IDynamicFileList av)) ->
  parent av = Some p ->
  slice av = Some s ->
  dataflow av = None ->
  p <> v ->
  heap w !! p = Some (OFuture bp (IDynamicFileList ap)) ->
  list_getslice (items ap) s w = (w, Ret fs) ->
  Forall (named_wrapper w) fs ->
  exists w' av',
    DynamicFileList.DynamicFileSubList.callback D v w = (w', Ret tt)
    /\ heap w' = <[v := OFuture bv (IDynamicFileList av')]> (heap w)
    /\ items av' = fs
    /\ _last_idx av' = Z.of_nat (length fs) - 1
    /\ (forall a step, s = mkSlice (Some a) None step -> 0 <= a -> default 1 step = 1 ->
        items av' = drop (Z.to_nat a) (items ap))
    /\ (forall a b step, s = mkSlice (Some a) (Some b) step -> 0 <= a -> 0 <= b ->
        default 1 step = 1 ->
        items av' = take (Z.to_nat (b - a)) (drop (Z.to_nat a) (items ap))
        /\ (length (items av') <= Z.to_nat (b - a))%nat).
Proof.
  intros Hv Hp Hs Hd Hne Hpl Hsl Hall.
  assert (Hlt : (v < length (heap w))%nat) by (eapply lookup_lt_Some; eassumption).
  rewrite (view_refresh_clears D w v bv av p bp ap s fs Hv Hp Hs Hne Hpl Hsl).
  set (a4 := with_sub_callbacks [] _).
  set (w4 := with_heap _ w).
  assert (H4 : heap w4 !! v = Some (OFuture bv (IDynamicFileList a4)))
    by (subst w4; simpl; apply list_lookup_insert_eq; assumption).
  assert (Hall4 : Forall (named_wrapper w4) fs).
  { eapply Forall_impl; [exact Hall |]. intros x Hx.
    subst w4. apply named_wrapper_list_update with (b := bv) (a := av); assumption. }
  unfold DynamicFileList.extend.
  destruct (extend_collect_wrappers D v fs [] w4 _ _ H4 Hall4) as [fd Hcol].
  rewrite (bind_Ret _ _ _ _ _ Hcol). simpl app.
  set (w5 := with_heap _ w4).
  assert (H5 : heap w5 !! v = Some (OFuture bv (IDynamicFileList (with_files_done fd a4))))
    by (subst w5; simpl; apply list_lookup_insert_eq; rewrite length_insert; assumption).
  rewrite (bind_Ret _ _ _ _ _ (get_list_Some _ _ _ _ H5)).
  replace (_last_idx (with_files_done fd a4)
           =? Z.of_nat (length (items (with_files_done fd a4))) - 1)
    with true by reflexivity.
  unfold bind at 1. rewrite (upd_list_Some _ _ _ _ _ H5). cbv beta.
  set (a6 := with_items _ _).
  set (w6 := with_heap _ w5).
  assert (H6 : heap w6 !! v = Some (OFuture bv (IDynamicFileList a6)))
    by (subst w6; simpl; apply list_lookup_insert_eq; rewrite !length_insert; assumption).
  assert (Hd6 : dataflow a6 = None) by (subst a6 a4; simpl; assumption).
  unfold bind at 1. rewrite (extend_count_loop D v fs _ _ _ H6 Hd6).
  set (a7 := with_last_idx _ a6).
  set (w7 := with_heap _ w6).
  assert (H7 : heap w7 !! v = Some (OFuture bv (IDynamicFileList a7)))
    by (subst w7; simpl; apply list_lookup_insert_eq; rewrite !length_insert; assumption).
  rewrite (call_callbacks_no_views D v w7 bv a7 H7) by reflexivity.
  assert (Hitems : items a7 = fs) by reflexivity.
  exists w7, a7. split; [reflexivity |]. split.
  { subst w7 w6 w5 w4. simpl. rewrite !list_insert_insert_eq. reflexivity. }
  split; [exact Hitems |]. split.
  { subst a7 a6 a4. simpl. lia. }
  split.
  - intros a step -> Ha Hstep. rewrite Hitems.
    rewrite (list_getslice_open _ _ _ w Ha Hstep) in Hsl. congruence.
  - intros a b step -> Ha Hb Hstep. rewrite Hitems.
    rewrite (list_getslice_fixed _ _ _ _ w Ha Hb Hstep) in Hsl.
    injection Hsl as <-. split; [reflexivity |]. rewrite length_take. lia.
Qed.

(** The refresh over slots of which one has no name that can be read. *)
Lemma view_refresh_unnamed D w v bv av p bp ap s pre f post e :
  heap w !! v = Some (OFuture bv (IDynamicFileList av)) ->
  parent av = Some p ->
  slice av = Some s ->
  p <> v ->
  heap w !! p = Some (OFuture bp (IDynamicFileList ap)) ->
  list_getslice (items ap) s w = (w, Ret (pre ++ f :: post)) ->
  Forall (named_wrapper w) pre ->
  (is_DynamicFile <$> heap w !! f) = Some true ->
  snd (getattr_filename f w) = Raise e ->
  exists w' av',
    DynamicFileList.DynamicFileSubList.callback D v w = (w', Raise e)
    /\ heap w' = <[v := OFuture bv (IDynamicFileList av')]> (heap w)
    /\ items av' = []
    /\ _last_idx av' = -1.
Proof.
  intros Hv Hp Hs Hne Hpl Hsl Hall Hk Hn.
  assert (Hlt : (v < length (heap w))%nat) by (eapply lookup_lt_Some; eassumption).
  rewrite (view_refresh_clears D w v bv av p bp ap s _ Hv Hp Hs Hne Hpl Hsl).
  set (a4 := with_sub_callbacks [] _).
  set (w4 := with_heap _ w).
  assert (H4 : heap w4 !! v = Some (OFuture bv (IDynamicFileList a4)))
    by (subst w4; simpl; apply list_lookup_insert_eq; assumption).
  assert (Hall4 : Forall (named_wrapper w4) pre).
  { eapply Forall_impl; [exact Hall |]. intros x Hx.
    subst w4. apply named_wrapper_list_update with (b := bv) (a := av); assumption. }
  assert (Hk4 : (is_DynamicFile <$> heap w4 !! f) = Some true).
  { subst w4. simpl. destruct (decide (v = f)) as [<- | Hvf].
    - rewrite Hv in Hk. discriminate.
    - rewrite list_lookup_insert_ne by assumption. exact Hk. }
  assert (Hn4 : snd (getattr_filename f w4) = Raise e).
  { subst w4. rewrite (getattr_filename_list_update _ _ _ _ _ _ _ Hv). exact Hn. }
  unfold DynamicFileList.extend.
  destruct (extend_collect_stops D v pre f post e [] w4 _ _ H4 Hall4 Hk4 Hn4) as [fd Hcol].
  rewrite (bind_Raise _ _ _ _ _ Hcol).
  exists (with_heap (<[v := OFuture bv (IDynamicFileList (with_files_done fd a4))]> (heap w4))
            w4), (with_files_done fd a4).
  split; [reflexivity |]. split; [| split; reflexivity].
  subst w4. simpl. rewrite list_insert_insert_eq. reflexivity.
Qed.

(** C8, amended. The refresh of a view that has no staging context
    re-reads the slice of the view in the parent as it is now. When the
    name of every selected slot can be read, the refresh returns and
    leaves in the view exactly the selected slots. For a slice [a:] with
    [0 <= a] and unit step these are all slots of the parent from index
    [a] on, so that an element appended at an index [>= a] is in the view;
    for a slice [a:b] with [0 <= a], [0 <= b] and unit step these are the
    slots of the parent at the indices [a] to [b - 1], so that the view
    never holds more than [b - a] slots. When the name of a selected slot
    cannot be read, the refresh raises the error of that read and leaves
    the view without slots. *)
Theorem view_refresh_follows_slice D w v bv av p bp ap s fs :
  heap w !! v = Some (OFuture bv (IDynamicFileList av)) ->
  parent av = Some p ->
  slice av = Some s ->
  dataflow av = None ->
  p <> v ->
  heap w !! p = Some (OFuture bp (IDynamicFileList ap)) ->
  list_getslice (items ap) s w = (w, Ret fs) ->
  (Forall (named_wrapper w) fs ->
   exists w' av',
     DynamicFileList.DynamicFileSubList.callback D v w = (w', Ret tt)
     /\ heap w' = <[v := OFuture bv (IDynamicFileList av')]> (heap w)
     /\ items av' = fs
     /\ _last_idx av' = Z.of_nat (length fs) - 1
     /\ (forall a step, s = mkSlice (Some a) None step -> 0 <= a -> default 1 step = 1 ->
         items av' = drop (Z.to_nat a) (items ap))
     /\ (forall a b step, s = mkSlice (Some a) (Some b) step -> 0 <= a -> 0 <= b ->
         default 1 step = 1 ->
         items av' = take (Z.to_nat (b - a)) (drop (Z.to_nat a) (items ap))
         /\ (length (items av') <= Z.to_nat (b - a))%nat))
  /\ (forall pre f post e,
        fs = pre ++ f :: post ->
        Forall (named_wrapper w) pre ->
        (is_DynamicFile <$> heap w !! f) = Some true ->
        snd (getattr_filename f w) = Raise e ->
        exists w' av',
          DynamicFileList.DynamicFileSubList.callback D v w = (w', Raise e)
          /\ heap w' = <[v := OFuture bv (IDynamicFileList av')]> (heap w)
          /\ items av' = []
          /\ _last_idx av' = -1).
Proof.
  intros Hv Hp Hs Hd Hne Hpl Hsl. split.
  - intros Hall. eapply view_refresh_named; eassumption.
  - intros pre f post e -> Hall Hk Hn. eapply view_refresh_unnamed; eassumption.
Qed.

Lemma view_refresh_follows_slice_witness :
  ((items <$> list_at world_tracking_view 4) = Some [3%nat]
   /\ DynamicFileList.append (dispatch 0) 0%nat 2%nat world_tracking_view
      = (world_stale_view, Abort OutOfFuel)
   /\ (items <$> list_at world_stale_view 0) = Some [3; 5]%nat
   /\ (items <$> list_at world_stale_view 4) = Some [3%nat]
   /\ exists w',
        DynamicFileList.DynamicFileSubList.callback D3 4%nat world_stale_view = (w', Ret tt)
        /\ (items <$> list_at w' 4) = Some [3; 5]%nat)
  /\ (__getitem__ (dispatch 0) 0%nat (KSlice (mkSlice (Some 1) (Some 2) None))
        world_placeholder_view
      = (world_unnamed_slot, Abort OutOfFuel)
      /\ (items <$> list_at world_unnamed_slot 0) = Some [1%nat]
      /\ wrapper_at world_unnamed_slot 1 = Some (mkDynamicFile false 0 (Some 3%nat) false false)
      /\ wrapper_at world_unnamed_slot 3 = Some (mkDynamicFile false 0 None true false)
      /\ (items <$> list_at world_unnamed_slot 2) = Some [1%nat]
      /\ exists w',
           DynamicFileList.DynamicFileSubList.callback D3 2%nat world_unnamed_slot
           = (w', Raise AttributeError)
           /\ (items <$> list_at w' 2) = Some []).
Proof.
  split.
  - split; [reflexivity |]. split; [reflexivity |].
    split; [reflexivity |]. split; [reflexivity |].
    assert (Hall : Forall (named_wrapper world_stale_view) [3; 5]%nat).
    { repeat constructor; eexists; reflexivity. }
    destruct (view_refresh_follows_slice D3 world_stale_view 4%nat _ _ 0%nat _ _
                (mkSlice (Some 0) None None) [3; 5]%nat
                eq_refl eq_refl eq_refl eq_refl ltac:(discriminate) eq_refl eq_refl)
      as [Hnamed _].
    destruct (Hnamed Hall) as (w' & av' & Hrun & Hh & Hi & _).
    exists w'. split; [exact Hrun |]. unfold list_at. rewrite Hh, <- Hi. reflexivity.
  - split; [reflexivity |]. split; [reflexivity |].
    split; [reflexivity |]. split; [reflexivity |]. split; [reflexivity |].
    destruct (view_refresh_follows_slice D3 world_unnamed_slot 2%nat _ _ 0%nat _ _
                (mkSlice (Some 0) None None) [1%nat]
                eq_refl eq_refl eq_refl eq_refl ltac:(discriminate) eq_refl eq_refl)
      as [_ Hunnamed].
    destruct (Hunnamed [] 1%nat [] AttributeError eq_refl (Forall_nil_2 _) eq_refl eq_refl)
      as (w' & av' & Hrun & Hh & Hi & _).
    exists w'. split; [exact Hrun |]. unfold list_at. rewrite Hh, <- Hi. reflexivity.
Defined.


(** C8 as stated fails: the view [l[0:-1]] has both bounds fixed and is
    empty when it is built over a list of one element; after an [append]
    to the parent, which returns, the view holds one slot. *)
Lemma fixed_view_grows :
  (items <$> list_at world_view 0) = Some [3%nat]
  /\ (slice <$> list_at world_view 4) = Some (Some (mkSlice (Some 0) (Some (-1)) None))
  /\ (fixed_size <$> list_at world_view 4) = Some true
  /\ (items <$> list_at world_view 4) = Some []
  /\ snd (DynamicFileList.append D3 0%nat 2%nat world_view) = Ret tt
  /\ (items <$> list_at (fst (DynamicFileList.append D3 0%nat 2%nat world_view)) 0)
     = Some [3; 5]%nat
  /\ (items <$> list_at (fst (DynamicFileList.append D3 0%nat 2%nat world_view)) 4)
     = Some [3%nat].
Proof. vm_compute. repeat split. Qed.

(** * Further properties of the two modules *)

(** ** Running a method step by step *)

Lemma run_ret {A B} (a : A) (k : A -> M B) w : bind (ret a) k w = k a w.
Proof. reflexivity. Qed.

Lemma run_bind_assoc {A B C} (m : M A) (k : A -> M B) (k' : B -> M C) w :
  bind (bind m k) k' w = bind m (fun a => bind (k a) k') w.
Proof. unfold bind. destruct (m w) as [w1 [a | e | s]]; reflexivity. Qed.

Lemma run_lookup_obj {B} r o (k : obj -> M B) w :
  heap w !! r = Some o -> bind (lookup_obj r) k w = k o w.
Proof. intros H. unfold bind, lookup_obj. rewrite H. reflexivity. Qed.

Lemma run_get_base {B} r b i (k : Future_attrs -> M B) w :
  heap w !! r = Some (OFuture b i) -> bind (get_base r) k w = k b w.
Proof. intros H. apply bind_Ret. eapply get_base_Some; eassumption. Qed.

Lemma run_get_list {B} r b a (k : DynamicFileList_attrs -> M B) w :
  heap w !! r = Some (OFuture b (IDynamicFileList a)) -> bind (get_list r) k w = k a w.
Proof. intros H. apply bind_Ret. eapply get_list_Some; eassumption. Qed.

Lemma run_get_dyn {B} r b a (k : DynamicFile_attrs -> M B) w :
  heap w !! r = Some (OFuture b (IDynamicFile a)) -> bind (get_dyn r) k w = k a w.
Proof. intros H. apply bind_Ret. eapply get_dyn_Some; eassumption. Qed.

Lemma run_get_data {B} r b a (k : DataFuture_attrs -> M B) w :
  heap w !! r = Some (OFuture b (IDataFuture a)) -> bind (get_data r) k w = k a w.
Proof. intros H. apply bind_Ret. eapply get_data_Some; eassumption. Qed.

Lemma run_get_file {B} r f (k : File -> M B) w :
  heap w !! r = Some (OFile f) -> bind (get_file r) k w = k f w.
Proof. intros H. unfold bind, get_file, bind, lookup_obj. rewrite H. reflexivity. Qed.

Lemma run_upd_list {B} r b a f (k : unit -> M B) w :
  heap w !! r = Some (OFuture b (IDynamicFileList a)) ->
  bind (upd_list r f) k w
  = k tt (with_heap (<[r := OFuture b (IDynamicFileList (f a))]> (heap w)) w).
Proof. intros H. unfold bind at 1. rewrite (upd_list_Some _ _ _ _ _ H). reflexivity. Qed.

Lemma run_upd_base {B} r b i f (k : unit -> M B) w :
  heap w !! r = Some (OFuture b i) ->
  bind (upd_base r f) k w = k tt (with_heap (<[r := OFuture (f b) i]> (heap w)) w).
Proof. intros H. unfold bind at 1. rewrite (upd_base_Some _ _ _ _ _ H). reflexivity. Qed.

Lemma run_upd_dyn {B} r b a f (k : unit -> M B) w :
  heap w !! r = Some (OFuture b (IDynamicFile a)) ->
  bind (upd_dyn r f) k w
  = k tt (with_heap (<[r := OFuture b (IDynamicFile (f a))]> (heap w)) w).
Proof.
  intros H. unfold bind at 1, upd_dyn, bind, lookup_obj. rewrite H. reflexivity.
Qed.

Lemma run_upd_data {B} r b a f (k : unit -> M B) w :
  heap w !! r = Some (OFuture b (IDataFuture a)) ->
  bind (upd_data r f) k w
  = k tt (with_heap (<[r := OFuture b (IDataFuture (f a))]> (heap w)) w).
Proof.
  intros H. unfold bind at 1, upd_data, bind, lookup_obj. rewrite H. reflexivity.
Qed.

Lemma run_alloc {B} o (k : ref -> M B) w :
  bind (alloc o) k w = k (length (heap w)) (with_heap (heap w ++ [o]) w).
Proof. reflexivity. Qed.

Lemma run_emit {B} e (k : unit -> M B) w :
  bind (emit e) k w = k tt (with_log (log w ++ [e]) w).
Proof. reflexivity. Qed.

Lemma run_read {A B} (m : M A) (k : A -> M B) w a :
  m w = (w, Ret a) -> bind m k w = k a w.
Proof. intros H. unfold bind. rewrite H. reflexivity. Qed.

Ltac world_simpl :=
  unfold with_heap, with_log, with_clock; cbn [heap log clock].

(** Every reference that is looked up lies inside the store. *)
Ltac bounds :=
  repeat match goal with
  | H : heap ?w !! ?r = Some _ |- _ =>
      lazymatch goal with
      | _ : (r < length (heap w))%nat |- _ => fail
      | _ => pose proof (lookup_lt_Some _ _ _ H)
      end
  end.

Ltac len_tac :=
  world_simpl; repeat (rewrite ?length_insert, ?length_app; cbn [length]); lia.

Ltac ne_tac :=
  first [ lia | congruence | (let E := fresh in intros E; subst; congruence) ].

Lemma lookup_snoc {A} (l : list A) x i : i = length l -> (l ++ [x]) !! i = Some x.
Proof. intros ->. rewrite lookup_app_r by lia. rewrite Nat.sub_diag. reflexivity. Qed.

Ltac lookup_tac :=
  world_simpl;
  repeat first
    [ rewrite lookup_snoc by len_tac
    | rewrite list_lookup_insert_eq by len_tac
    | rewrite list_lookup_insert_ne by ne_tac
    | rewrite lookup_app_l by len_tac
    | rewrite lookup_app_r by len_tac ];
  repeat match goal with
  | |- context [(?n - ?n)%nat] => rewrite Nat.sub_diag
  end;
  first [ eassumption | reflexivity ].

Ltac run1 :=
  first
    [ rewrite run_ret
    | rewrite run_bind_assoc
    | rewrite run_alloc
    | rewrite run_emit
    | erewrite run_get_list by lookup_tac
    | erewrite run_get_dyn by lookup_tac
    | erewrite run_get_data by lookup_tac
    | erewrite run_get_file by lookup_tac
    | erewrite run_get_base by lookup_tac
    | erewrite run_lookup_obj by lookup_tac
    | erewrite run_upd_list by lookup_tac
    | erewrite run_upd_dyn by lookup_tac
    | erewrite run_upd_data by lookup_tac
    | erewrite run_upd_base by lookup_tac ];
  world_simpl; rewrite ?list_insert_insert_eq.

Ltac run := repeat run1.

Tactic Notation "rread" "by" tactic(t) :=
  repeat rewrite run_bind_assoc; erewrite run_read by t;
  repeat rewrite run_bind_assoc; world_simpl.

Tactic Notation "rstep" "by" tactic(t) :=
  repeat rewrite run_bind_assoc; erewrite bind_Ret by t;
  repeat rewrite run_bind_assoc; world_simpl.


Lemma run_add_done_callback_pending {B} D r b i fn (k : unit -> M B) w :
  heap w !! r = Some (OFuture b i) -> _state b <> FINISHED ->
  bind (Future.add_done_callback D r fn) k w
  = k tt (with_heap
            (<[r := OFuture (with_done_callbacks (_done_callbacks b ++ [fn]) b) i]>
               (heap w)) w).
Proof.
  intros H Hs. unfold Future.add_done_callback. rewrite run_bind_assoc.
  erewrite run_get_base by eassumption.
  destruct (_state b); try congruence; erewrite run_upd_base by eassumption; reflexivity.
Qed.

(** ** Indices, names and the completion-predicate map *)

Lemma list_getitem_Some (l : list ref) k i r w :
  norm_index (length l) k = Some i -> l !! i = Some r ->
  list_getitem l k w = (w, Ret r).
Proof. intros Hn Hr. unfold list_getitem. rewrite Hn, Hr. reflexivity. Qed.

Lemma getitem_int_in_range D self key w b a i r :
  heap w !! self = Some (OFuture b (IDynamicFileList a)) ->
  key < Z.of_nat (length (items a)) ->
  norm_index (length (items a)) key = Some i ->
  items a !! i = Some r ->
  DynamicFileList._getitem_int D self key w = (w, Ret r).
Proof.
  intros H Hk Hn Hr. unfold DynamicFileList._getitem_int.
  run. replace (Z.of_nat (length (items a)) <=? key) with false by lia.
  run. eapply list_getitem_Some; eassumption.
Qed.

Lemma norm_index_nonneg n k :
  0 <= k < Z.of_nat n -> norm_index n k = Some (Z.to_nat k).
Proof.
  intros H. unfold norm_index.
  replace (0 <=? k) with true by lia. replace (k <? Z.of_nat n) with true by lia.
  reflexivity.
Qed.

Lemma norm_index_at n k i :
  0 <= k < Z.of_nat n -> i = Z.to_nat k -> norm_index n k = Some i.
Proof. intros H ->. apply norm_index_nonneg. exact H. Qed.

Lemma norm_index_nil k : norm_index 0 k = None.
Proof.
  unfold norm_index. change (Z.of_nat 0) with 0. change (- 0) with 0.
  destruct (0 <=? k) eqn:E.
  - replace (k <? 0) with false by lia. reflexivity.
  - reflexivity.
Qed.

Lemma in_py_range lo hi k : In k (py_range lo hi) -> lo <= k < hi.
Proof.
  unfold py_range. rewrite in_map_iff. intros (i & <- & Hi).
  apply in_seq in Hi. lia.
Qed.

Lemma filepath_of_file w r fo :
  heap w !! r = Some (OFile fo) -> getattr_filepath r w = (w, Ret (filepath fo)).
Proof.
  intros H. bounds. unfold getattr_filepath.
  destruct (length (heap w)) as [| n] eqn:E; [lia |].
  cbn [filepath_chain]. run. reflexivity.
Qed.

Lemma filepath_of_data w d bd da fo :
  heap w !! d = Some (OFuture bd (IDataFuture da)) ->
  heap w !! df_file_obj da = Some (OFile fo) ->
  getattr_filepath d w = (w, Ret (filepath fo)).
Proof.
  intros H Hf. bounds. unfold getattr_filepath.
  assert (d <> df_file_obj da) by congruence.
  destruct (length (heap w)) as [| [| n]] eqn:E; [lia | lia |].
  cbn [filepath_chain]. run. reflexivity.
Qed.

Lemma filename_of_wrapper w s bs sa r p :
  heap w !! s = Some (OFuture bs (IDynamicFile sa)) ->
  dyn_file_obj sa = Some r ->
  getattr_filepath r w = (w, Ret p) ->
  getattr_filename s w = (w, Ret (Some p)).
Proof.
  intros H Hr Hp. unfold getattr_filename. run. rewrite Hr.
  erewrite run_read by eassumption. reflexivity.
Qed.

Lemma filename_of_empty_wrapper w s bs sa :
  heap w !! s = Some (OFuture bs (IDynamicFile sa)) ->
  dyn_file_obj sa = None ->
  getattr_filename s w = (w, Ret None).
Proof. intros H Hr. unfold getattr_filename. run. rewrite Hr. reflexivity. Qed.

Lemma filename_list_update v b a b' a' w f k :
  heap w !! v = Some (OFuture b (IDynamicFileList a)) ->
  getattr_filename f w = (w, Ret k) ->
  getattr_filename f (with_heap (<[v := OFuture b' (IDynamicFileList a')]> (heap w)) w)
  = (with_heap (<[v := OFuture b' (IDynamicFileList a')]> (heap w)) w, Ret k).
Proof.
  intros H Hk.
  pose proof (getattr_filename_list_update v b a b' a' w f H) as E.
  destruct (getattr_filename f (with_heap _ w)) as [w1 o1] eqn:E1.
  pose proof (read_only_getattr_filename f _ _ _ E1). subst w1.
  rewrite Hk in E. simpl in E. subst o1. reflexivity.
Qed.

Lemma list_pop_Some (l : list ref) k i r w :
  norm_index (length l) k = Some i -> l !! i = Some r ->
  list_pop l k w = (w, Ret (r, delete i l)).
Proof. intros Hn Hr. unfold list_pop. rewrite Hn, Hr. reflexivity. Qed.

Lemma key_eqb_refl k : key_eqb k k = true.
Proof. destruct k as [s |]; simpl; [apply String.eqb_refl | reflexivity]. Qed.

Lemma dict_mem_set k v d : dict_mem k (dict_set k v d) = true.
Proof.
  induction d as [| [k' v'] d IH]; simpl.
  - rewrite key_eqb_refl. reflexivity.
  - destruct (key_eqb k' k) eqn:E; simpl; rewrite E; [reflexivity | exact IH].
Qed.

Lemma dict_del_set_fresh k v d :
  dict_mem k d = false -> dict_del k (dict_set k v d) = d.
Proof.
  induction d as [| [k' v'] d IH]; simpl; intros H.
  - rewrite key_eqb_refl. reflexivity.
  - apply orb_false_iff in H as [H1 H2]. rewrite H1. simpl. rewrite H1.
    f_equal. exact (IH H2).
Qed.

Lemma delete_last {A} (l : list A) x : delete (length l) (l ++ [x]) = l.
Proof. induction l as [| y l IH]; simpl; [reflexivity | f_equal; exact IH]. Qed.


(** ** Staging one slot *)

Lemma stage_file_skips D self idx w b a i s bs sa :
  heap w !! self = Some (OFuture b (IDynamicFileList a)) ->
  idx < Z.of_nat (length (items a)) ->
  norm_index (length (items a)) idx = Some i ->
  items a !! i = Some s ->
  heap w !! s = Some (OFuture bs (IDynamicFile sa)) ->
  dataflow a = None \/ _empty sa = true \/ _staged_out sa = true
  \/ parent a = None \/ _is_df sa = false ->
  DynamicFileList.stage_file D self idx w = (w, Ret tt).
Proof.
  intros H Hk Hn Hr Hs Hc. unfold DynamicFileList.stage_file. run.
  destruct (dataflow a) as [dfk |] eqn:Ed; [| reflexivity].
  erewrite run_read by (eapply getitem_int_in_range; eassumption).
  run.
  destruct (_empty sa) eqn:Ee; [reflexivity |].
  destruct (_staged_out sa) eqn:Es; [reflexivity |]. cbn [orb].
  run. destruct (parent a) as [p |] eqn:Ep; [| reflexivity].
  destruct (_is_df sa) eqn:Ei; [| reflexivity].
  exfalso. destruct Hc as [Hc | [Hc | [Hc | [Hc | Hc]]]]; discriminate.
Qed.

Lemma stage_file_runs D self idx w b a i s bs sa dfk p d bd da fo bp ap :
  heap w !! self = Some (OFuture b (IDynamicFileList a)) ->
  idx < Z.of_nat (length (items a)) ->
  norm_index (length (items a)) idx = Some i ->
  items a !! i = Some s ->
  heap w !! s = Some (OFuture bs (IDynamicFile sa)) ->
  _sub_callbacks a = [] ->
  dataflow a = Some dfk -> parent a = Some p ->
  _empty sa = false -> _staged_out sa = false -> _is_df sa = true ->
  dyn_file_obj sa = Some d ->
  heap w !! d = Some (OFuture bd (IDataFuture da)) ->
  heap w !! df_file_obj da = Some (OFile fo) ->
  heap w !! p = Some (OFuture bp (IAppFuture ap)) ->
  exists w',
    DynamicFileList.stage_file D self idx w = (w', Ret tt)
    /\ log w' = log w ++
         (if _staging_inhibited a then []
          else [EvStageOut self idx s (length (heap w)) (executor a) p;
                EvReplaceTaskStageOut self (length (heap w)) (_output_task_id a)])
    /\ heap w' !! self = Some (OFuture b (IDynamicFileList a))
    /\ heap w' !! s = Some (OFuture bs (IDynamicFile sa))
    /\ heap w' !! p = Some (OFuture (with_outputs (Some self) bp) (IAppFuture ap))
    /\ (forall r o, heap w !! r = Some o -> r <> p -> r <> d -> heap w' !! r = Some o)
    /\ heap w' !! d
       = Some (OFuture bd (IDataFuture
           (if _staging_inhibited a then da
            else if stage_out_follow_on dfk then
              mkDataFuture (Some (app_tid ap)) (length (heap w)) (S (length (heap w)))
                (df_app_fut da) (df_data_flow_kernel da)
            else with_df_file_obj (length (heap w)) da)))
    /\ (_staging_inhibited a = false -> heap w' !! length (heap w) = Some (OFile fo)).
Proof.
  intros H Hk Hn Hr Hs Hv Hd Hp He Hst Hi Hf Hdd Hfo Hpp. bounds.
  unfold DynamicFileList.stage_file. run. rewrite Hd.
  erewrite run_read by (eapply getitem_int_in_range; eassumption).
  run. rewrite He, Hst. cbn [orb]. run. rewrite Hp, Hi. cbn [negb].
  destruct (_staging_inhibited a) eqn:Einh.
  - run. unfold setattr_outputs. run.
    erewrite call_callbacks_no_views; [| lookup_tac | exact Hv].
    eexists. split; [reflexivity |]. world_simpl.
    split; [rewrite app_nil_r; reflexivity |].
    split; [lookup_tac |]. split; [lookup_tac |]. split; [lookup_tac |].
    split; [intros r o Hro N1 N2; lookup_tac |]. split; [| discriminate].
    destruct (decide (d = p)) as [-> | N]; [congruence |]. lookup_tac.
  - rewrite Hf. run. unfold cleancopy. run.
    erewrite run_read by (eapply getitem_int_in_range; [lookup_tac | eassumption ..]).
    run. rewrite Hf. run. unfold stage_out. run.
    assert (Hlen : length (heap w ++ [OFile fo]) = S (length (heap w)))
      by (rewrite length_app; cbn [length]; lia).
    destruct (stage_out_follow_on dfk) eqn:Efo.
    + run. unfold getattr_tid. run. unfold setattr_outputs. run.
      erewrite call_callbacks_no_views; [| lookup_tac | exact Hv].
      eexists. split; [reflexivity |]. world_simpl.
      split; [rewrite <- app_assoc; reflexivity |].
      assert (d <> p) by congruence.
      split; [lookup_tac |]. split; [lookup_tac |]. split; [lookup_tac |].
      split; [intros r o Hro N1 N2; pose proof (lookup_lt_Some _ _ _ Hro); lookup_tac |].
      split; [| intros _].
      * rewrite length_insert, Hlen. lookup_tac.
      * lookup_tac.
    + run. unfold setattr_outputs. run.
      erewrite call_callbacks_no_views; [| lookup_tac | exact Hv].
      eexists. split; [reflexivity |]. world_simpl.
      split; [rewrite <- app_assoc; reflexivity |].
      assert (d <> p) by congruence.
      split; [lookup_tac |]. split; [lookup_tac |]. split; [lookup_tac |].
      split; [intros r o Hro N1 N2; pose proof (lookup_lt_Some _ _ _ Hro); lookup_tac |].
      split; [| intros _]; lookup_tac.
Qed.

Lemma stageable_parent w a sa p :
  stageable w a sa = true -> parent a = Some p ->
  exists bp ap, heap w !! p = Some (OFuture bp (IAppFuture ap)).
Proof.
  unfold stageable. intros H Hp. rewrite Hp in H. apply andb_prop in H as [H _].
  destruct (heap w !! p) as [[? | bp []] |]; try discriminate. eauto.
Qed.

Lemma future_readable_inv w sa :
  future_readable w sa = true -> _is_df sa = true ->
  exists d bd da fo, dyn_file_obj sa = Some d
    /\ heap w !! d = Some (OFuture bd (IDataFuture da))
    /\ heap w !! df_file_obj da = Some (OFile fo).
Proof.
  unfold future_readable. intros H Hi. rewrite Hi in H.
  destruct (dyn_file_obj sa) as [d |]; [| discriminate].
  destruct (heap w !! d) as [[? | bd []] |] eqn:Ed; try discriminate.
  destruct (heap w !! df_file_obj a) as [[fo | ? ?] |] eqn:Ef; try discriminate.
  eauto 10.
Qed.

Lemma stageable_readable w a sa : stageable w a sa = true -> future_readable w sa = true.
Proof. unfold stageable. intros H. apply andb_prop in H as [_ H]. exact H. Qed.

Lemma staging_frame_refl w : staging_frame w w.
Proof. split; [auto | split; [auto | eauto]]. Qed.

Lemma staging_frame_trans w1 w2 w3 :
  staging_frame w1 w2 -> staging_frame w2 w3 -> staging_frame w1 w3.
Proof.
  intros (S12 & R12 & T12) (S23 & R23 & T23). split; [| split].
  - intros s bs sa H. auto.
  - intros sa H. auto.
  - intros T bT aT H. destruct (T12 _ _ _ H) as (b2 & H2 & C2 & E2).
    destruct (T23 _ _ _ H2) as (b3 & H3 & C3 & E3).
    exists b3. split; [exact H3 |]. split; congruence.
Qed.

Lemma staging_frame_stageable w w' a sa :
  staging_frame w w' -> stageable w a sa = true -> stageable w' a sa = true.
Proof.
  intros (_ & HR & HT) Hok. unfold stageable in *. apply andb_prop in Hok as [Hp Hr].
  apply andb_true_intro. split; [| exact (HR _ Hr)].
  destruct (parent a) as [p |]; [| reflexivity].
  destruct (heap w !! p) as [[? | bp []] |] eqn:Ep; try discriminate.
  destruct (HT _ _ _ Ep) as (bp' & -> & _). reflexivity.
Qed.

(** One call of [stage_file] on a slot inside the list. *)
Lemma stage_file_step D self idx w b a i s bs sa :
  heap w !! self = Some (OFuture b (IDynamicFileList a)) ->
  idx < Z.of_nat (length (items a)) ->
  norm_index (length (items a)) idx = Some i ->
  items a !! i = Some s ->
  heap w !! s = Some (OFuture bs (IDynamicFile sa)) ->
  _sub_callbacks a = [] ->
  stageable w a sa = true ->
  exists w',
    DynamicFileList.stage_file D self idx w = (w', Ret tt)
    /\ log w' = log w ++ (if staging_due a sa
                          then staging_events self idx s (length (heap w)) a else [])
    /\ heap w' !! self = Some (OFuture b (IDynamicFileList a))
    /\ staging_frame w w'.
Proof.
  intros H Hk Hn Hr Hs Hv Hok.
  assert (Skip : DynamicFileList.stage_file D self idx w = (w, Ret tt) ->
                 staging_due a sa = false ->
                 exists w',
                   DynamicFileList.stage_file D self idx w = (w', Ret tt)
                   /\ log w' = log w ++ (if staging_due a sa
                                         then staging_events self idx s (length (heap w)) a
                                         else [])
                   /\ heap w' !! self = Some (OFuture b (IDynamicFileList a))
                   /\ staging_frame w w').
  { intros Hrun Hdue. exists w. rewrite Hdue, app_nil_r.
    split; [exact Hrun |]. split; [reflexivity |]. split; [exact H |].
    apply staging_frame_refl. }
  destruct (dataflow a) as [dfk |] eqn:Ed; cycle 1.
  { apply Skip; [eapply stage_file_skips; eauto |]. unfold staging_due. rewrite Ed. reflexivity. }
  destruct (_empty sa) eqn:Ee.
  { apply Skip; [eapply stage_file_skips; eauto |].
    unfold staging_due. rewrite Ed, Ee. reflexivity. }
  destruct (_staged_out sa) eqn:Es.
  { apply Skip; [eapply stage_file_skips; eauto 6 |].
    unfold staging_due. rewrite Ed, Ee, Es. reflexivity. }
  destruct (parent a) as [p |] eqn:Ep; cycle 1.
  { apply Skip; [eapply stage_file_skips; eauto 6 |].
    unfold staging_due. rewrite Ed, Ee, Es, Ep. reflexivity. }
  destruct (_is_df sa) eqn:Ei; cycle 1.
  { apply Skip; [eapply stage_file_skips; eauto 7 |].
    unfold staging_due. rewrite Ed, Ee, Es, Ep, Ei. reflexivity. }
  clear Skip.
  destruct (stageable_parent _ _ _ _ Hok Ep) as (bp & ap & Hp).
  destruct (future_readable_inv _ _ (stageable_readable _ _ _ Hok) Ei)
    as (d & bd & da & fo & Hd & Hdd & Hfo).
  destruct (stage_file_runs D self idx w b a i s bs sa dfk p d bd da fo bp ap
              H Hk Hn Hr Hs Hv Ed Ep Ee Es Ei Hd Hdd Hfo Hp)
    as (w' & Hrun & Hlog & Hself & Hslot & Hp' & Hframe & Hd' & Hcopy).
  exists w'. split; [exact Hrun |]. split.
  { rewrite Hlog. unfold staging_due, staging_events. rewrite Ed, Ee, Es, Ep, Ei. cbn.
    destruct (_staging_inhibited a); reflexivity. }
  split; [exact Hself |]. split; [| split].
  - intros s' bs' sa' Hs'. apply Hframe; [exact Hs' | congruence | congruence].
  - intros sa' Hok'. unfold future_readable.
    destruct (_is_df sa') eqn:Ei'; [| reflexivity].
    destruct (future_readable_inv _ _ Hok' Ei') as (d' & bd' & da' & fo' & Hd1 & Hdd1 & Hfo1).
    rewrite Hd1. destruct (decide (d' = d)) as [-> | Nd].
    + rewrite Hd'. destruct (_staging_inhibited a) eqn:Einh.
      * rewrite (Hframe _ _ Hfo); [reflexivity | congruence | congruence].
      * destruct (stage_out_follow_on dfk); cbn; rewrite (Hcopy eq_refl); reflexivity.
    + rewrite (Hframe _ _ Hdd1); [| congruence | exact Nd].
      rewrite (Hframe _ _ Hfo1); [reflexivity | congruence | congruence].
  - intros T bT aT HT.
    destruct (decide (T = p)) as [-> | Np].
    { rewrite Hp in HT. injection HT as <- <-. rewrite Hp'. eauto. }
    assert (T <> d) by congruence.
    rewrite (Hframe _ _ HT Np) by assumption. eauto.
Qed.

(** [stage_file] on a slot inside the list, for a list without views: the
    call returns; it submits a stage-out (and the replacement of the
    task's stage-out hook) exactly when the staging context and the
    producing task are attached, the slot is neither empty nor marked as
    staged, it wraps a future and staging is not inhibited; and in every
    case it leaves the list and the slot as they were, so that the slot is
    still not marked as staged. *)
Theorem stage_file_exactly_when D self idx w b a i s bs sa :
  heap w !! self = Some (OFuture b (IDynamicFileList a)) ->
  idx < Z.of_nat (length (items a)) ->
  norm_index (length (items a)) idx = Some i ->
  items a !! i = Some s ->
  heap w !! s = Some (OFuture bs (IDynamicFile sa)) ->
  _sub_callbacks a = [] ->
  stageable w a sa = true ->
  exists w',
    DynamicFileList.stage_file D self idx w = (w', Ret tt)
    /\ log w' = log w ++ (if staging_due a sa
                          then staging_events self idx s (length (heap w)) a else [])
    /\ list_at w' self = Some a
    /\ wrapper_at w' s = Some sa.
Proof.
  intros H Hk Hn Hr Hs Hv Hok.
  destruct (stage_file_step D self idx w b a i s bs sa H Hk Hn Hr Hs Hv Hok)
    as (w' & Hrun & Hlog & Hself & Hslots & _).
  exists w'. split; [exact Hrun |]. split; [exact Hlog |].
  unfold list_at, wrapper_at. rewrite Hself, (Hslots _ _ _ Hs). split; reflexivity.
Qed.

Lemma stage_out_count_app s lg lg' :
  stage_out_count s (lg ++ lg') = (stage_out_count s lg + stage_out_count s lg')%nat.
Proof. induction lg as [| [] lg IH]; simpl; [reflexivity | | |]; rewrite IH; lia. Qed.

(** [stage_file] never marks a slot as staged, so staging is repeated:
    when a call stages the slot, the next call on the same slot stages it
    again, from a further copy of the artifact. *)
Theorem stage_file_repeats D self idx w b a i s bs sa :
  heap w !! self = Some (OFuture b (IDynamicFileList a)) ->
  idx < Z.of_nat (length (items a)) ->
  norm_index (length (items a)) idx = Some i ->
  items a !! i = Some s ->
  heap w !! s = Some (OFuture bs (IDynamicFile sa)) ->
  _sub_callbacks a = [] ->
  stageable w a sa = true ->
  staging_due a sa = true ->
  exists w1 w2,
    DynamicFileList.stage_file D self idx w = (w1, Ret tt)
    /\ DynamicFileList.stage_file D self idx w1 = (w2, Ret tt)
    /\ log w2 = log w ++ staging_events self idx s (length (heap w)) a
                      ++ staging_events self idx s (length (heap w1)) a
    /\ stage_out_count s (log w2) = (stage_out_count s (log w) + 2)%nat.
Proof.
  intros H Hk Hn Hr Hs Hv Hok Hdue.
  destruct (stage_file_step D self idx w b a i s bs sa H Hk Hn Hr Hs Hv Hok)
    as (w1 & Hrun1 & Hlog1 & Hself1 & Hframe1).
  pose proof (proj1 Hframe1 _ _ _ Hs) as Hs1.
  pose proof (staging_frame_stageable _ _ _ _ Hframe1 Hok) as Hok1.
  destruct (stage_file_step D self idx w1 b a i s bs sa Hself1 Hk Hn Hr Hs1 Hv Hok1)
    as (w2 & Hrun2 & Hlog2 & _).
  exists w1, w2. split; [exact Hrun1 |]. split; [exact Hrun2 |].
  rewrite Hdue in *. rewrite Hlog2, Hlog1, <- app_assoc. split; [reflexivity |].
  unfold staging_due in Hdue. unfold staging_events.
  destruct (parent a) as [p |]; [| rewrite !andb_false_r in Hdue; cbn in Hdue; discriminate].
  rewrite !stage_out_count_app. cbn. rewrite Nat.eqb_refl. lia.
Qed.

(** ** Staging the slots up to the high-water mark *)

Lemma slot_at_inv w a idx s sa :
  slot_at w a idx = Some (s, sa) ->
  0 <= idx /\ items a !! Z.to_nat idx = Some s
  /\ exists bs, heap w !! s = Some (OFuture bs (IDynamicFile sa)).
Proof.
  unfold slot_at, wrapper_at. destruct (idx <? 0) eqn:E; [discriminate |].
  destruct (items a !! Z.to_nat idx) as [s' |]; [| discriminate].
  destruct (heap w !! s') as [[? | bs []] |] eqn:Es; try discriminate.
  intros [= <- <-]. split; [lia |]. split; [reflexivity | eauto].
Qed.

Lemma slot_at_intro w a idx s bs sa :
  0 <= idx -> items a !! Z.to_nat idx = Some s ->
  heap w !! s = Some (OFuture bs (IDynamicFile sa)) ->
  slot_at w a idx = Some (s, sa).
Proof.
  intros H0 Hi Hs. unfold slot_at, wrapper_at.
  replace (idx <? 0) with false by lia. rewrite Hi, Hs. reflexivity.
Qed.

Lemma slot_at_kept w w' a a' idx s sa :
  (forall s bs sa, heap w !! s = Some (OFuture bs (IDynamicFile sa)) ->
                   heap w' !! s = Some (OFuture bs (IDynamicFile sa))) ->
  items a' = items a ->
  slot_at w a idx = Some (s, sa) -> slot_at w' a' idx = Some (s, sa).
Proof.
  intros Hkeep Hitems H. destruct (slot_at_inv _ _ _ _ _ H) as (H0 & Hi & bs & Hs).
  eapply slot_at_intro; [exact H0 | rewrite Hitems; exact Hi | exact (Hkeep _ _ _ Hs)].
Qed.

Lemma slots_stageable_In w a idxs idx :
  slots_stageable w a idxs = true -> In idx idxs ->
  exists s sa, slot_at w a idx = Some (s, sa) /\ stageable w a sa = true.
Proof.
  unfold slots_stageable. rewrite forallb_forall. intros H Hin. specialize (H _ Hin).
  destruct (slot_at w a idx) as [[s sa] |]; [eauto | discriminate].
Qed.

Lemma future_slots_In w a idxs idx :
  future_slots w a idxs = true -> In idx idxs ->
  exists s sa, slot_at w a idx = Some (s, sa) /\ _is_df sa = true.
Proof.
  unfold future_slots. rewrite forallb_forall. intros H Hin. specialize (H _ Hin).
  destruct (slot_at w a idx) as [[s sa] |]; [eauto | discriminate].
Qed.

Lemma slots_stageable_kept w w' a a' idxs :
  (forall s bs sa, heap w !! s = Some (OFuture bs (IDynamicFile sa)) ->
                   heap w' !! s = Some (OFuture bs (IDynamicFile sa))) ->
  items a' = items a ->
  (forall sa, stageable w a sa = true -> stageable w' a' sa = true) ->
  slots_stageable w a idxs = true -> slots_stageable w' a' idxs = true.
Proof.
  intros Hkeep Hitems Hok H. unfold slots_stageable. apply forallb_forall. intros idx Hin.
  destruct (slots_stageable_In _ _ _ _ H Hin) as (s & sa & Hslot & Hst).
  rewrite (slot_at_kept _ _ _ _ _ _ _ Hkeep Hitems Hslot). auto.
Qed.

Lemma due_slots_kept w w' a idxs :
  (forall s bs sa, heap w !! s = Some (OFuture bs (IDynamicFile sa)) ->
                   heap w' !! s = Some (OFuture bs (IDynamicFile sa))) ->
  slots_stageable w a idxs = true ->
  due_slots w' a idxs = due_slots w a idxs.
Proof.
  intros Hkeep. induction idxs as [| idx idxs IH]; [reflexivity |].
  intros H. cbn in H. apply andb_prop in H as [H1 H2].
  unfold due_slots in *. cbn [omap list_omap].
  destruct (slot_at w a idx) as [[s sa] |] eqn:E; [| discriminate].
  rewrite (slot_at_kept _ _ _ _ _ _ _ Hkeep eq_refl E), (IH H2). reflexivity.
Qed.

Lemma stage_out_slots_app lg lg' :
  stage_out_slots (lg ++ lg') = stage_out_slots lg ++ stage_out_slots lg'.
Proof. unfold stage_out_slots. apply omap_app. Qed.

Lemma stage_out_slots_step self idx s copy a sa :
  stage_out_slots (if staging_due a sa then staging_events self idx s copy a else [])
  = if staging_due a sa then [(idx, s)] else [].
Proof.
  destruct (staging_due a sa) eqn:E; [| reflexivity].
  unfold staging_due in E. unfold staging_events.
  destruct (parent a); [reflexivity |].
  rewrite !andb_false_r in E. cbn in E. discriminate.
Qed.

Lemma staging_frame_upd_list w l b a b' a' :
  heap w !! l = Some (OFuture b (IDynamicFileList a)) ->
  staging_frame w (with_heap (<[l := OFuture b' (IDynamicFileList a')]> (heap w)) w).
Proof.
  intros H. split; [| split].
  - intros s bs sa Hs. assert (l <> s) by congruence. lookup_tac.
  - intros sa Hr. unfold future_readable in *. destruct (_is_df sa); [| reflexivity].
    destruct (dyn_file_obj sa) as [d |]; [| discriminate].
    destruct (heap w !! d) as [[? | bd []] |] eqn:Ed; try discriminate.
    destruct (heap w !! df_file_obj a0) as [[fo | ? ?] |] eqn:Ef; try discriminate.
    assert (l <> d) by congruence. assert (l <> df_file_obj a0) by congruence.
    cbn [heap with_heap]. rewrite list_lookup_insert_ne by assumption. rewrite Ed.
    rewrite list_lookup_insert_ne by assumption. rewrite Ef. reflexivity.
  - intros T bT aT HT. assert (l <> T) by congruence. exists bT.
    split; [lookup_tac | split; reflexivity].
Qed.

Lemma stage_loop D self (body : Z -> M unit) idxs : forall w0 w b a,
  staging_frame w0 w ->
  heap w !! self = Some (OFuture b (IDynamicFileList a)) ->
  _sub_callbacks a = [] ->
  (forall idx, In idx idxs -> idx < Z.of_nat (length (items a))) ->
  slots_stageable w a idxs = true ->
  (forall idx W, In idx idxs ->
     heap W !! self = Some (OFuture b (IDynamicFileList a)) ->
     staging_frame w0 W ->
     body idx W = DynamicFileList.stage_file D self idx W) ->
  exists w',
    for_each idxs body w = (w', Ret tt)
    /\ stage_out_slots (log w') = stage_out_slots (log w) ++ due_slots w a idxs
    /\ heap w' !! self = Some (OFuture b (IDynamicFileList a))
    /\ staging_frame w w'.
Proof.
  induction idxs as [| idx idxs IH]; intros w0 w b a H0w H Hv Hlen Hall Hbody.
  - exists w. cbn. rewrite app_nil_r. split; [reflexivity |]. split; [reflexivity |].
    split; [exact H | apply staging_frame_refl].
  - destruct (slots_stageable_In _ _ _ _ Hall (or_introl eq_refl)) as (s & sa & Hslot & Hok).
    destruct (slot_at_inv _ _ _ _ _ Hslot) as (H0 & Hi & bs & Hs).
    pose proof (Hlen idx (or_introl eq_refl)) as Hk.
    destruct (stage_file_step D self idx w b a (Z.to_nat idx) s bs sa H Hk
                ltac:(apply norm_index_nonneg; lia) Hi Hs Hv Hok)
      as (w1 & Hrun1 & Hlog1 & Hself1 & Hframe1).
    assert (Hall1 : slots_stageable w1 a idxs = true).
    { cbn in Hall. apply andb_prop in Hall as [_ Hall].
      eapply slots_stageable_kept; [| reflexivity | | exact Hall].
      - apply (proj1 Hframe1).
      - intros sa'. apply staging_frame_stageable. exact Hframe1. }
    destruct (IH w0 w1 b a (staging_frame_trans _ _ _ H0w Hframe1) Hself1 Hv)
      as (w' & Hrun & Hlog & Hself & Hframe).
    { intros k Hk'. apply Hlen. right. exact Hk'. }
    { exact Hall1. }
    { intros k W Hk' HW HWs. apply Hbody; [right; exact Hk' | exact HW | exact HWs]. }
    exists w'. split.
    { cbn [for_each]. unfold bind. rewrite (Hbody idx w (or_introl eq_refl) H H0w).
      rewrite Hrun1. exact Hrun. }
    split.
    { rewrite Hlog, Hlog1, stage_out_slots_app, stage_out_slots_step, <- app_assoc. f_equal.
      rewrite (due_slots_kept w w1 a idxs).
      - unfold due_slots. cbn [omap list_omap]. rewrite Hslot.
        destruct (staging_due a sa); reflexivity.
      - apply (proj1 Hframe1).
      - cbn in Hall. apply andb_prop in Hall as [_ Hall]. exact Hall. }
    split; [exact Hself |]. exact (staging_frame_trans _ _ _ Hframe1 Hframe).
Qed.

(** ** Attaching the staging context and the producing task *)

Lemma stageable_same_parent w a a' sa :
  parent a' = parent a -> stageable w a' sa = stageable w a sa.
Proof. intros E. unfold stageable. rewrite E. reflexivity. Qed.

Lemma due_slots_nil w a idxs :
  staging_due_never a = true -> due_slots w a idxs = [].
Proof.
  intros H. unfold due_slots. induction idxs as [| idx idxs IH]; [reflexivity |].
  cbn [omap list_omap]. rewrite IH.
  destruct (slot_at w a idx) as [[s sa] |]; [| reflexivity].
  replace (staging_due a sa) with false; [reflexivity |].
  unfold staging_due_never in H. unfold staging_due.
  destruct (dataflow a), (parent a); cbn in *; try discriminate;
    rewrite ?andb_false_r; reflexivity.
Qed.

Lemma set_dataflow_run D w l b a dfk exec inh tid rec :
  heap w !! l = Some (OFuture b (IDynamicFileList a)) ->
  _sub_callbacks a = [] ->
  _last_idx a < Z.of_nat (length (items a)) ->
  slots_stageable w (with_dataflow exec (Some dfk) inh (Some tid) (Some rec) a)
    (py_range 0 (_last_idx a + 1)) = true ->
  exists w',
    DynamicFileList.set_dataflow D l dfk exec inh tid rec w = (w', Ret tt)
    /\ heap w' !! l
       = Some (OFuture b (IDynamicFileList
                 (with_dataflow exec (Some dfk) inh (Some tid) (Some rec) a)))
    /\ stage_out_slots (log w')
       = stage_out_slots (log w)
         ++ due_slots w (with_dataflow exec (Some dfk) inh (Some tid) (Some rec) a)
              (py_range 0 (_last_idx a + 1))
    /\ staging_frame w w'.
Proof.
  intros H Hv Hlen Hall. bounds.
  set (a' := with_dataflow exec (Some dfk) inh (Some tid) (Some rec) a) in *.
  unfold DynamicFileList.set_dataflow. run. fold a'. cbn [_last_idx with_dataflow a'].
  set (w0 := mkWorld _ _ _).
  assert (F0 : staging_frame w w0)
    by exact (staging_frame_upd_list w l b a b a' H).
  assert (H0' : heap w0 !! l = Some (OFuture b (IDynamicFileList a')))
    by (subst w0; lookup_tac).
  destruct (stage_loop D l (fun idx => DynamicFileList.stage_file D l idx)
              (py_range 0 (_last_idx a + 1)) w0 w0 b a' (staging_frame_refl w0) H0' Hv)
    as (w' & Hrun & Hlog & Hself & F1).
  { intros idx Hin. apply in_py_range in Hin. cbn [items with_dataflow a']. lia. }
  { eapply slots_stageable_kept; [apply (proj1 F0) | reflexivity | | exact Hall].
    intros sa. apply staging_frame_stageable. exact F0. }
  { reflexivity. }
  exists w'. split; [exact Hrun |]. split; [exact Hself |]. split.
  - rewrite Hlog. f_equal. apply due_slots_kept; [apply (proj1 F0) | exact Hall].
  - exact (staging_frame_trans _ _ _ F0 F1).
Qed.

Lemma set_parent_run D w l b a T bT aT :
  heap w !! l = Some (OFuture b (IDynamicFileList a)) ->
  heap w !! T = Some (OFuture bT (IAppFuture aT)) ->
  _state bT <> FINISHED ->
  parent a = None -> _sub_callbacks a = [] ->
  _last_idx a < Z.of_nat (length (items a)) ->
  slots_stageable w (with_parent (Some T) a) (py_range 0 (_last_idx a + 1)) = true ->
  future_slots w a (py_range 0 (_last_idx a + 1)) = true ->
  exists w' bT',
    DynamicFileList.set_parent D l T w = (w', Ret tt)
    /\ heap w' !! l = Some (OFuture b (IDynamicFileList (with_parent (Some T) a)))
    /\ heap w' !! T = Some (OFuture bT' (IAppFuture aT))
    /\ _done_callbacks bT' = _done_callbacks bT ++ [CbDynamicFileList l]
    /\ _state bT' = _state bT
    /\ stage_out_slots (log w')
       = stage_out_slots (log w)
         ++ due_slots w (with_parent (Some T) a) (py_range 0 (_last_idx a + 1))
    /\ (forall s bs sa, heap w !! s = Some (OFuture bs (IDynamicFile sa)) ->
                        heap w' !! s = Some (OFuture bs (IDynamicFile sa)))
    /\ (forall sa, future_readable w sa = true -> future_readable w' sa = true).
Proof.
  intros H HT Hst Hp Hv Hlen Hall Hfut. bounds. assert (l <> T) by congruence.
  set (a' := with_parent (Some T) a) in *.
  unfold DynamicFileList.set_parent. run. rewrite Hp. run. fold a'.
  erewrite run_add_done_callback_pending by (lookup_tac || assumption).
  world_simpl. run. cbn [_last_idx with_parent a'].
  set (w0 := mkWorld _ _ _).
  assert (H0' : heap w0 !! l = Some (OFuture b (IDynamicFileList a')))
    by (subst w0; lookup_tac).
  assert (HT0 : heap w0 !! T
                = Some (OFuture (with_done_callbacks
                                   (_done_callbacks bT ++ [CbDynamicFileList l]) bT)
                          (IAppFuture aT))) by (subst w0; lookup_tac).
  assert (Hkeep : forall s' bs' sa', heap w !! s' = Some (OFuture bs' (IDynamicFile sa')) ->
                                     heap w0 !! s' = Some (OFuture bs' (IDynamicFile sa'))).
  { intros s' bs' sa' Hs'. assert (l <> s') by congruence. assert (T <> s') by congruence.
    subst w0. lookup_tac. }
  assert (Hread : forall sa, future_readable w sa = true -> future_readable w0 sa = true).
  { intros sa Hr. unfold future_readable in *. destruct (_is_df sa); [| reflexivity].
    destruct (dyn_file_obj sa) as [d |]; [| discriminate].
    destruct (heap w !! d) as [[? | bd []] |] eqn:Ed; try discriminate.
    destruct (heap w !! df_file_obj a0) as [[fo | ? ?] |] eqn:Ef; try discriminate.
    assert (l <> d) by congruence. assert (l <> df_file_obj a0) by congruence.
    assert (T <> d) by congruence. assert (T <> df_file_obj a0) by congruence.
    subst w0. cbn [heap].
    rewrite !list_lookup_insert_ne by assumption. rewrite Ed.
    rewrite !list_lookup_insert_ne by assumption. rewrite Ef. reflexivity. }
  assert (Hall0 : slots_stageable w0 a' (py_range 0 (_last_idx a + 1)) = true).
  { eapply slots_stageable_kept; [exact Hkeep | reflexivity | | exact Hall].
    intros sa Hok. unfold stageable in *. cbn [parent with_parent a'] in *.
    rewrite HT0. apply andb_prop in Hok as [_ Hr]. cbn. auto. }
  destruct (stage_loop D l
              (fun idx => do s <- DynamicFileList._getitem_int D l idx;
                          do _ <- DynamicFileList.DynamicFile.convert_to_df D s;
                          DynamicFileList.stage_file D l idx)
              (py_range 0 (_last_idx a + 1)) w0 w0 b a' (staging_frame_refl w0) H0' Hv)
    as (w' & Hrun & Hlog & Hself & F1).
  { intros idx Hin. apply in_py_range in Hin. cbn [items with_parent a']. lia. }
  { exact Hall0. }
  { intros idx W Hin HW HWs. pose proof (in_py_range _ _ _ Hin) as Hr.
    destruct (future_slots_In _ _ _ _ Hfut Hin) as (s & sa & Hslot & Hdf).
    destruct (slot_at_inv _ _ _ _ _ Hslot) as (Hge & Hi & bs & Hs).
    pose proof (lookup_lt_Some _ _ _ Hi).
    rread by (eapply getitem_int_in_range;
              [exact HW | cbn; lia | apply norm_index_nonneg; cbn; lia | exact Hi]).
    unfold DynamicFileList.DynamicFile.convert_to_df. rewrite !run_bind_assoc.
    erewrite run_get_dyn by (apply (proj1 HWs); apply Hkeep; exact Hs).
    rewrite Hdf. reflexivity. }
  unfold bind at 1. rewrite Hrun.
  erewrite call_callbacks_no_views; [| exact Hself | exact Hv].
  destruct (proj2 (proj2 F1) _ _ _ HT0) as (bT' & HT' & Ecb & Est).
  exists w', bT'. split; [reflexivity |]. split; [exact Hself |].
  split; [exact HT' |]. split; [rewrite Ecb; reflexivity |].
  split; [rewrite Est; reflexivity |]. split.
  { rewrite Hlog. f_equal. apply due_slots_kept; [exact Hkeep | exact Hall]. }
  split.
  - intros s bs sa Hs. apply (proj1 F1). apply Hkeep. exact Hs.
  - intros sa Hr. apply (proj1 (proj2 F1)). apply Hread. exact Hr.
Qed.

(** [set_dataflow] on a list without views whose slots up to the
    high-water mark are in the store: the call returns, records the
    staging context, and submits one stage-out for each slot that is then
    due for staging, in the order of the indices, and none for any other
    slot. *)
Theorem set_dataflow_stages_due_slots D w l b a dfk exec inh tid rec :
  heap w !! l = Some (OFuture b (IDynamicFileList a)) ->
  _sub_callbacks a = [] ->
  _last_idx a < Z.of_nat (length (items a)) ->
  slots_stageable w (with_dataflow exec (Some dfk) inh (Some tid) (Some rec) a)
    (py_range 0 (_last_idx a + 1)) = true ->
  exists w',
    DynamicFileList.set_dataflow D l dfk exec inh tid rec w = (w', Ret tt)
    /\ list_at w' l = Some (with_dataflow exec (Some dfk) inh (Some tid) (Some rec) a)
    /\ stage_out_slots (log w')
       = stage_out_slots (log w)
         ++ due_slots w (with_dataflow exec (Some dfk) inh (Some tid) (Some rec) a)
              (py_range 0 (_last_idx a + 1)).
Proof.
  intros H Hv Hlen Hall.
  destruct (set_dataflow_run D w l b a dfk exec inh tid rec H Hv Hlen Hall)
    as (w' & Hrun & Hself & Hlog & _).
  exists w'. split; [exact Hrun |]. split; [| exact Hlog].
  unfold list_at. rewrite Hself. reflexivity.
Qed.

(** [set_parent] on a list without views whose filled slots all wrap
    futures: the first call returns, attaches the pending task future [T],
    registers the list's callback on it and submits one stage-out for each
    slot that is then due for staging, in the order of the indices; every
    later call raises [ValueError] and changes nothing. *)
Theorem set_parent_stages_due_slots D w l b a T bT aT :
  heap w !! l = Some (OFuture b (IDynamicFileList a)) ->
  heap w !! T = Some (OFuture bT (IAppFuture aT)) ->
  _state bT <> FINISHED ->
  parent a = None -> _sub_callbacks a = [] ->
  _last_idx a < Z.of_nat (length (items a)) ->
  slots_stageable w (with_parent (Some T) a) (py_range 0 (_last_idx a + 1)) = true ->
  future_slots w a (py_range 0 (_last_idx a + 1)) = true ->
  exists w',
    DynamicFileList.set_parent D l T w = (w', Ret tt)
    /\ list_at w' l = Some (with_parent (Some T) a)
    /\ (_done_callbacks <$> future_at w' T)
       = Some (_done_callbacks bT ++ [CbDynamicFileList l])
    /\ stage_out_slots (log w')
       = stage_out_slots (log w)
         ++ due_slots w (with_parent (Some T) a) (py_range 0 (_last_idx a + 1))
    /\ forall T', DynamicFileList.set_parent D l T' w' = (w', Raise ValueError).
Proof.
  intros H HT Hst Hp Hv Hlen Hall Hfut.
  destruct (set_parent_run D w l b a T bT aT H HT Hst Hp Hv Hlen Hall Hfut)
    as (w' & bT' & Hrun & Hself & HT' & Ecb & _ & Hlog & _).
  exists w'. split; [exact Hrun |].
  split; [unfold list_at; rewrite Hself; reflexivity |].
  split; [unfold future_at; rewrite HT'; cbn; rewrite Ecb; reflexivity |].
  split; [exact Hlog |].
  intros T'. unfold DynamicFileList.set_parent.
  erewrite run_get_list by exact Hself. reflexivity.
Qed.

(** The order of the two attachments does not matter. On a list without
    task future, staging context and views whose filled slots wrap
    futures, [set_parent] followed by [set_dataflow] and [set_dataflow]
    followed by [set_parent] both return, leave the same attributes on the
    list, and submit the same stage-outs: one for each slot that is due
    once both are attached, in the order of the indices. The first of the
    two calls submits none. *)
Theorem staging_order_independent D w l b a T bT aT dfk exec inh tid rec :
  heap w !! l = Some (OFuture b (IDynamicFileList a)) ->
  heap w !! T = Some (OFuture bT (IAppFuture aT)) ->
  _state bT <> FINISHED ->
  parent a = None -> dataflow a = None -> _sub_callbacks a = [] ->
  _last_idx a < Z.of_nat (length (items a)) ->
  slots_stageable w (with_parent (Some T) a) (py_range 0 (_last_idx a + 1)) = true ->
  future_slots w a (py_range 0 (_last_idx a + 1)) = true ->
  let a2 := with_dataflow exec (Some dfk) inh (Some tid) (Some rec)
              (with_parent (Some T) a) in
  let due := due_slots w a2 (py_range 0 (_last_idx a + 1)) in
  exists w1 w2 v1 v2,
    DynamicFileList.set_parent D l T w = (w1, Ret tt)
    /\ DynamicFileList.set_dataflow D l dfk exec inh tid rec w1 = (w2, Ret tt)
    /\ DynamicFileList.set_dataflow D l dfk exec inh tid rec w = (v1, Ret tt)
    /\ DynamicFileList.set_parent D l T v1 = (v2, Ret tt)
    /\ stage_out_slots (log w1) = stage_out_slots (log w)
    /\ stage_out_slots (log v1) = stage_out_slots (log w)
    /\ stage_out_slots (log w2) = stage_out_slots (log w) ++ due
    /\ stage_out_slots (log v2) = stage_out_slots (log w) ++ due
    /\ list_at w2 l = Some a2 /\ list_at v2 l = Some a2.
Proof.
  intros H HT Hst Hp Hd Hv Hlen Hall Hfut a2 due.
  set (rng := py_range 0 (_last_idx a + 1)) in *.
  set (aP := with_parent (Some T) a) in *.
  set (aD := with_dataflow exec (Some dfk) inh (Some tid) (Some rec) a).
  (* task first *)
  destruct (set_parent_run D w l b a T bT aT H HT Hst Hp Hv Hlen Hall Hfut)
    as (w1 & bT1 & Hrun1 & Hself1 & HT1 & _ & _ & Hlog1 & Hkeep1 & Hread1).
  assert (HallP : slots_stageable w1 a2 rng = true).
  { apply (slots_stageable_kept w w1 aP a2 rng); [exact Hkeep1 | reflexivity | | exact Hall].
    intros sa Hok. unfold stageable in *. cbn [parent with_parent with_dataflow a2 aP] in *.
    rewrite HT1. apply andb_prop in Hok as [_ Hr]. cbn. auto. }
  destruct (set_dataflow_run D w1 l b aP dfk exec inh tid rec Hself1 Hv Hlen HallP)
    as (w2 & Hrun2 & Hself2 & Hlog2 & _).
  (* context first *)
  assert (HallD : slots_stageable w aD rng = true).
  { apply (slots_stageable_kept w w aP aD rng); [auto | reflexivity | | exact Hall].
    intros sa Hok. unfold stageable in *. cbn [parent with_dataflow aD]. rewrite Hp.
    apply andb_prop in Hok as [_ Hr]. exact Hr. }
  destruct (set_dataflow_run D w l b a dfk exec inh tid rec H Hv Hlen HallD)
    as (v1 & Hrun3 & Hself3 & Hlog3 & F3).
  destruct (proj2 (proj2 F3) _ _ _ HT) as (bT3 & HT3 & _ & Est3).
  assert (HallD1 : slots_stageable v1 (with_parent (Some T) aD) rng = true).
  { apply (slots_stageable_kept w v1 aP (with_parent (Some T) aD) rng);
      [apply (proj1 F3) | reflexivity | | exact Hall].
    intros sa Hok. unfold stageable in *. cbn [parent with_parent aP] in *.
    rewrite HT3. apply andb_prop in Hok as [_ Hr]. cbn.
    apply (proj1 (proj2 F3)). exact Hr. }
  assert (HfutD : future_slots v1 aD rng = true).
  { unfold future_slots in *. apply forallb_forall. intros idx Hin.
    rewrite forallb_forall in Hfut. specialize (Hfut _ Hin).
    destruct (slot_at w a idx) as [[s sa] |] eqn:E; [| discriminate].
    rewrite (slot_at_kept w v1 a aD idx s sa (proj1 F3) eq_refl E). exact Hfut. }
  destruct (set_parent_run D v1 l b aD T bT3 aT Hself3 HT3 ltac:(congruence) Hp Hv Hlen
              HallD1 HfutD)
    as (v2 & bT4 & Hrun4 & Hself4 & _ & _ & _ & Hlog4 & _).
  exists w1, w2, v1, v2.
  split; [exact Hrun1 |]. split; [exact Hrun2 |]. split; [exact Hrun3 |].
  split; [exact Hrun4 |].
  assert (E1 : due_slots w aP rng = []).
  { apply due_slots_nil. unfold staging_due_never. cbn [dataflow with_parent aP].
    rewrite Hd. reflexivity. }
  assert (E3 : due_slots w aD rng = []).
  { apply due_slots_nil. unfold staging_due_never. cbn [parent with_dataflow aD].
    rewrite Hp. apply orb_true_r. }
  unfold aP, rng in E1. unfold aD, rng in E3.
  rewrite E1, app_nil_r in Hlog1. rewrite E3, app_nil_r in Hlog3.
  split; [exact Hlog1 |]. split; [exact Hlog3 |]. split.
  { rewrite Hlog2, Hlog1. f_equal. subst due. fold a2.
    apply due_slots_kept; [exact Hkeep1 |].
    apply (slots_stageable_kept w w aP a2 rng); [auto | reflexivity | | exact Hall].
    intros sa Hok. rewrite (stageable_same_parent w aP a2) by reflexivity. exact Hok. }
  split.
  { rewrite Hlog4, Hlog3. f_equal. subst due.
    change (with_parent (Some T) aD) with a2.
    apply due_slots_kept; [apply (proj1 F3) |].
    apply (slots_stageable_kept w w aP a2 rng); [auto | reflexivity | | exact Hall].
    intros sa Hok. rewrite (stageable_same_parent w aP a2) by reflexivity. exact Hok. }
  unfold list_at. rewrite Hself2, Hself4. split; reflexivity.
Qed.

(** ** Adding and taking elements *)

Lemma append_file_run D w l b a f fo :
  heap w !! l = Some (OFuture b (IDynamicFileList a)) ->
  heap w !! f = Some (OFile fo) ->
  parent a = None -> _sub_callbacks a = [] -> _state b <> FINISHED ->
  _last_idx a = Z.of_nat (length (items a)) - 1 ->
  DynamicFileList.append D l f w
  = (with_heap
       (<[l := OFuture
                 (with_done_callbacks
                    (_done_callbacks b ++ [CbDynamicFile (length (heap w))]) b)
                 (IDynamicFileList
                    (with_last_idx (_last_idx a + 1)
                       (with_files_done
                          (dict_set (Some (filepath fo)) (length (heap w)) (files_done a))
                          (with_items (items a ++ [length (heap w)]) a))))]>
          (heap w)
        ++ [OFuture Future.__init__
              (IDynamicFile (mkDynamicFile false l (Some f) false false))]) w,
     Ret tt).
Proof.
  intros H Hf Hp Hv Hst Hc. bounds. assert (l <> f) by congruence.
  unfold DynamicFileList.append, DynamicFileList.typecheck_value. run. cbn [is_File orb].
  unfold DynamicFileList.normalise. run. cbn [is_DynamicFile]. run. rewrite Hp. run.
  unfold DynamicFileList.wrap, DynamicFileList.DynamicFile.__init__, isinstance. run.
  cbn [is_DataFuture is_none]. run.
  erewrite run_add_done_callback_pending by (lookup_tac || assumption).
  world_simpl. run.
  cbn [items _last_idx with_items]. rewrite Hc.
  replace (_ =? _) with true by lia.
  run. cbn [items _last_idx with_items].
  erewrite run_read; cycle 1.
  { eapply list_getitem_Some.
    - apply norm_index_nonneg. rewrite length_app. cbn [length]. lia.
    - rewrite Hc. replace (Z.to_nat _) with (length (items a)) by lia.
      rewrite lookup_app_r by lia. rewrite Nat.sub_diag. reflexivity. }
  erewrite run_read; cycle 1.
  { eapply filename_of_wrapper; [lookup_tac | reflexivity |].
    apply filepath_of_file. lookup_tac. }
  unfold DynamicFileList.add_done_func. run.
  erewrite run_read; cycle 1.
  { eapply stage_file_skips with (i := length (items a)).
    - lookup_tac.
    - cbn. rewrite length_app. cbn [length]. lia.
    - cbn. rewrite norm_index_nonneg by (rewrite length_app; cbn [length]; lia).
      f_equal. lia.
    - cbn. rewrite lookup_app_r by lia. rewrite Nat.sub_diag. reflexivity.
    - lookup_tac.
    - right. right. right. left. exact Hp. }
  erewrite call_callbacks_no_views; [| lookup_tac | exact Hv].
  world_simpl. rewrite ?list_insert_insert_eq. rewrite insert_app_l by lia.
  cbn [_last_idx files_done items with_files_done with_items with_last_idx].
  rewrite ?Hc. reflexivity.
Qed.

Lemma pop_run D w l b a index i s bs sa name :
  heap w !! l = Some (OFuture b (IDynamicFileList a)) ->
  _sub_callbacks a = [] ->
  index = -1 \/ index <= _last_idx a ->
  norm_index (length (items a)) (if index =? -1 then _last_idx a else index) = Some i ->
  items a !! i = Some s ->
  heap w !! s = Some (OFuture bs (IDynamicFile sa)) ->
  getattr_filename s w = (w, Ret name) ->
  dict_mem name (files_done a) = true ->
  DynamicFileList.pop D l index w
  = (with_heap
       (<[l := OFuture b (IDynamicFileList
                 (with_last_idx (_last_idx a - 1)
                    (with_files_done (dict_del name (files_done a))
                       (with_items (delete i (items a)) a))))]> (heap w)) w,
     Ret (dyn_file_obj sa)).
Proof.
  intros H Hv Hi Hn Hr Hs Hname Hmem. bounds. assert (l <> s) by congruence.
  unfold DynamicFileList.pop. run.
  assert (Hv' :
    (if index =? -1
     then do '(v, l0) <- list_pop (items a) (_last_idx a);
          do _ <- upd_list l (with_items l0); ret v
     else if index <=? _last_idx a
          then do '(v, l0) <- list_pop (items a) index;
               do _ <- upd_list l (with_items l0); ret v
          else raise IndexError)
    = (do '(v, l0) <- list_pop (items a) (if index =? -1 then _last_idx a else index);
       do _ <- upd_list l (with_items l0); ret v)).
  { destruct (index =? -1) eqn:E1; [reflexivity |].
    replace (index <=? _last_idx a) with true by lia. reflexivity. }
  rewrite Hv'. clear Hv'. run.
  erewrite run_read by (eapply list_pop_Some; eassumption).
  cbv beta iota. run.
  erewrite run_read by (eapply filename_list_update; eassumption).
  run. unfold dict_delitem. cbn [files_done with_items]. rewrite Hmem. run.
  erewrite run_read by (eapply call_callbacks_no_views; [lookup_tac | exact Hv]).
  run. reflexivity.
Qed.

(** Round trip. On a list without producing task and without views whose
    slots are all filled, [append(f)] of an artifact adds one slot that
    wraps [f], registers its completion predicate under the artifact's
    path and moves the high-water mark up by one; when that path was not
    registered before, a following [pop()] hands [f] back and leaves the
    list with the elements, the completion-predicate map and the
    high-water mark it had. *)
Theorem append_then_pop D w l b a f fo :
  heap w !! l = Some (OFuture b (IDynamicFileList a)) ->
  heap w !! f = Some (OFile fo) ->
  parent a = None -> _sub_callbacks a = [] -> _state b <> FINISHED ->
  _last_idx a = Z.of_nat (length (items a)) - 1 ->
  dict_mem (Some (filepath fo)) (files_done a) = false ->
  exists w1 w2,
    DynamicFileList.append D l f w = (w1, Ret tt)
    /\ list_at w1 l
       = Some (with_last_idx (_last_idx a + 1)
                 (with_files_done
                    (dict_set (Some (filepath fo)) (length (heap w)) (files_done a))
                    (with_items (items a ++ [length (heap w)]) a)))
    /\ wrapper_at w1 (length (heap w)) = Some (mkDynamicFile false l (Some f) false false)
    /\ DynamicFileList.pop D l (-1) w1 = (w2, Ret (Some f))
    /\ list_at w2 l = Some a
    /\ forall r, r <> l -> heap w2 !! r = heap w1 !! r.
Proof.
  intros H Hf Hp Hv Hst Hc Hfresh. bounds. assert (l <> f) by congruence.
  eexists _, _. split; [eapply append_file_run; eassumption |].
  set (s := length (heap w)).
  set (sa := mkDynamicFile false l (Some f) false false).
  assert (Hpop := fun b1 a1 H1 Hv1 i Hn Hr Hs =>
    pop_run D (with_heap (<[l := OFuture b1 (IDynamicFileList a1)]> (heap w)
                           ++ [OFuture Future.__init__ (IDynamicFile sa)]) w)
      l b1 a1 (-1) i s Future.__init__ sa (Some (filepath fo))
      H1 Hv1 (or_introl eq_refl) Hn Hr Hs).
  split; [| split; [| split; [| split]]].
  - unfold list_at. world_simpl. rewrite lookup_app_l by len_tac.
    rewrite list_lookup_insert_eq by lia. reflexivity.
  - unfold wrapper_at. world_simpl. subst s. rewrite lookup_snoc by len_tac. reflexivity.
  - erewrite Hpop with (i := length (items a)).
    + reflexivity.
    + lookup_tac.
    + exact Hv.
    + cbn. rewrite Hc. apply norm_index_at; [rewrite length_app; cbn [length] |]; lia.
    + cbn. rewrite lookup_app_r by lia. rewrite Nat.sub_diag. reflexivity.
    + subst s. lookup_tac.
    + eapply filename_of_wrapper; [subst s; lookup_tac | reflexivity |].
      apply filepath_of_file. lookup_tac.
    + cbn. apply dict_mem_set.
  - unfold list_at. world_simpl.
    rewrite list_lookup_insert_eq by len_tac.
    cbn [_last_idx files_done items with_files_done with_items with_last_idx].
    rewrite dict_del_set_fresh by exact Hfresh. rewrite delete_last.
    replace (_last_idx a + 1 - 1) with (_last_idx a) by lia.
    destruct a; reflexivity.
  - intros r Hr. world_simpl. rewrite list_lookup_insert_ne by congruence. reflexivity.
Qed.

(** [pop] on a list that holds nothing, or at an index other than -1 that
    lies above the high-water mark, raises [IndexError] and changes
    nothing. *)
Theorem pop_out_of_range D w l b a index :
  heap w !! l = Some (OFuture b (IDynamicFileList a)) ->
  items a = [] \/ (index <> -1 /\ _last_idx a < index) ->
  DynamicFileList.pop D l index w = (w, Raise IndexError).
Proof.
  intros H Hc. unfold DynamicFileList.pop. run.
  destruct Hc as [Hc | [Hc1 Hc2]].
  - unfold list_pop. rewrite Hc. cbn [length]. rewrite !norm_index_nil.
    destruct (index =? -1); [reflexivity |].
    destruct (index <=? _last_idx a); reflexivity.
  - replace (index =? -1) with false by lia.
    replace (index <=? _last_idx a) with false by lia. reflexivity.
Qed.

(** [pop] is not atomic on error: it takes the slot out of the list before
    it deletes the slot's name from the completion-predicate map. When
    that name is not registered, as for an empty placeholder, the call
    raises [KeyError] and leaves a list that has lost the slot, with the
    map and the high-water mark as before. *)
Theorem pop_not_atomic D w l b a index i s bs sa name :
  heap w !! l = Some (OFuture b (IDynamicFileList a)) ->
  index = -1 \/ index <= _last_idx a ->
  norm_index (length (items a)) (if index =? -1 then _last_idx a else index) = Some i ->
  items a !! i = Some s ->
  heap w !! s = Some (OFuture bs (IDynamicFile sa)) ->
  getattr_filename s w = (w, Ret name) ->
  dict_mem name (files_done a) = false ->
  DynamicFileList.pop D l index w
  = (with_heap (<[l := OFuture b (IDynamicFileList (with_items (delete i (items a)) a))]>
                  (heap w)) w,
     Raise KeyError).
Proof.
  intros H Hi Hn Hr Hs Hname Hmem. bounds. assert (l <> s) by congruence.
  unfold DynamicFileList.pop. run.
  assert (Hv' :
    (if index =? -1
     then do '(v, l0) <- list_pop (items a) (_last_idx a);
          do _ <- upd_list l (with_items l0); ret v
     else if index <=? _last_idx a
          then do '(v, l0) <- list_pop (items a) index;
               do _ <- upd_list l (with_items l0); ret v
          else raise IndexError)
    = (do '(v, l0) <- list_pop (items a) (if index =? -1 then _last_idx a else index);
       do _ <- upd_list l (with_items l0); ret v)).
  { destruct (index =? -1) eqn:E1; [reflexivity |].
    replace (index <=? _last_idx a) with true by lia. reflexivity. }
  rewrite Hv'. clear Hv'. run.
  erewrite run_read by (eapply list_pop_Some; eassumption).
  cbv beta iota. run.
  erewrite run_read by (eapply filename_list_update; eassumption).
  run. unfold dict_delitem. cbn [files_done with_items]. rewrite Hmem. reflexivity.
Qed.

(** With a producing task attached, a bare artifact cannot be added: the
    construction of its [DataFuture] lacks the [dfk] argument, so [append],
    [insert] at an index up to the high-water mark and [extend] raise
    [TypeError] and change nothing. *)
Theorem bare_file_with_parent_raises D w l b a p f fo :
  heap w !! l = Some (OFuture b (IDynamicFileList a)) ->
  heap w !! f = Some (OFile fo) ->
  parent a = Some p ->
  DynamicFileList.append D l f w = (w, Raise TypeError)
  /\ (forall index, index <= _last_idx a ->
        DynamicFileList.insert D l index f w = (w, Raise TypeError))
  /\ (forall rest, DynamicFileList.extend D l (f :: rest) w = (w, Raise TypeError)).
Proof.
  intros H Hf Hp.
  assert (N : DynamicFileList.normalise D l f w = (w, Raise TypeError)).
  { unfold DynamicFileList.normalise. run. cbn [is_DynamicFile]. run. rewrite Hp.
    cbn [is_File]. reflexivity. }
  split; [| split].
  - unfold DynamicFileList.append, DynamicFileList.typecheck_value. run.
    cbn [is_File orb]. run. unfold bind. rewrite N. reflexivity.
  - intros index Hi. unfold DynamicFileList.insert. run.
    replace (_last_idx a <? index) with false by lia.
    unfold bind. rewrite N. reflexivity.
  - intros rest. unfold DynamicFileList.extend. cbn [DynamicFileList.extend_collect].
    run. cbn [is_DynamicFile is_File is_DataFuture orb negb].
    unfold bind. rewrite N. reflexivity.
Qed.


(** An indexed write of an artifact to an empty placeholder of a list
    without producing task and without views fills the placeholder in
    place: the slot wraps the artifact, its completion predicate is
    registered under the artifact's [filename] (by [set]) and under its
    [filepath] (by [__setitem__]), the name [None] of the placeholder is
    unregistered, and the high-water mark becomes the larger of its value
    and the index. *)
Theorem setitem_fills_placeholder D w l b a key f fo i s bs sa :
  heap w !! l = Some (OFuture b (IDynamicFileList a)) ->
  heap w !! f = Some (OFile fo) ->
  parent a = None -> _sub_callbacks a = [] ->
  key < Z.of_nat (length (items a)) ->
  norm_index (length (items a)) key = Some i ->
  items a !! i = Some s ->
  heap w !! s = Some (OFuture bs (IDynamicFile sa)) ->
  _empty sa = true -> dyn_file_obj sa = None -> dyn_parent sa = l ->
  DynamicFileList.__setitem__ D l key f w
  = (with_heap
       (<[l := OFuture b (IDynamicFileList
                 (with_last_idx (Z.max (_last_idx a) key)
                    (with_files_done
                       (dict_set (Some (filepath fo)) s
                          (dict_set (Some (filename fo)) s
                             (if dict_mem None (files_done a)
                              then dict_del None (files_done a)
                              else files_done a)))
                       a)))]>
          (<[s := OFuture bs (IDynamicFile
                    (mkDynamicFile false l (Some f) false (_staged_out sa)))]>
             (heap w))) w,
     Ret tt).
Proof.
  intros H Hf Hp Hv Hk Hn Hr Hs He Hfo Hpar. bounds.
  assert (l <> s) by congruence. assert (l <> f) by congruence.
  assert (s <> f) by congruence.
  unfold DynamicFileList.__setitem__, DynamicFileList.typecheck_value. run.
  cbn [is_File orb]. run.
  erewrite run_read by (eapply getitem_int_in_range; eassumption).
  erewrite run_read by (eapply filename_of_empty_wrapper; eassumption).
  run.
  set (fd0 := if dict_mem None (files_done a) then dict_del None (files_done a)
              else files_done a).
  assert (K : forall (k : unit -> M unit),
    bind (if dict_mem None (files_done a)
          then do s0 <- DynamicFileList._getitem_int D l key;
               do name <- getattr_filename s0;
               do a0 <- get_list l;
               do fd <- dict_delitem name (files_done a0);
               upd_list l (with_files_done fd)
          else ret tt) k w
    = k tt (with_heap (<[l := OFuture b (IDynamicFileList (with_files_done fd0 a))]>
                         (heap w)) w)).
  { intros k. subst fd0. destruct (dict_mem None (files_done a)) eqn:Em.
    - rread by (eapply getitem_int_in_range; eassumption).
      rread by (eapply filename_of_empty_wrapper; eassumption).
      run. unfold dict_delitem. rewrite Em. run. reflexivity.
    - run. f_equal. destruct w as [h lg ck]. unfold with_heap. cbn in *. f_equal.
      rewrite list_insert_id; [reflexivity |]. rewrite H. destruct a; reflexivity. }
  rewrite K. clear K. run. cbn [items with_files_done].
  erewrite run_read by (eapply list_getitem_Some; eassumption).
  unfold DynamicFileList.DynamicFile.empty. run. rewrite He. run.
  cbn [parent with_files_done]. rewrite Hp. run.
  unfold DynamicFileList.DynamicFile.set. run. cbn [is_File is_DataFuture is_DynamicFile orb negb].
  run. cbn [dyn_parent with_is_df with_empty with_dyn_file_obj]. rewrite Hpar. run.
  unfold getattr_filename at 1. run.
  unfold DynamicFileList.add_done_func. run.
  cbn [items with_files_done].
  erewrite run_read by (eapply list_getitem_Some; eassumption).
  erewrite run_read; cycle 1.
  { eapply filename_of_wrapper; [lookup_tac | reflexivity |].
    apply filepath_of_file. lookup_tac. }
  run.
  erewrite run_read by (eapply call_callbacks_no_views; [lookup_tac | exact Hv]).
  erewrite stage_file_skips; cycle 1.
  - lookup_tac.
  - exact Hk.
  - exact Hn.
  - exact Hr.
  - lookup_tac.
  - right. right. right. left. exact Hp.
  - world_simpl. rewrite (list_insert_insert_ne _ s l) by congruence.
    rewrite list_insert_insert_eq.
    unfold with_is_df, with_empty, with_dyn_file_obj.
    cbn [files_done _last_idx with_files_done with_last_idx _staged_out _is_df _empty
         dyn_file_obj dyn_parent].
    rewrite Hpar. reflexivity.
Qed.

(** [append] into a placeholder. When the slot after the high-water mark
    exists already (an earlier read beyond the length created it),
    [append] hands the freshly built wrapper to [set] of that slot, and
    [set] stores the wrapper itself: the slot wraps a wrapper, so it does
    not count as wrapping a future, and its [done()] is true whatever the
    state of the appended future. The list does not grow. *)
Theorem append_into_placeholder D w l b a s bs sa d bd da fo :
  heap w !! l = Some (OFuture b (IDynamicFileList a)) ->
  _state b <> FINISHED -> _sub_callbacks a = [] ->
  -1 <= _last_idx a -> _last_idx a + 1 < Z.of_nat (length (items a)) ->
  items a !! Z.to_nat (_last_idx a + 1) = Some s ->
  heap w !! s = Some (OFuture bs (IDynamicFile sa)) ->
  dyn_parent sa = l ->
  heap w !! d = Some (OFuture bd (IDataFuture da)) ->
  heap w !! df_file_obj da = Some (OFile fo) ->
  exists w',
    DynamicFileList.append D l d w = (w', Ret tt)
    /\ list_at w' l
       = Some (with_last_idx (_last_idx a + 1)
                 (with_files_done (dict_set (Some (filepath fo)) s (files_done a)) a))
    /\ wrapper_at w' s
       = Some (mkDynamicFile false l (Some (length (heap w))) false (_staged_out sa))
    /\ wrapper_at w' (length (heap w)) = Some (mkDynamicFile true l (Some d) false false)
    /\ DynamicFileList.DynamicFile.done s w' = (w', Ret true)
    /\ heap w' !! d = Some (OFuture bd (IDataFuture da)).
Proof.
  intros H Hst Hv Hlo Hhi Hi Hs Hpar Hd Hfo. bounds.
  assert (l <> s) by congruence. assert (l <> d) by congruence.
  assert (s <> d) by congruence. assert (d <> df_file_obj da) by congruence.
  assert (l <> df_file_obj da) by congruence.
  assert (s <> df_file_obj da) by congruence.
  unfold DynamicFileList.append, DynamicFileList.typecheck_value. run.
  cbn [is_File is_DataFuture orb]. run.
  unfold DynamicFileList.normalise. run. cbn [is_DynamicFile]. run.
  assert (K : forall (k : ref -> M unit),
    bind (match parent a with
          | Some p =>
              if is_File (OFuture bd (IDataFuture da))
              then DataFuture.__init__ D p (Some d) None (_output_task_id a) None
              else ret d
          | None => ret d
          end) k w = k d w).
  { intros k. destruct (parent a); reflexivity. }
  rewrite K. clear K.
  unfold DynamicFileList.wrap, DynamicFileList.DynamicFile.__init__, isinstance. run.
  cbn [is_DataFuture is_none]. run.
  erewrite run_add_done_callback_pending by (lookup_tac || assumption).
  world_simpl. run.
  replace (_last_idx a =? Z.of_nat (length (items a)) - 1) with false by lia.
  rread by (eapply list_getitem_Some; [apply norm_index_nonneg; lia | eassumption]).
  unfold DynamicFileList.DynamicFile.set. run.
  cbn [is_File is_DataFuture is_DynamicFile orb negb]. run.
  cbn [dyn_parent dyn_file_obj with_is_df with_empty with_dyn_file_obj]. rewrite Hpar. run.
  rread by (eapply filename_of_wrapper;
            [lookup_tac | reflexivity | eapply filepath_of_data; [lookup_tac | lookup_tac]]).
  unfold DynamicFileList.add_done_func. run.
  cbn [items _last_idx with_files_done].
  rread by (eapply list_getitem_Some; [apply norm_index_nonneg; lia | eassumption]).
  rread by (eapply filename_of_wrapper;
            [lookup_tac | reflexivity | eapply filepath_of_data; [lookup_tac | lookup_tac]]).
  run. cbn [_last_idx with_last_idx with_files_done].
  rread by (eapply stage_file_skips with (i := Z.to_nat (_last_idx a + 1));
            [ lookup_tac | cbn; lia | cbn; apply norm_index_nonneg; lia
            | cbn; eassumption | lookup_tac | right; right; right; right; reflexivity ]).
  erewrite call_callbacks_no_views; [| lookup_tac | exact Hv].
  eexists. split; [reflexivity |].
  unfold list_at, wrapper_at. world_simpl.
  split; [| split; [| split; [| split]]].
  - rewrite list_lookup_insert_eq by len_tac.
    cbn [files_done with_files_done].
    assert (E : forall k v fd, dict_set k v (dict_set k v fd) = dict_set k v fd).
    { clear. intros k v fd. induction fd as [| [k' v'] fd IH]; simpl.
      - rewrite key_eqb_refl. reflexivity.
      - destruct (key_eqb k' k) eqn:E; simpl; rewrite E; [reflexivity | f_equal; exact IH]. }
    rewrite E. reflexivity.
  - rewrite list_lookup_insert_ne by congruence.
    rewrite list_lookup_insert_eq by len_tac.
    unfold with_is_df, with_empty, with_dyn_file_obj. cbn. rewrite Hpar. reflexivity.
  - do 3 (rewrite list_lookup_insert_ne by lia). rewrite lookup_snoc by reflexivity.
    reflexivity.
  - unfold DynamicFileList.DynamicFile.done. run. reflexivity.
  - lookup_tac.
Qed.


(** ** Resolution of the futures *)




(** The callback of a slot never takes over a failure. It asks the list
    for its exception, and the list answers [None] whatever its state: the
    slot's artifact is timestamped, and then, when the list has a staging
    context, registered as an output and made the slot's result; without
    a staging context the callback raises [AttributeError] after the
    timestamp has been written and the slot stays pending. *)
Theorem slot_callback_ignores_failure D w l bl al s bs sa f tf fo :
  heap w !! l = Some (OFuture bl (IDynamicFileList al)) ->
  heap w !! s = Some (OFuture bs (IDynamicFile sa)) ->
  dyn_parent sa = l -> dyn_file_obj sa = Some f ->
  _state bs <> FINISHED -> _done_callbacks bs = [] ->
  heap w !! tf = Some (OFile fo) ->
  tf = f \/ (exists bd da, heap w !! f = Some (OFuture bd (IDataFuture da))
                           /\ df_file_obj da = tf) ->
  let stamped := <[tf := OFile (mkFile (filepath fo) (filename fo) (Some (clock w)))]>
                   (heap w) in
  DynamicFileList.DynamicFile.parent_callback D s l w
  = match dataflow al with
    | Some _ =>
        (mkWorld (<[s := OFuture (with_state FINISHED (with_result (Some f) bs))
                            (IDynamicFile sa)]> stamped)
           (log w ++ [EvRegisterAsOutput (Some f) (task_record al)])
           (S (clock w)),
         Ret tt)
    | None => (mkWorld stamped (log w) (S (clock w)), Raise AttributeError)
    end.
Proof.
  intros Hl Hs Hpar Hfo Hst Hcb Htf Hf stamped. subst stamped. bounds.
  assert (l <> s) by congruence. assert (l <> tf) by congruence.
  assert (s <> tf) by congruence.
  unfold DynamicFileList.DynamicFile.parent_callback,
    DynamicFileList.DynamicFile.exception_of. run.
  unfold DynamicFileList.exception. run.
  unfold datetime_now at 1. unfold bind at 1. world_simpl.
  run. rewrite Hfo.
  assert (K : forall (k : unit -> M unit) W,
    heap W = heap w ->
    bind (setattr_timestamp (Some f) (clock w)) k W
    = k tt (mkWorld (<[tf := OFile (mkFile (filepath fo) (filename fo) (Some (clock w)))]>
                       (heap w)) (log W) (clock W))).
  { intros k W HW. unfold setattr_timestamp. rewrite run_bind_assoc.
    destruct Hf as [<- | (bd & da & Hd & <-)].
    - erewrite run_lookup_obj by (rewrite HW; eassumption).
      unfold store_obj, bind. rewrite HW. reflexivity.
    - erewrite run_lookup_obj by (rewrite HW; eassumption).
      cbv beta iota. rewrite run_bind_assoc.
      erewrite run_lookup_obj by (rewrite HW; eassumption).
      unfold store_obj, bind. rewrite HW. reflexivity. }
  rewrite K by reflexivity. clear K. world_simpl. rewrite Hpar. run.
  destruct (dataflow al) as [dfk |]; [| reflexivity].
  run. unfold Future.set_result. run.
  assert (K : forall (X : M unit),
    match _state bs with FINISHED => raise InvalidStateError | _ => X end = X)
    by (intros X; destruct (_state bs); congruence).
  rewrite K. run. unfold Future._invoke_callbacks. run.
  cbn [_done_callbacks with_state with_result]. rewrite Hcb. reflexivity.
Qed.


(** ** Views *)

Lemma filepath_chain_alloc n x : forall r w k,
  filepath_chain n r w = (w, Ret k) ->
  forall m, filepath_chain (n + m) r (with_heap (heap w ++ [x]) w)
            = (with_heap (heap w ++ [x]) w, Ret k).
Proof.
  induction n as [| n IH]; intros r w k H m; [discriminate |].
  cbn [filepath_chain Nat.add] in *. unfold bind, lookup_obj in *.
  destruct (heap w !! r) as [o |] eqn:Er; [| discriminate].
  cbn [heap with_heap]. rewrite lookup_app_l by (eapply lookup_lt_Some; eassumption).
  rewrite Er. destruct o as [f | bb []]; try discriminate.
  - injection H as <-. reflexivity.
  - apply IH. exact H.
  - destruct (dyn_file_obj a) as [g |]; [apply IH; exact H | discriminate].
Qed.

Lemma getattr_filename_ret f w k :
  snd (getattr_filename f w) = Ret k -> getattr_filename f w = (w, Ret k).
Proof.
  intros H. destruct (getattr_filename f w) as [w1 o1] eqn:E.
  pose proof (read_only_getattr_filename _ _ _ _ E). subst w1. simpl in H. subst o1.
  reflexivity.
Qed.

Lemma getattr_filepath_ret r w o :
  snd (getattr_filepath r w) = o -> getattr_filepath r w = (w, o).
Proof.
  intros H. destruct (getattr_filepath r w) as [w1 o1] eqn:E.
  pose proof (read_only_getattr_filepath _ _ _ _ E). subst w1. simpl in H. subst o1.
  reflexivity.
Qed.

Lemma named_wrapper_alloc w x f :
  named_wrapper w f -> named_wrapper (with_heap (heap w ++ [x]) w) f.
Proof.
  intros [Hk [k Hn]].
  destruct (heap w !! f) as [o |] eqn:Ef; [| discriminate].
  cbn in Hk. injection Hk as Hk. destruct o as [? | bf []]; try discriminate.
  pose proof (lookup_lt_Some _ _ _ Ef) as Hlt.
  split.
  - cbn [heap with_heap]. rewrite lookup_app_l by assumption. rewrite Ef. reflexivity.
  - apply getattr_filename_ret in Hn. unfold getattr_filename in *.
    rewrite (run_lookup_obj _ _ _ _ Ef) in Hn.
    erewrite run_lookup_obj
      by (cbn [heap with_heap]; rewrite lookup_app_l by assumption; exact Ef).
    cbv beta iota.
    destruct (dyn_file_obj a) as [g |]; [| exists None; reflexivity].
    unfold bind in Hn. destruct (getattr_filepath g w) as [w1 [p | e | st]] eqn:Eg;
      try discriminate.
    pose proof (read_only_getattr_filepath _ _ _ _ Eg). subst w1.
    unfold getattr_filepath in Eg.
    pose proof (filepath_chain_alloc _ x _ _ _ Eg 1%nat) as E1.
    exists (Some p). unfold bind, getattr_filepath. cbn [heap with_heap].
    rewrite length_app. cbn [length]. cbn [heap with_heap] in E1. rewrite E1. reflexivity.
Qed.

Lemma check_wrappers (fs : list ref) w :
  Forall (named_wrapper w) fs ->
  for_each fs (fun f => do b <- isinstance is_DynamicFile f;
                        if b then ret tt else raise TypeError) w = (w, Ret tt)
  /\ for_each fs DynamicFileList.typecheck_value w = (w, Ret tt).
Proof.
  induction 1 as [| f fs [Hk _] _ [IH1 IH2]]; [split; reflexivity |].
  destruct (heap w !! f) as [o |] eqn:Ef; [| discriminate].
  cbn in Hk. injection Hk as Hk.
  split; cbn [for_each].
  - unfold isinstance. rewrite !run_bind_assoc. erewrite run_lookup_obj by exact Ef.
    rewrite run_ret, Hk, run_ret. exact IH1.
  - unfold DynamicFileList.typecheck_value. rewrite !run_bind_assoc.
    erewrite run_lookup_obj by exact Ef.
    rewrite Hk, orb_true_r, run_ret. exact IH2.
Qed.

Lemma extend_fresh_wrappers D v fs w b a :
  heap w !! v = Some (OFuture b (IDynamicFileList a)) ->
  items a = [] -> _last_idx a = -1 -> dataflow a = None -> _sub_callbacks a = [] ->
  Forall (named_wrapper w) fs ->
  exists fd,
    DynamicFileList.extend D v fs w
    = (with_heap
         (<[v := OFuture b (IDynamicFileList
                   (with_last_idx (Z.of_nat (length fs) - 1)
                      (with_items fs (with_files_done fd a))))]> (heap w)) w,
       Ret tt).
Proof.
  intros H Hi Hl Hd Hv Hall. bounds.
  unfold DynamicFileList.extend.
  destruct (extend_collect_wrappers D v fs [] w b a H Hall) as [fd Hcol].
  exists fd. rstep by exact Hcol. run.
  cbn [items _last_idx with_files_done]. rewrite Hi, Hl. cbn [length].
  replace (-1 =? Z.of_nat 0 - 1) with true by reflexivity.
  run. cbn [app].
  match goal with
  | |- context [bind (for_each fs ?body) _ ?W] =>
      pose proof (extend_count_loop D v fs W b
                    (with_items (items (with_files_done fd a) ++ fs) (with_files_done fd a))
                    ltac:(lookup_tac) Hd) as Hloop
  end.
  rstep by exact Hloop.
  erewrite call_callbacks_no_views; [| lookup_tac | exact Hv].
  world_simpl. rewrite ?list_insert_insert_eq.
  cbn [items _last_idx with_files_done with_items]. rewrite Hi, Hl. cbn [app].
  do 5 f_equal. unfold with_last_idx. cbn. f_equal. lia.
Qed.

Lemma getslice_ret (l : list ref) s w w' fs :
  list_getslice l s w = (w, Ret fs) -> list_getslice l s w' = (w', Ret fs).
Proof.
  unfold list_getslice. destruct (slice_positions s (length l)); [| discriminate].
  intros [= <-]. reflexivity.
Qed.

Lemma getslice_elements (l : list ref) s w fs (P : ref -> Prop) :
  list_getslice l s w = (w, Ret fs) -> Forall P l -> Forall P fs.
Proof.
  unfold list_getslice. destruct (slice_positions s (length l)) as [ps |]; [| discriminate].
  intros [= <-] Hall. apply Forall_forall. intros x Hx.
  apply list_elem_of_omap in Hx as (i & _ & Hi).
  rewrite Forall_forall in Hall. apply Hall. eapply list_elem_of_lookup_2. exact Hi.
Qed.

(** The attributes of the view that [self[key]] builds over the slots
    [fs], with [fd] its completion-predicate map. *)
Lemma build_view D w l b a key fs :
  heap w !! l = Some (OFuture b (IDynamicFileList a)) ->
  Forall (named_wrapper w) fs ->
  exists fd,
    (do view <- DynamicFileList.DynamicFileSubList.__init__ D key (Some fs) l;
     do _ <- upd_list l (fun a => with_sub_callbacks (_sub_callbacks a ++ [view]) a);
     ret view) w
    = (with_heap
         (<[l := OFuture b (IDynamicFileList
                   (with_sub_callbacks (_sub_callbacks a ++ [length (heap w)]) a))]>
            (heap w)
          ++ [OFuture Future.__init__ (IDynamicFileList (view_attrs l key fs fd))]) w,
       Ret (length (heap w))).
Proof.
  intros H Hall. bounds.
  destruct (check_wrappers fs w Hall) as [C1 C2].
  unfold DynamicFileList.DynamicFileSubList.__init__. run. cbn [is_DynamicFileList negb].
  rread by exact C1.
  unfold DynamicFileList.__init__. rread by exact C2. run.
  set (a0 := mkList [] [] (-1) EmptyString None None [] false false None None None false).
  match goal with
  | |- context [bind (DynamicFileList.extend D ?v fs) _ ?W] =>
      destruct (extend_fresh_wrappers D v fs W Future.__init__ a0
                  ltac:(lookup_tac) eq_refl eq_refl eq_refl eq_refl) as [fd Hext]
  end.
  { eapply Forall_impl; [exact Hall |]. intros f Hf. apply named_wrapper_alloc. exact Hf. }
  exists fd. rstep by exact Hext. run.
  rewrite insert_app_r_alt by lia. rewrite Nat.sub_diag. cbn [insert list_insert].
  rewrite insert_app_l by lia. reflexivity.
Qed.

(** A slice whose bounds lie inside the list builds a view and changes
    nothing else: the view is a new list that holds the very slots (not
    copies) that the slice selects, all of them below its high-water
    mark, and remembers the list and the slice; it is fixed in size
    exactly when both bounds are given; and it is registered on the list
    for refresh. Elements, completion-predicate map and high-water mark
    of the list stay as they are. *)
Theorem slice_builds_view D w l b a key fs :
  heap w !! l = Some (OFuture b (IDynamicFileList a)) ->
  slice_within key (length (items a)) = true ->
  list_getslice (items a) key w = (w, Ret fs) ->
  Forall (named_wrapper w) fs ->
  exists w' fd,
    __getitem__ D l (KSlice key) w = (w', Ret (length (heap w)))
    /\ list_at w' l = Some (with_sub_callbacks (_sub_callbacks a ++ [length (heap w)]) a)
    /\ list_at w' (length (heap w)) = Some (view_attrs l key fs fd)
    /\ log w' = log w
    /\ forall r, r <> l -> (r < length (heap w))%nat -> heap w' !! r = heap w !! r.
Proof.
  intros H Hin Hsl Hall. bounds.
  unfold slice_within in Hin. apply andb_prop in Hin as [Hst Hsp].
  unfold __getitem__, DynamicFileList._getitem_slice. run.
  assert (K1 : forall (k : unit -> M ref),
    bind (match sl_start key with
          | None => ret tt
          | Some start =>
              if Z.of_nat (length (items a)) <=? start then
                for_each (py_range (Z.of_nat (length (items a))) (start + 1))
                  (fun _ => do w0 <- DynamicFileList.wrap D l None;
                            DynamicFileList.append D l w0)
              else ret tt
          end) k w = k tt w).
  { intros k. destruct (sl_start key) as [st |]; [| reflexivity].
    replace (Z.of_nat (length (items a)) <=? st) with false by lia. reflexivity. }
  rewrite K1. clear K1. run.
  assert (K2 : forall (k : unit -> M ref),
    bind (match sl_stop key with
          | None => ret tt
          | Some stop =>
              if Z.of_nat (length (items a)) <? stop then
                for_each (py_range (Z.of_nat (length (items a))) stop)
                  (fun _ => do w0 <- DynamicFileList.wrap D l None;
                            DynamicFileList.append D l w0)
              else ret tt
          end) k w = k tt w).
  { intros k. destruct (sl_stop key) as [sp |]; [| reflexivity].
    replace (Z.of_nat (length (items a)) <? sp) with false by lia. reflexivity. }
  rewrite K2. clear K2. run.
  rread by exact Hsl.
  destruct (build_view D w l b a key fs H Hall) as [fd Hview].
  rewrite Hview. eexists _, fd. split; [reflexivity |].
  unfold list_at. world_simpl.
  split; [rewrite lookup_app_l by len_tac; rewrite list_lookup_insert_eq by lia; reflexivity |].
  split; [rewrite lookup_snoc by len_tac; reflexivity |].
  split; [reflexivity |].
  intros r Hr Hlt. rewrite lookup_app_l by len_tac.
  rewrite list_lookup_insert_ne by congruence. reflexivity.
Qed.

Lemma named_wrapper_allocs xs : forall w f,
  named_wrapper w f -> named_wrapper (with_heap (heap w ++ xs) w) f.
Proof.
  induction xs as [| x xs IH]; intros w f H.
  - unfold with_heap. rewrite app_nil_r. destruct w; exact H.
  - apply (named_wrapper_alloc w x) in H. apply IH in H.
    unfold with_heap in *. cbn [heap log clock] in *. rewrite <- app_assoc in H. exact H.
Qed.

Lemma named_empty_wrapper w s bs sa :
  heap w !! s = Some (OFuture bs (IDynamicFile sa)) ->
  dyn_file_obj sa = None -> named_wrapper w s.
Proof.
  intros H Hn. split; [rewrite H; reflexivity |].
  exists None. rewrite (filename_of_empty_wrapper _ _ _ _ H Hn). reflexivity.
Qed.

Lemma append_empty_wrapper_run D w l b a x bx :
  heap w !! l = Some (OFuture b (IDynamicFileList a)) ->
  heap w !! x = Some (OFuture bx (IDynamicFile (mkDynamicFile false l None true false))) ->
  _sub_callbacks a = [] ->
  _last_idx a = Z.of_nat (length (items a)) - 1 ->
  DynamicFileList.append D l x w
  = (with_heap
       (<[l := OFuture b (IDynamicFileList
                 (with_last_idx (_last_idx a + 1)
                    (with_files_done (dict_set None x (files_done a))
                       (with_items (items a ++ [x]) a))))]> (heap w)) w,
     Ret tt).
Proof.
  intros H Hx Hv Hc. bounds. assert (l <> x) by congruence.
  unfold DynamicFileList.append, DynamicFileList.typecheck_value. run.
  cbn [is_File is_DataFuture is_DynamicFile orb].
  unfold DynamicFileList.normalise. run. cbn [is_DynamicFile]. run.
  replace (_last_idx a =? Z.of_nat (length (items a)) - 1) with true by lia.
  run. cbn [items _last_idx with_items].
  rread by (eapply list_getitem_Some;
            [ apply norm_index_nonneg; rewrite length_app; cbn [length]; lia
            | rewrite Hc;
              replace (Z.to_nat (Z.of_nat (length (items a)) - 1 + 1))
                with (length (items a)) by lia;
              apply lookup_snoc; reflexivity ]).
  rread by (eapply filename_of_empty_wrapper; [lookup_tac | reflexivity]).
  unfold DynamicFileList.add_done_func. run.
  cbn [_last_idx with_last_idx with_files_done with_items].
  rread by (eapply stage_file_skips with (i := length (items a));
            [ lookup_tac
            | cbn; rewrite length_app; cbn [length]; lia
            | cbn; apply norm_index_at; [rewrite length_app; cbn [length] |]; lia
            | cbn; apply lookup_snoc; reflexivity
            | lookup_tac
            | right; left; reflexivity ]).
  erewrite call_callbacks_no_views; [| lookup_tac | exact Hv].
  reflexivity.
Qed.

Lemma grow_loop n l (xs : list Z) : forall w b a,
  heap w !! l = Some (OFuture b (IDynamicFileList a)) ->
  _sub_callbacks a = [] ->
  _last_idx a = Z.of_nat (length (items a)) - 1 ->
  exists w' b',
    for_each xs
      (fun _ => do x <- DynamicFileList.wrap (dispatch (S n)) l None;
                DynamicFileList.append (dispatch (S n)) l x) w
    = (w', Ret tt)
    /\ heap w'
       = <[l := OFuture b' (IDynamicFileList
                 (with_last_idx (_last_idx a + Z.of_nat (length xs))
                    (with_files_done
                       (foldl (fun fd x => dict_set None x fd) (files_done a)
                          (seq (length (heap w)) (length xs)))
                       (with_items (items a ++ seq (length (heap w)) (length xs)) a))))]>
           (heap w)
         ++ replicate (length xs) (empty_wrapper l)
    /\ log w' = log w.
Proof.
  induction xs as [| x xs IH]; intros w b a H Hv Hc.
  - exists w, b. split; [reflexivity |]. split; [| reflexivity].
    cbn. rewrite !app_nil_r, Z.add_0_r.
    destruct a; cbn. rewrite list_insert_id by assumption. reflexivity.
  - bounds.
    destruct (wrap_None_spec n w l b a H) as (w1 & b1 & Hw & Hh1 & Hl1).
    cbn [for_each]. rstep by exact Hw.
    assert (H1 : heap w1 !! l = Some (OFuture b1 (IDynamicFileList a))).
    { rewrite Hh1. rewrite lookup_app_l by len_tac.
      apply list_lookup_insert_eq. assumption. }
    assert (Hx : heap w1 !! length (heap w) = Some (empty_wrapper l)).
    { rewrite Hh1. apply lookup_snoc. len_tac. }
    rstep by (eapply append_empty_wrapper_run; [exact H1 | exact Hx | exact Hv | exact Hc]).
    match goal with
    | |- exists w' b', for_each _ _ ?W = _ /\ _ =>
        destruct (IH W b1
                    (with_last_idx (_last_idx a + 1)
                       (with_files_done (dict_set None (length (heap w)) (files_done a))
                          (with_items (items a ++ [length (heap w)]) a))))
          as (w' & b' & Hrun & Hh & Hl)
    end.
    { cbn [heap]. apply list_lookup_insert_eq. eapply lookup_lt_Some. exact H1. }
    { exact Hv. }
    { cbn. rewrite length_app. cbn [length]. lia. }
    exists w', b'. split; [exact Hrun |]. split.
    + rewrite Hh. cbn [heap]. rewrite Hh1.
      rewrite length_insert, length_app, length_insert. cbn [length].
      rewrite insert_app_l by len_tac.
      rewrite !list_insert_insert_eq.
      rewrite insert_app_l by len_tac.
      rewrite list_insert_insert_eq.
      rewrite <- app_assoc. cbn [replicate app].
      rewrite Nat.add_1_r. cbn [seq foldl].
      cbn [items files_done _last_idx with_items with_files_done with_last_idx].
      rewrite <- app_assoc. cbn [app].
      replace (_last_idx a + 1 + Z.of_nat (length xs))
        with (_last_idx a + Z.of_nat (S (length xs))) by lia.
      reflexivity.
    + rewrite Hl. cbn [log]. exact Hl1.
Qed.

Lemma filepath_chain_heap n : forall r w w',
  heap w = heap w' -> snd (filepath_chain n r w) = snd (filepath_chain n r w').
Proof.
  induction n as [| n IH]; intros r w w' E; [reflexivity |].
  cbn [filepath_chain]. unfold bind, lookup_obj. rewrite <- E.
  destruct (heap w !! r) as [[f | bb []] |]; try reflexivity.
  - apply IH. exact E.
  - destruct (dyn_file_obj a); [apply IH; exact E | reflexivity].
Qed.

Lemma named_wrapper_heap w w' f :
  heap w = heap w' -> named_wrapper w f -> named_wrapper w' f.
Proof.
  intros E [Hk [k Hn]]. split; [rewrite <- E; exact Hk |].
  exists k. rewrite <- Hn. unfold getattr_filename, bind, lookup_obj. rewrite <- E.
  destruct (heap w !! f) as [[fl | bb []] |]; try reflexivity.
  - unfold getattr_filepath. rewrite <- E.
    pose proof (filepath_chain_heap (length (heap w)) (df_file_obj a) w' w (eq_sym E)) as P.
    destruct (filepath_chain _ _ w') as [x1 o1], (filepath_chain _ _ w) as [x2 o2].
    cbn in P. subst o2. destruct o1; reflexivity.
  - destruct (dyn_file_obj a) as [g |]; [| reflexivity].
    unfold getattr_filepath. rewrite <- E.
    pose proof (filepath_chain_heap (length (heap w)) g w' w (eq_sym E)) as P.
    destruct (filepath_chain _ _ w') as [x1 o1], (filepath_chain _ _ w) as [x2 o2].
    cbn in P. subst o2. destruct o1; reflexivity.
Qed.

Lemma foldl_dict_set_None (xs : list ref) : forall fd,
  xs <> [] -> dict_mem None (foldl (fun fd x => dict_set None x fd) fd xs) = true.
Proof.
  induction xs as [| x xs IH]; intros fd Hne; [congruence |].
  cbn [foldl]. destruct xs as [| y ys]; [apply dict_mem_set |].
  apply IH. discriminate.
Qed.

(** A slice read that starts at or beyond the length grows the list
    through [append], unlike an integer read: on a list without views
    whose slots are all filled, [self[start:]] with [start >= len(self)]
    adds [start - len + 1] empty wrappers, moves the high-water mark up to
    [start], registers the name [None] in the completion-predicate map,
    and returns a view that is registered on the list. *)
Theorem slice_beyond_length_moves_mark n w l b a start :
  heap w !! l = Some (OFuture b (IDynamicFileList a)) ->
  _sub_callbacks a = [] ->
  _last_idx a = Z.of_nat (length (items a)) - 1 ->
  Z.of_nat (length (items a)) <= start ->
  Forall (named_wrapper w) (items a) ->
  let k := Z.to_nat (start - Z.of_nat (length (items a)) + 1) in
  exists w' v a',
    __getitem__ (dispatch (S n)) l (KSlice (mkSlice (Some start) None None)) w = (w', Ret v)
    /\ list_at w' l = Some a'
    /\ items a' = items a ++ seq (length (heap w)) k
    /\ (forall r, In r (seq (length (heap w)) k) -> heap w' !! r = Some (empty_wrapper l))
    /\ _last_idx a' = start
    /\ dict_mem None (files_done a') = true
    /\ _sub_callbacks a' = [v]
    /\ (items <$> list_at w' v) = Some [(length (heap w) + k - 1)%nat].
Proof.
  intros H Hv Hc Hlen Hall k. bounds.
  unfold __getitem__, DynamicFileList._getitem_slice. run. cbn [sl_start sl_stop].
  replace (Z.of_nat (length (items a)) <=? start) with true by lia.
  destruct (grow_loop n l (py_range (Z.of_nat (length (items a))) (start + 1)) w b a H Hv Hc)
    as (w1 & b1 & Hrun & Hh & Hl).
  rewrite length_py_range in Hh.
  replace (Z.to_nat (start + 1 - Z.of_nat (length (items a)))) with k in Hh by lia.
  set (new := seq (length (heap w)) k) in *.
  remember (with_last_idx (_last_idx a + Z.of_nat k)
              (with_files_done (foldl (fun fd x => dict_set None x fd) (files_done a) new)
                 (with_items (items a ++ new) a))) as a1 eqn:Ea1.
  assert (Hk : (0 < k)%nat) by lia.
  assert (H1 : heap w1 !! l = Some (OFuture b1 (IDynamicFileList a1))).
  { rewrite Hh. rewrite lookup_app_l by len_tac. apply list_lookup_insert_eq. assumption. }
  assert (Hnew : forall r, In r new -> heap w1 !! r = Some (empty_wrapper l)).
  { intros r Hr. subst new. apply in_seq in Hr. rewrite Hh.
    rewrite lookup_app_r by len_tac. rewrite length_insert.
    apply lookup_replicate. split; [reflexivity | lia]. }
  assert (Hall1 : Forall (named_wrapper w1) (items a1)).
  { assert (Ei : items a1 = items a ++ new) by (subst a1; reflexivity).
    rewrite Ei. apply Forall_app. split.
    - eapply Forall_impl; [exact Hall |]. intros f Hf.
      apply (named_wrapper_list_update l b a b1 a1 w f H) in Hf.
      apply (named_wrapper_allocs (replicate k (empty_wrapper l))) in Hf.
      eapply named_wrapper_heap; [| exact Hf]. rewrite Hh. reflexivity.
    - apply Forall_forall. intros r Hr. apply list_elem_of_In in Hr.
      eapply named_empty_wrapper; [exact (Hnew r Hr) | reflexivity]. }
  rstep by exact Hrun. run.
  assert (Ei : items a1 = items a ++ new) by (subst a1; reflexivity).
  assert (Hdrop : drop (Z.to_nat start) (items a1) = [(length (heap w) + k - 1)%nat]).
  { rewrite Ei. rewrite drop_app_ge by lia. subst new.
    replace (Z.to_nat start - length (items a))%nat with (k - 1)%nat by lia.
    rewrite drop_seq. replace (k - (k - 1))%nat with 1%nat by lia.
    cbn [seq]. f_equal. lia. }
  assert (Hsl : list_getslice (items a1) (mkSlice (Some start) None None) w1
                = (w1, Ret [(length (heap w) + k - 1)%nat])).
  { rewrite <- Hdrop. apply list_getslice_open; [lia | reflexivity]. }
  rread by exact Hsl.
  assert (Hfs : Forall (named_wrapper w1) [(length (heap w) + k - 1)%nat]).
  { eapply getslice_elements; [exact Hsl | exact Hall1]. }
  destruct (build_view (dispatch (S n)) w1 l b1 a1 (mkSlice (Some start) None None)
              _ H1 Hfs) as [fd Hb].
  rewrite Hb. clear Hb.
  eexists _, _, _. split; [reflexivity |].
  assert (Hl1 : (l < length (heap w1))%nat) by (apply lookup_lt_Some in H1; exact H1).
  split.
  { unfold list_at. world_simpl. rewrite lookup_app_l by len_tac.
    rewrite list_lookup_insert_eq by assumption. reflexivity. }
  split; [subst a1; reflexivity |].
  split.
  { intros r Hr. world_simpl. pose proof (Hnew r Hr) as Hr1.
    assert (r <> l) by (subst new; apply in_seq in Hr; lia).
    apply lookup_lt_Some in Hr1 as Hlt.
    rewrite lookup_app_l by len_tac.
    rewrite list_lookup_insert_ne by congruence. exact Hr1. }
  split; [subst a1; cbn; lia |].
  split.
  { subst a1. cbn. apply foldl_dict_set_None. subst new.
    destruct k; [lia | discriminate]. }
  split; [subst a1; cbn; rewrite Hv; reflexivity |].
  unfold list_at. world_simpl. rewrite lookup_snoc by len_tac. reflexivity.
Qed.

(** ** Inserting *)






(** ** Instances on the worlds built by running the program *)

Lemma stage_file_exactly_when_witness :
  exists w',
    DynamicFileList.stage_file D3 0%nat 0 world_restaged = (w', Ret tt)
    /\ log w' = log world_restaged
                ++ [EvStageOut 0 0 4 7 "exec" 1; EvReplaceTaskStageOut 0 7 (Some 3)].
Proof.
  destruct (stage_file_exactly_when D3 0%nat 0 world_restaged _ _ 0%nat 4%nat _ _
              eq_refl ltac:(simpl; lia) eq_refl eq_refl eq_refl eq_refl eq_refl)
    as (w' & Hrun & Hlog & _).
  exists w'. split; [exact Hrun | exact Hlog].
Defined.

Lemma stage_file_repeats_witness :
  stage_out_count 4 (log world_restaged) = 2%nat
  /\ exists w1 w2,
       DynamicFileList.stage_file D3 0%nat 0 world_restaged = (w1, Ret tt)
       /\ DynamicFileList.stage_file D3 0%nat 0 w1 = (w2, Ret tt)
       /\ stage_out_count 4 (log w2) = 4%nat.
Proof.
  split; [reflexivity |].
  destruct (stage_file_repeats D3 0%nat 0 world_restaged _ _ 0%nat 4%nat _ _
              eq_refl ltac:(simpl; lia) eq_refl eq_refl eq_refl eq_refl eq_refl eq_refl)
    as (w1 & w2 & H1 & H2 & _ & Hc).
  exists w1, w2. split; [exact H1 |]. split; [exact H2 | exact Hc].
Defined.

Lemma set_dataflow_stages_due_slots_witness :
  exists w',
    DynamicFileList.set_dataflow D3 0%nat the_dfk "exec" false 3 7 world_AB = (w', Ret tt)
    /\ stage_out_slots (log w') = [(0, 6%nat); (1, 7%nat)].
Proof.
  destruct (set_dataflow_stages_due_slots D3 world_AB 0%nat _ _ the_dfk "exec" false 3 7%nat
              eq_refl eq_refl ltac:(simpl; lia) eq_refl)
    as (w' & Hrun & _ & Hlog).
  exists w'. split; [exact Hrun | exact Hlog].
Defined.

Lemma set_parent_stages_due_slots_witness :
  exists w',
    DynamicFileList.set_parent D3 0%nat 1%nat world_context_first = (w', Ret tt)
    /\ stage_out_slots (log w') = [(0, 4%nat)]
    /\ DynamicFileList.set_parent D3 0%nat 1%nat w' = (w', Raise ValueError).
Proof.
  destruct (set_parent_stages_due_slots D3 world_context_first 0%nat _ _ 1%nat _ _
              eq_refl eq_refl ltac:(discriminate) eq_refl eq_refl ltac:(simpl; lia)
              eq_refl eq_refl)
    as (w' & Hrun & _ & _ & Hlog & Hagain).
  exists w'. split; [exact Hrun |]. split; [exact Hlog | exact (Hagain 1%nat)].
Defined.

Lemma staging_order_independent_witness :
  exists w1 w2 v1 v2,
    DynamicFileList.set_parent D3 0%nat 1%nat world_unattached = (w1, Ret tt)
    /\ DynamicFileList.set_dataflow D3 0%nat the_dfk "exec" false 3 7 w1 = (w2, Ret tt)
    /\ DynamicFileList.set_dataflow D3 0%nat the_dfk "exec" false 3 7 world_unattached
       = (v1, Ret tt)
    /\ DynamicFileList.set_parent D3 0%nat 1%nat v1 = (v2, Ret tt)
    /\ stage_out_slots (log w2) = [(0, 4%nat)]
    /\ stage_out_slots (log v2) = [(0, 4%nat)].
Proof.
  destruct (staging_order_independent D3 world_unattached 0%nat _ _ 1%nat _ _
              the_dfk "exec" false 3 7%nat
              eq_refl eq_refl ltac:(discriminate) eq_refl eq_refl eq_refl
              ltac:(simpl; lia) eq_refl eq_refl)
    as (w1 & w2 & v1 & v2 & H1 & H2 & H3 & H4 & _ & _ & L1 & L2 & _).
  exists w1, w2, v1, v2. repeat (split; [assumption |]). exact L2.
Defined.

Lemma append_then_pop_witness :
  exists w1 w2,
    DynamicFileList.append D3 0%nat 1%nat world_list_file = (w1, Ret tt)
    /\ (items <$> list_at w1 0) = Some [2%nat]
    /\ DynamicFileList.pop D3 0%nat (-1) w1 = (w2, Ret (Some 1%nat))
    /\ list_at w2 0 = list_at world_list_file 0.
Proof.
  destruct (append_then_pop D3 world_list_file 0%nat _ _ 1%nat _
              eq_refl eq_refl eq_refl eq_refl ltac:(discriminate) eq_refl eq_refl)
    as (w1 & w2 & H1 & L1 & _ & H2 & L2 & _).
  exists w1, w2. split; [exact H1 |]. split; [rewrite L1; reflexivity |].
  split; [exact H2 | exact L2].
Defined.

Lemma pop_out_of_range_witness :
  DynamicFileList.pop D3 0%nat (-1) world_fresh_list = (world_fresh_list, Raise IndexError)
  /\ DynamicFileList.pop D3 0%nat 2 world_AB = (world_AB, Raise IndexError).
Proof.
  split.
  - apply (pop_out_of_range D3 world_fresh_list 0%nat _ _ (-1) eq_refl).
    left. reflexivity.
  - apply (pop_out_of_range D3 world_AB 0%nat _ _ 2 eq_refl).
    right. split; [discriminate | simpl; lia].
Defined.

Lemma pop_not_atomic_witness :
  (items <$> list_at world_open_view 0) = Some [2; 3; 4]%nat
  /\ snd (DynamicFileList.pop D3 0%nat (-1) world_open_view) = Raise KeyError
  /\ (items <$> list_at (fst (DynamicFileList.pop D3 0%nat (-1) world_open_view)) 0)
     = Some [2; 3]%nat.
Proof.
  split; [reflexivity |].
  rewrite (pop_not_atomic D3 world_open_view 0%nat _ _ (-1) 2%nat 4%nat _ _ None
             eq_refl (or_introl eq_refl) eq_refl eq_refl eq_refl eq_refl eq_refl).
  split; reflexivity.
Defined.

Lemma bare_file_with_parent_raises_witness :
  DynamicFileList.append D3 0%nat 2%nat world_AB = (world_AB, Raise TypeError)
  /\ DynamicFileList.insert D3 0%nat 0 2%nat world_AB = (world_AB, Raise TypeError)
  /\ DynamicFileList.extend D3 0%nat [2%nat; 3%nat] world_AB = (world_AB, Raise TypeError).
Proof.
  destruct (bare_file_with_parent_raises D3 world_AB 0%nat _ _ 1%nat 2%nat _
              eq_refl eq_refl eq_refl) as (Ha & Hi & He).
  split; [exact Ha |]. split; [apply Hi; simpl; lia | apply He].
Defined.


Lemma setitem_fills_placeholder_witness :
  snd (DynamicFileList.__setitem__ D3 0%nat 0 1%nat world_placeholders) = Ret tt
  /\ wrapper_at (fst (DynamicFileList.__setitem__ D3 0%nat 0 1%nat world_placeholders)) 2
     = Some (mkDynamicFile false 0 (Some 1%nat) false false)
  /\ (_last_idx <$> list_at (fst (DynamicFileList.__setitem__ D3 0%nat 0 1%nat
                                    world_placeholders)) 0)
     = Some 0.
Proof.
  rewrite (setitem_fills_placeholder D3 world_placeholders 0%nat _ _ 0 1%nat _ 0%nat 2%nat _ _
             eq_refl eq_refl eq_refl eq_refl ltac:(simpl; lia) eq_refl eq_refl eq_refl
             eq_refl eq_refl eq_refl).
  split; [reflexivity |]. split; reflexivity.
Defined.

Lemma append_into_placeholder_witness :
  exists w',
    DynamicFileList.append D3 0%nat 3%nat world_placeholder_future = (w', Ret tt)
    /\ (items <$> list_at w' 0) = Some [4%nat]
    /\ wrapper_at w' 4 = Some (mkDynamicFile false 0 (Some 5%nat) false false)
    /\ wrapper_at w' 5 = Some (mkDynamicFile true 0 (Some 3%nat) false false)
    /\ DynamicFileList.DynamicFile.done 4%nat w' = (w', Ret true).
Proof.
  destruct (append_into_placeholder D3 world_placeholder_future 0%nat _ _ 4%nat _ _ 3%nat _ _ _
              eq_refl ltac:(discriminate) eq_refl ltac:(simpl; lia) ltac:(simpl; lia)
              eq_refl eq_refl eq_refl eq_refl eq_refl)
    as (w' & Hrun & Hl & Hs & Hn & Hdone & _).
  exists w'. split; [exact Hrun |]. split; [rewrite Hl; reflexivity |].
  split; [exact Hs |]. split; [exact Hn | exact Hdone].
Defined.



Lemma slot_callback_ignores_failure_witness :
  failed world_restaged_failing 0 (TaskError 1)
  /\ exists w',
       DynamicFileList.DynamicFile.parent_callback D3 4%nat 0%nat world_restaged_failing
       = (w', Ret tt)
       /\ future_at w' 4 = Some (mkFuture FINISHED (Some 3%nat) None [] None)
       /\ log w' = log world_restaged_failing ++ [EvRegisterAsOutput (Some 3%nat) (Some 7%nat)].
Proof.
  split.
  { eexists. split; [reflexivity |]. split; reflexivity. }
  eexists.
  rewrite (slot_callback_ignores_failure D3 world_restaged_failing 0%nat _ _ 4%nat _ _
             3%nat 6%nat _ eq_refl eq_refl eq_refl eq_refl ltac:(discriminate) eq_refl
             eq_refl (or_intror (ex_intro _ _ (ex_intro _ _ (conj eq_refl eq_refl))))).
  split; [reflexivity |]. split; reflexivity.
Defined.

Lemma slice_builds_view_witness :
  exists w',
    __getitem__ D3 0%nat (KSlice (mkSlice (Some 0) (Some 1) None)) world_view
    = (w', Ret 5%nat)
    /\ (items <$> list_at w' 5) = Some [3%nat]
    /\ (_sub_callbacks <$> list_at w' 0) = Some [4; 5]%nat
    /\ log w' = log world_view.
Proof.
  assert (Hall : Forall (named_wrapper world_view) [3%nat]).
  { repeat constructor. exists (Some "a"%string). reflexivity. }
  destruct (slice_builds_view D3 world_view 0%nat _ _ (mkSlice (Some 0) (Some 1) None)
              [3%nat] eq_refl eq_refl eq_refl Hall)
    as (w' & fd & Hrun & Hl & Hv & Hlog & _).
  change (length (heap world_view)) with 5%nat in Hv.
  exists w'. split; [exact Hrun |]. split; [rewrite Hv; reflexivity |].
  split; [rewrite Hl; reflexivity | exact Hlog].
Defined.

Lemma slice_beyond_length_moves_mark_witness :
  exists w' v a',
    __getitem__ D3 0%nat (KSlice (mkSlice (Some 1) None None)) world_fresh_list = (w', Ret v)
    /\ list_at w' 0 = Some a'
    /\ items a' = [1; 2]%nat
    /\ _last_idx a' = 1
    /\ dict_mem None (files_done a') = true.
Proof.
  destruct (slice_beyond_length_moves_mark 2 world_fresh_list 0%nat _ _ 1
              eq_refl eq_refl eq_refl ltac:(simpl; lia) (Forall_nil_2 _))
    as (w' & v & a' & Hrun & Hl & Hi & _ & Hm & Hd & _).
  exists w', v, a'. split; [exact Hrun |]. split; [exact Hl |].
  split; [exact Hi |]. split; [exact Hm | exact Hd].
Defined.


